(* ===== verification/_CoqProject ===== *)
-Q . S2P
Prelude.v
Utf8.v
PyStr.v
Deferred.v
Protocol.v
Reactor.v
Launcher.v
Cleanup.v
Lifecycle.v
Mailbox.v
