(* ===== verification/Prelude.v ===== *)
(** * A verification development of fow's managed service launcher

    The program is one file, [src/integration/util.py]. It starts an
    auxiliary service as a child process, watches its output for a marker,
    and shuts the child down at the end of the test session. Its parts:
    - [_MagicTextProtocol] (util.py:14-61), a Twisted [ProcessProtocol].
      [childDataReceived] sends descriptor 1 to [out_received], which
      decodes, echoes, appends to a [StringIO] and fires [magic_seen] when
      the marker first occurs. Descriptor 2 goes to [err_received], which
      only echoes. Other descriptors go to Twisted's base class.
      [processEnded] fails a pending [magic_seen] and fires [exited].
    - [run_service] (util.py:64-105). It builds the protocol, spawns the
      child with a copied environment and a platform-dependent descriptor
      table, and registers [_cleanup_service_process] as a pytest
      finalizer. It returns [magic_seen] with [lambda ignored: process]
      chained on.
    - [_cleanup_service_process] (util.py:108-126) sends TERM to a live
      child and blocks on [exited] with [pytest_twisted.blockon]. It
      swallows [ProcessExitedAlready].
    - [WormholeMailboxServer.create] (util.py:129-160), the one caller. It
      launches the mailbox server and awaits readiness.
    The parts interact through Twisted. The reactor delivers the OS's
    events to the protocol. Two Deferreds carry readiness and exit to
    [run_service]'s caller and to the finalizer.

    ** Files, modules and what they model
    - [Prelude] (this file): the Python exceptions the code raises or
      catches ([exn]), the outcome type [res] (a value, an exception, or
      [Hang] for waiting forever), and the state and exception monad [PyM]
      in which every handler is written. State changes made before a
      [raise] survive. It also holds the [fow] hint databases and the
      shared tactics.
    - [Utf8] (Module [Utf8]): [bytes.decode("utf8")] as CPython's strict
      codec, [next_char] (one sequence, Unicode Table 3-7) and
      [decode_loop], with an encoder to build inputs that end inside a
      character.
    - [PyStr] (Module [PyStr]): [str.__contains__] ([contains]), [StringIO],
      and the literals of the source.
    - [Deferred] (Module [Deferred]): Twisted's [Deferred] as cells of a
      heap, since [run_service] returns the object the protocol later drops
      its reference to. [new], [callback], [errback], [addCallback], and
      [drop_result], the effect of the callback [blockon] and [await] add
      (it returns [None], so the Deferred then holds [None]). The preorder
      [heap_le]: a fired cell keeps its result under every handler.
    - [Protocol] (Module [MagicTextProtocol]): the protocol's attributes
      ([proto]) and each method, statement by statement. The invariant
      [inv] holds under every handler; it records the readiness chain, and
      that [exited] has no callbacks and only ever holds [None]. The class
      [HandlerInv] is what the reactor relies on from the handlers: a
      property of the protocol's state both [childDataReceived] and
      [processEnded] keep. Its instances are [inv] and the heap's growth.
    - [Reactor] (Module [Reactor]): Twisted's process transport as far as it
      decides when the handlers run. [dispatch] of an OS event, [run_one]
      (one reactor turn), [childConnectionLost], [maybeCallProcessEnded]
      (detach, then [processEnded] once), the logging of a handler's
      exception, [signalProcess] and [pytest_twisted.blockon] ([blockon]:
      wait with [blockon_loop], then the callback's [drop_result]). The OS
      is explicit: the list [os_events] of what the child will make happen,
      and the errno [os.kill] answers with. Any interleaving across
      descriptors is one such list. The invariant [rinv] holds under every
      turn. Section [Preserve] lifts any [HandlerInv] property to
      [dispatch], [run_one] and [run_steps].
    - [Launcher] (Module [Launcher]): [run_service] over a [world] holding
      the reactor state, the finalizers, [sys.platform], [os.environ], the
      spawn requests made, and the OS's answer to the next spawn.
      [world_ok] is the world it is called in: no child and no finalizer
      yet, so the world holds the one child it launches.
    - [Cleanup] (Module [Cleanup]): [_cleanup_service_process], and pytest's
      teardown ([FixtureDef.finish]: every finalizer, last registered
      first, the first exception raised at the end). Section [CPreserve]
      shows that cleanup keeps every property of the reactor's state that
      reactor turns, its prints, its signal and a heap update keep.
    - [Lifecycle] (Module [Lifecycle]): [reachable] holds every world that
      [run_service] followed by any interleaving of reactor turns, OS moves
      and teardowns can produce, and [winv] is the invariant of those
      worlds. The lemmas that carry [winv] along a move also carry the
      spec's lifecycle ([phase], [astep]) through the abstraction [abs].
      Section [WPreserve] lifts a property kept by reactor turns, the OS and
      cleanup to every move.
    - [Mailbox] (Module [Mailbox]): [WormholeMailboxServer.create], with
      [await] as [Deferred.__await__] under Twisted's inline callbacks: a
      fired Deferred is read as it is, a pending one is waited on like
      [blockon] and left holding [None].

    ** What the theorems show (claims C1-C23, in the order of PROJECT.json)
    - Whole runs (Lifecycle, C1-C2). In every reachable world the returned
      Deferred is in one of three states. It is pending while the child
      runs. Or it holds the process transport, with the marker in the
      buffer and "Saw" printed once. Or it holds "Service failed.", with
      [exited] fired and "Saw" never printed. From every reachable world
      whose OS will reap the child, teardown returns with [exited] fired
      and the Deferred settled. The proofs are rule inductions over
      [reachable], on the world invariant [winv].
    - Readiness (C3, C4, C5, C15, C16, C22, C23). Readiness is pending
      exactly while the accumulated stdout lacks the marker, whatever the
      chunk boundaries and however stdout interleaves with the other pipes.
      Only descriptor 1 can fire it, and descriptor 3 is dropped.
      [processEnded] before readiness fails it; after readiness it leaves
      it. A second [processEnded] raises [AlreadyCalledError]. "Saw" is
      printed once, right after the echo of the read that completes the
      marker: the incremental test agrees with a reference stated by
      prefixes ([marker_at]).
    - Printing (C17). Apart from the one "Saw" line, the test prints the
      text of the reads in order: stdout only with [print_logs], stderr
      always, descriptor 3 never.
    - Shutdown (C6, C7, C19-C21). With the child's exit among the OS's
      events, cleanup signals, waits and returns, and a second cleanup
      signals nobody. Without that exit, cleanup waits forever. A child
      already reaped is not signalled. [ESRCH] is swallowed and any other
      error of [os.kill] propagates.
    - Launch (C9-C14). The spawn request, environment and descriptor table
      are fixed. A spawn error propagates. [create] returns the server once
      the banner arrives, raises "Service failed." if the child exits
      silently, and raises the [OSError] of a failed spawn. After [create]
      has returned, the awaited Deferred holds [None], and the session's
      teardown stops the mailbox and returns.
    - Decoding errors (C8, C18). A chunk that does not decode, for example
      one ending inside a UTF-8 character, raises. Twisted logs it and
      stops reading that descriptor: on stdout the marker is lost, on
      stderr nothing more is echoed.

    ** Bounds and fuel
    [decode_loop] runs on fuel [length bs]. Each iteration consumes one to
    four bytes, so the fuel is never exhausted and [decode] never returns
    [Hang] ([decode_not_Hang]). [blockon] runs on fuel [length os_events].
    Each turn delivers one event, and with no event left the reactor has
    nothing to run, so [Hang] there is the real behaviour: waiting forever.
    [run_steps n] runs [n] turns, and the theorems choose [n] (for example
    the number of chunks). Integers are [Z]. No fixed-width arithmetic
    occurs in the code.

    ** Not modelled
    - The [reactor] attribute of [WormholeMailboxServer], which [create]
      only stores.
    - The child's stdin.
    - The exit status in [reason], which the code ignores.
    - Windows' process transport beyond its default descriptor table.
    - Signals other than TERM, and the OS's reaction to TERM: that the
      child is reaped after it is an event of [os_events], a hypothesis of
      the shutdown theorems.
    - A failed spawn is a synchronous [OSError]. On the POSIX fork path a
      missing executable shows instead as a child that exits with status 1;
      the model covers that case only as an ordinary early exit.
    - A [blockon] that never returns leaves its callback on the pending
      Deferred; the model drops it, which changes nothing for [exited],
      since [exited] only ever holds [None].
    - Timing and scheduling, beyond the order of [os_events].
    - pytest fixture scoping, and the [BaseExceptionGroup] pytest 8 raises
      when several finalizers fail (the worlds hold one).
    - Lines 1-11 (imports) and the [attr.s] machinery.

    This file is the prelude: the exceptions, [res], [PyM], the hint
    databases [fow] and [fow_rw], and the tactics [py_unfold], [zarith] and
    [split_cases]. *)

From stdpp Require Import base list gmap strings.
From Stdlib Require Import ZArith Lia.

Declare Scope fow_scope.
Delimit Scope fow_scope with fow.

(** ** Python exceptions that the modelled code raises or catches *)

Inductive exn : Type :=
| UnicodeDecodeError (start : nat)   (** [bytes.decode("utf8")]: offset of the bad sequence *)
| AlreadyCalledError                (** [Deferred.callback] on a fired Deferred *)
| ProcessExitedAlready              (** [IProcessTransport.signalProcess] on a dead child *)
| OSError (errno : Z)               (** any other OS-level failure *)
| AttributeError (msg : string)     (** an attribute looked up on [None] *)
| Exception (msg : string).         (** [Exception(msg)] built by the code *)

#[export] Instance exn_eq_dec : EqDecision exn.
Proof. solve_decision. Defined.

(** ** Outcomes of a computation

    [Hang] is not a Python exception. It is the outcome of a computation that
    waits for an event (the reactor's next I/O, a Deferred firing) that the
    environment never delivers. *)

Inductive res (A : Type) : Type :=
| Ok (a : A)
| Raise (e : exn)
| Hang.
Arguments Ok {A} a.
Arguments Raise {A} e.
Arguments Hang {A}.

(** ** The state and exception monad of Python statements *)

Definition PyM (S A : Type) : Type := S -> S * res A.

Definition ret {S A} (a : A) : PyM S A := fun s => (s, Ok a).

Definition bind {S A B} (m : PyM S A) (k : A -> PyM S B) : PyM S B :=
  fun s =>
    match m s with
    | (s', Ok a) => k a s'
    | (s', Raise e) => (s', Raise e)
    | (s', Hang) => (s', Hang)
    end.

Definition raise {S A} (e : exn) : PyM S A := fun s => (s, Raise e).
Definition get {S} : PyM S S := fun s => (s, Ok s).
Definition put {S} (s : S) : PyM S unit := fun _ => (s, Ok tt).
Definition modify {S} (f : S -> S) : PyM S unit := fun s => (f s, Ok tt).
Definition lift_res {S A} (r : res A) : PyM S A := fun s => (s, r).

(** [try: m except E: h], where [catches] decides membership in [E]. *)
Definition try_except {S A} (m : PyM S A) (catches : exn -> bool) (h : PyM S A)
  : PyM S A :=
  fun s =>
    match m s with
    | (s', Raise e) => if catches e then h s' else (s', Raise e)
    | r => r
    end.

(** Run a computation on one component [T] of a larger state [S]. *)
Definition focus {S T A} (proj : S -> T) (upd : T -> S -> S) (m : PyM T A)
  : PyM S A :=
  fun s => let '(t', r) := m (proj s) in (upd t' s, r).

Notation "x <- m ;; k" := (bind m (fun x => k))
  (at level 100, m at next level, right associativity) : fow_scope.

(** stdpp's monad classes, so that its [m ;; k] sequencing is [bind]. *)
#[export] Instance pym_ret {S} : MRet (PyM S) := fun A a => ret a.
#[export] Instance pym_bind {S} : MBind (PyM S) := fun A B k m => bind m k.

Open Scope fow_scope.

(** ** Process-wide standard output

    Everything the code writes to [sys.stdout], with [print] lines kept
    structured instead of formatted. *)

Inductive out_item : Type :=
| OutText (s : list Z)        (** [sys.stdout.write(s)] *)
| OutSaw (magic : list Z)     (** [print("Saw '{}' in the logs".format(magic))] *)
| OutSignaling (pid : Z)      (** [print(f"signaling {pid} with TERM")] *)
| OutSignaled                 (** [print("signaled, blocking on exit")] *)
| OutGoodbye.                 (** [print("exited, goodbye")] *)

(** [fmap] on outcomes. *)
Definition res_map {A B} (f : A -> B) (r : res A) : res B :=
  match r with
  | Ok a => Ok (f a)
  | Raise e => Raise e
  | Hang => Hang
  end.

(** ** Monad laws and run lemmas shared by every component *)

Create HintDb fow discriminated.
Create Rewrite HintDb fow_rw.

Lemma bind_Ok {S A B} (m : PyM S A) (k : A -> PyM S B) s s' a :
  m s = (s', Ok a) -> bind m k s = k a s'.
Proof. unfold bind. by intros ->. Qed.

Lemma bind_assoc {S A B C} (m : PyM S A) (k : A -> PyM S B) (h : B -> PyM S C) s :
  bind (bind m k) h s = bind m (fun a => bind (k a) h) s.
Proof. unfold bind. destruct (m s) as [s' [a| |]]; reflexivity. Qed.

Lemma bind_ret_l {S A B} (a : A) (k : A -> PyM S B) s : bind (ret a) k s = k a s.
Proof. reflexivity. Qed.

#[export] Hint Rewrite @bind_assoc @bind_ret_l : fow_rw.

(** Unfold the monad's combinators on a concrete program. *)
Ltac py_unfold :=
  unfold mbind, mret, pym_bind, pym_ret, bind, ret, raise, get, put, modify, lift_res, try_except, focus in *.

(** Arithmetic over Z with divisions and remainders by constants. *)
Ltac zarith := Z.div_mod_to_equations; lia.

(** Split every [if] and [match] of the goal, with equations. *)
Ltac split_cases := repeat (case_match; simplify_eq/=).

Lemma res_map_compose {A B C} (f : A -> B) (g : B -> C) r :
  res_map g (res_map f r) = res_map (fun a => g (f a)) r.
Proof. by destruct r. Qed.

Lemma res_map_Ok_inv {A B} (f : A -> B) r b :
  res_map f r = Ok b -> exists a, r = Ok a /\ b = f a.
Proof. destruct r; simpl; intros; simplify_eq; eauto. Qed.

(** ** Strong induction on the length of a list *)

Lemma list_length_ind {A} (P : list A -> Prop) :
  (forall l, (forall l', length l' < length l -> P l') -> P l) -> forall l, P l.
Proof.
  intros H l. remember (length l) as n eqn:En. revert l En.
  induction n as [n IHn] using lt_wf_ind. intros l ->.
  apply H. intros l' Hl'. by apply (IHn (length l')).
Qed.
