(* ===== verification/Utf8.v ===== *)
(** * Strict UTF-8 decoding, as [bytes.decode("utf8")] does it

    [_MagicTextProtocol.out_received] and [err_received] decode every chunk
    of child output with [data.decode("utf8")] (util.py:46, 47, 61). Python's
    codec is strict. A byte sequence that is not well-formed UTF-8 (Unicode
    Table 3-7) raises [UnicodeDecodeError], whose [start] is the offset of
    the first byte of the bad sequence. A truncated sequence at the end of
    the chunk raises it too.

    Bytes and code points are [Z]. [next_char] reads one well-formed
    sequence, as one iteration of CPython's decoding loop does.
    [decode_loop] is the loop; its fuel is the length of the input, which is
    enough because each iteration consumes at least one byte
    ([decode_at_total], [decode_not_Hang]). [encode_cp] is the encoder,
    used to build a chunk that ends inside a character and to show that
    decoding it raises ([decode_split_char]). *)

From S2P Require Import Prelude.
From stdpp Require Import base list.
From Stdlib Require Import ZArith Lia.

Module Utf8.
Local Open Scope Z_scope.

Definition in_range (lo hi b : Z) : bool := (lo <=? b) && (b <=? hi).
Definition is_cont (b : Z) : bool := in_range 0x80 0xBF b.

(** The second byte of a three-byte sequence excludes overlong forms (after
    [E0]) and surrogates (after [ED]). *)
Definition second3_ok (b0 b1 : Z) : bool :=
  if b0 =? 0xE0 then in_range 0xA0 0xBF b1
  else if b0 =? 0xED then in_range 0x80 0x9F b1
  else is_cont b1.

(** The second byte of a four-byte sequence excludes overlong forms (after
    [F0]) and code points above U+10FFFF (after [F4]). *)
Definition second4_ok (b0 b1 : Z) : bool :=
  if b0 =? 0xF0 then in_range 0x90 0xBF b1
  else if b0 =? 0xF4 then in_range 0x80 0x8F b1
  else is_cont b1.

Definition cp2 (b0 b1 : Z) : Z := (b0 - 0xC0) * 64 + (b1 - 0x80).
Definition cp3 (b0 b1 b2 : Z) : Z :=
  (b0 - 0xE0) * 4096 + (b1 - 0x80) * 64 + (b2 - 0x80).
Definition cp4 (b0 b1 b2 b3 : Z) : Z :=
  (b0 - 0xF0) * 262144 + (b1 - 0x80) * 4096 + (b2 - 0x80) * 64 + (b3 - 0x80).

(** One iteration of the decoder: the code point of the sequence at the head
    of [bs] and the number of bytes it takes, or [None] when the head is not
    a well-formed sequence. *)
Definition next_char (bs : list Z) : option (Z * nat) :=
  match bs with
  | [] => None
  | b0 :: r0 =>
      if in_range 0 0x7F b0 then Some (b0, 1%nat)
      else if in_range 0xC2 0xDF b0 then
        match r0 with
        | b1 :: _ => if is_cont b1 then Some (cp2 b0 b1, 2%nat) else None
        | [] => None
        end
      else if in_range 0xE0 0xEF b0 then
        match r0 with
        | b1 :: b2 :: _ =>
            if second3_ok b0 b1 && is_cont b2 then Some (cp3 b0 b1 b2, 3%nat)
            else None
        | _ => None
        end
      else if in_range 0xF0 0xF4 b0 then
        match r0 with
        | b1 :: b2 :: b3 :: _ =>
            if second4_ok b0 b1 && is_cont b2 && is_cont b3
            then Some (cp4 b0 b1 b2 b3, 4%nat) else None
        | _ => None
        end
      else None
  end.

(** The decoding loop, from byte offset [pos]. *)
Fixpoint decode_loop (fuel : nat) (pos : nat) (bs : list Z) : res (list Z) :=
  match bs with
  | [] => Ok []
  | _ :: _ =>
      match fuel with
      | O => Hang
      | S fuel' =>
          match next_char bs with
          | None => Raise (UnicodeDecodeError pos)
          | Some (c, k) => res_map (cons c) (decode_loop fuel' (pos + k) (drop k bs))
          end
      end
  end.

(** [data.decode("utf8")]. *)
Definition decode (bs : list Z) : res (list Z) := decode_loop (length bs) 0 bs.

(** Unicode scalar values: the code points a [str] built by decoding holds. *)
Definition is_scalar (c : Z) : bool :=
  in_range 0 0x10FFFF c && negb (in_range 0xD800 0xDFFF c).

Definition encode_cp (c : Z) : list Z :=
  if c <? 0x80 then [c]
  else if c <? 0x800 then [0xC0 + c / 64; 0x80 + c mod 64]
  else if c <? 0x10000 then
    [0xE0 + c / 4096; 0x80 + (c / 64) mod 64; 0x80 + c mod 64]
  else
    [0xF0 + c / 262144; 0x80 + (c / 4096) mod 64; 0x80 + (c / 64) mod 64;
     0x80 + c mod 64].

(** [s.encode("utf8")]. *)
Definition encode (cs : list Z) : list Z := concat (map encode_cp cs).

(** The loop started at offset [pos] with as much fuel as there are bytes. *)
Definition decode_at (pos : nat) (bs : list Z) : res (list Z) :=
  decode_loop (length bs) pos bs.


(** ** One decoding step *)

(** Turn the boolean range tests of the decoder into arithmetic facts. *)
Ltac range_facts :=
  repeat match goal with
  | H : (_ && _)%bool = true |- _ => apply andb_true_iff in H as [? ?]
  | H : negb _ = true |- _ => apply negb_true_iff in H
  | H : (_ <=? _) = true |- _ => apply Z.leb_le in H
  | H : (_ <=? _) = false |- _ => apply Z.leb_gt in H
  | H : (_ =? _) = true |- _ => apply Z.eqb_eq in H
  | H : (_ =? _) = false |- _ => apply Z.eqb_neq in H
  | H : (_ <? _) = true |- _ => apply Z.ltb_lt in H
  | H : (_ <? _) = false |- _ => apply Z.ltb_ge in H
  | H : in_range _ _ _ = _ |- _ => unfold in_range in H
  | H : is_cont _ = _ |- _ => unfold is_cont in H
  | H : second3_ok _ _ = _ |- _ => unfold second3_ok in H
  | H : second4_ok _ _ = _ |- _ => unfold second4_ok in H
  | H : (_ && _)%bool = false |- _ => apply andb_false_iff in H as [H|H]
  end.

Lemma encode_cp_cases c :
  (c < 0x80 /\ encode_cp c = [c]) \/
  (0x80 <= c < 0x800 /\ encode_cp c = [0xC0 + c / 64; 0x80 + c mod 64]) \/
  (0x800 <= c < 0x10000 /\
     encode_cp c = [0xE0 + c / 4096; 0x80 + (c / 64) mod 64; 0x80 + c mod 64]) \/
  (0x10000 <= c /\
     encode_cp c = [0xF0 + c / 262144; 0x80 + (c / 4096) mod 64;
                    0x80 + (c / 64) mod 64; 0x80 + c mod 64]).
Proof.
  unfold encode_cp.
  destruct (Z.ltb_spec c 0x80); [by left|].
  destruct (Z.ltb_spec c 0x800); [by right; left|].
  destruct (Z.ltb_spec c 0x10000); [by do 2 right; left|by do 3 right].
Qed.

Lemma is_scalar_spec c :
  is_scalar c = true <-> 0 <= c <= 0x10FFFF /\ (c < 0xD800 \/ 0xDFFF < c).
Proof.
  unfold is_scalar, in_range.
  rewrite ?andb_true_iff, ?negb_true_iff, ?andb_false_iff, ?Z.leb_le, ?Z.leb_gt.
  lia.
Qed.

(** Solve [encode_cp c = bytes] by the branch of [encode_cp] that [c] takes. *)
Ltac encode_cp_solve :=
  match goal with
  | |- encode_cp ?c = _ =>
      destruct (encode_cp_cases c) as [[? ->]|[[? ->]|[[? ->]|[? ->]]]];
      try (exfalso; zarith); repeat f_equal; zarith
  end.

Lemma encode_cp1 b0 : 0 <= b0 <= 0x7F -> encode_cp b0 = [b0].
Proof. intros. encode_cp_solve. Qed.

Lemma encode_cp2 b0 b1 :
  0xC2 <= b0 <= 0xDF -> 0x80 <= b1 <= 0xBF -> encode_cp (cp2 b0 b1) = [b0; b1].
Proof. unfold cp2. intros. encode_cp_solve. Qed.

Lemma encode_cp3 b0 b1 b2 :
  0xE0 <= b0 <= 0xEF -> 0x80 <= b1 <= 0xBF -> 0x80 <= b2 <= 0xBF ->
  (b0 = 0xE0 -> 0xA0 <= b1) ->
  encode_cp (cp3 b0 b1 b2) = [b0; b1; b2].
Proof. unfold cp3. intros. encode_cp_solve. Qed.

Lemma encode_cp4 b0 b1 b2 b3 :
  0xF0 <= b0 <= 0xF4 -> 0x80 <= b1 <= 0xBF -> 0x80 <= b2 <= 0xBF ->
  0x80 <= b3 <= 0xBF -> (b0 = 0xF0 -> 0x90 <= b1) -> (b0 = 0xF4 -> b1 <= 0x8F) ->
  encode_cp (cp4 b0 b1 b2 b3) = [b0; b1; b2; b3].
Proof. unfold cp4. intros. encode_cp_solve. Qed.

(** A decoded character is a scalar value, written in its one canonical
    encoding. *)
Lemma next_char_spec bs c k :
  next_char bs = Some (c, k) ->
  (1 <= k <= 4)%nat /\ (k <= length bs)%nat /\ take k bs = encode_cp c /\
  is_scalar c = true.
Proof.
  unfold next_char. intros H.
  repeat (case_match; simplify_eq/=; range_facts);
  (split; [lia|split; [lia|split]]);
  rewrite ?take_0, ?is_scalar_spec;
  first [ rewrite encode_cp2 by lia | rewrite encode_cp3 by lia
        | rewrite encode_cp4 by lia | rewrite encode_cp1 by lia | idtac ];
  unfold cp2, cp3, cp4; try done; zarith.
Qed.

Lemma next_char_app a b ck :
  next_char a = Some ck -> next_char (a ++ b) = Some ck.
Proof.
  unfold next_char. destruct a as [|b0 [|b1 [|b2 [|b3 r]]]]; simpl;
  repeat case_match; congruence.
Qed.


(** The encoding of a scalar value is read back by one step. *)
Lemma next_char_encode c rest :
  is_scalar c = true -> next_char (encode_cp c ++ rest) = Some (c, length (encode_cp c)).
Proof.
  intros Hs%is_scalar_spec.
  destruct (encode_cp_cases c) as [[? ->]|[[? ->]|[[? ->]|[? ->]]]]; simpl;
  unfold in_range, is_cont, second3_ok, second4_ok;
  repeat (case_match; range_facts; simplify_eq/=; try (exfalso; zarith));
  repeat f_equal; unfold cp2, cp3, cp4; zarith.
Qed.

(** A proper prefix of the encoding of one character is not well-formed:
    a character split between two chunks does not decode. *)
Lemma next_char_split c n :
  is_scalar c = true -> (0 < n < length (encode_cp c))%nat ->
  next_char (take n (encode_cp c)) = None.
Proof.
  intros Hs%is_scalar_spec Hn.
  destruct (encode_cp_cases c) as [[? Hc]|[[? Hc]|[[? Hc]|[? Hc]]]]; rewrite Hc in *;
  simpl in Hn; destruct n as [|[|[|[|n]]]]; try lia; simpl;
  unfold in_range, is_cont, second3_ok, second4_ok;
  repeat (case_match; range_facts; simplify_eq/=; try (exfalso; zarith)); done.
Qed.

(** ** The decoding loop *)

Lemma decode_loop_fuel f1 f2 pos bs :
  (length bs <= f1)%nat -> (length bs <= f2)%nat ->
  decode_loop f1 pos bs = decode_loop f2 pos bs.
Proof.
  revert f2 pos bs. induction f1 as [|f1 IH]; intros [|f2] pos [|b r] H1 H2;
    cbn [decode_loop length] in *; try lia; try done.
  destruct (next_char (b :: r)) as [[c k]|] eqn:E; [|done].
  apply next_char_spec in E as (? & ? & _).
  f_equal. apply IH; rewrite length_drop; simpl in *; lia.
Qed.

Lemma decode_at_nil pos : decode_at pos [] = Ok [].
Proof. reflexivity. Qed.

Lemma decode_at_step pos bs c k :
  next_char bs = Some (c, k) ->
  decode_at pos bs = res_map (cons c) (decode_at (pos + k) (drop k bs)).
Proof.
  intros E. pose proof (next_char_spec _ _ _ E) as (? & ? & _).
  unfold decode_at. destruct bs as [|b r]; [done|]. cbn [decode_loop length]. rewrite E.
  f_equal. apply decode_loop_fuel; rewrite length_drop; simpl in *; lia.
Qed.

Lemma decode_at_error pos bs :
  bs <> [] -> next_char bs = None -> decode_at pos bs = Raise (UnicodeDecodeError pos).
Proof. intros ? E. unfold decode_at. destruct bs; [done|]. cbn [decode_loop length]. by rewrite E. Qed.

#[export] Hint Rewrite decode_at_nil : fow_rw.

(** Strong induction on [bs] along the decoding loop. *)
Ltac decode_induction bs :=
  induction bs as [bs IH] using list_length_ind;
  destruct bs as [|b0 r0] eqn:Ebs; [|destruct (next_char (b0 :: r0)) as [[c k]|] eqn:En].


(** ** Theorems *)

(** Decoding terminates: the fuel [length bs] always suffices, and the loop
    returns the decoded text or raises [UnicodeDecodeError] at an offset
    inside the input. *)
Lemma decode_at_total pos bs :
  (exists cs, decode_at pos bs = Ok cs) \/
  (exists q, decode_at pos bs = Raise (UnicodeDecodeError q) /\
             (pos <= q < pos + length bs)%nat).
Proof.
  revert pos. decode_induction bs; intros pos; [by left; eexists|..].
  - pose proof (next_char_spec _ _ _ En) as (? & ? & _).
    rewrite (decode_at_step _ _ _ _ En).
    destruct (IH (drop k (b0 :: r0))) with (pos := (pos + k)%nat)
      as [[cs ->]|[q [-> ?]]]; [rewrite length_drop; simpl in *; lia| |].
    + left. by eexists.
    + right. exists q. rewrite length_drop in *. split; [done|simpl in *; lia].
  - right. exists pos. rewrite decode_at_error; [|done|done]. simpl; split; [done|lia].
Qed.

(** Decoding is a homomorphism on a well-formed prefix: decoding [a ++ b]
    decodes [a], then [b] from the offset where [a] ends. *)
Lemma decode_at_app pos a b x :
  decode_at pos a = Ok x ->
  decode_at pos (a ++ b) = res_map (app x) (decode_at (pos + length a) b).
Proof.
  revert pos x. decode_induction a; intros pos x Hx.
  - rewrite decode_at_nil in Hx. simplify_eq. rewrite Nat.add_0_r.
    simpl. by destruct (decode_at pos b).
  - pose proof (next_char_spec _ _ _ En) as (? & ? & _).
    rewrite (decode_at_step _ _ _ _ En) in Hx.
    apply res_map_Ok_inv in Hx as [x' [Hx' ->]].
    rewrite (decode_at_step _ _ _ _ (next_char_app _ b _ En)), drop_app_le by done.
    rewrite (IH (drop k (b0 :: r0))) with (x := x');
      [|rewrite length_drop; simpl in *; lia|done].
    rewrite res_map_compose, length_drop. simpl in *.
    by replace (pos + k + (S (length r0) - k))%nat with (pos + S (length r0))%nat by lia.
  - by rewrite decode_at_error in Hx.
Qed.

(** Round trip: text encoded as UTF-8 decodes back to itself. *)
Lemma decode_encode pos cs :
  Forall (fun c => is_scalar c = true) cs -> decode_at pos (encode cs) = Ok cs.
Proof.
  intros Hcs. revert pos. induction Hcs as [|c cs Hc Hcs IH]; intros pos; [done|].
  change (encode (c :: cs)) with (encode_cp c ++ encode cs).
  rewrite (decode_at_step _ _ _ _ (next_char_encode c _ Hc)), drop_app_length.
  by rewrite IH.
Qed.

(** Round trip: what decodes is the canonical encoding of the decoded text,
    and that text consists of scalar values. *)
Lemma encode_decode pos bs cs :
  decode_at pos bs = Ok cs -> encode cs = bs /\ Forall (fun c => is_scalar c = true) cs.
Proof.
  revert pos cs. decode_induction bs; intros pos cs Hd.
  - rewrite decode_at_nil in Hd. by simplify_eq.
  - pose proof (next_char_spec _ _ _ En) as (? & ? & Htake & Hs).
    rewrite (decode_at_step _ _ _ _ En) in Hd.
    apply res_map_Ok_inv in Hd as [cs' [Hd ->]].
    destruct (IH (drop k (b0 :: r0))) with (pos := (pos + k)%nat) (cs := cs')
      as [Henc Hall]; [rewrite length_drop; simpl in *; lia|done|].
    split; [|by constructor].
    change (encode (c :: cs')) with (encode_cp c ++ encode cs').
    by rewrite Henc, <- Htake, take_drop.
  - by rewrite decode_at_error in Hd.
Qed.

(** A chunk of well-formed text that ends inside a multi-byte character
    raises [UnicodeDecodeError] at the offset where that character starts. *)
Lemma decode_split_char pre c n :
  Forall (fun c => is_scalar c = true) pre -> is_scalar c = true ->
  (0 < n < length (encode_cp c))%nat ->
  decode (encode pre ++ take n (encode_cp c)) =
    Raise (UnicodeDecodeError (length (encode pre))).
Proof.
  intros Hpre Hc Hn. unfold decode. fold (decode_at 0 (encode pre ++ take n (encode_cp c))).
  rewrite (decode_at_app _ _ _ _ (decode_encode 0 _ Hpre)).
  rewrite decode_at_error; [done| |by apply next_char_split].
  destruct (encode_cp c); simpl in *; [lia|]. destruct n; [lia|done].
Qed.


Lemma decode_not_Hang bs : decode bs <> Hang.
Proof.
  unfold decode. fold (decode_at 0 bs).
  by destruct (decode_at_total 0 bs) as [[cs ->]|[q [-> _]]].
Qed.

(** Whether a chunk decodes, and to what, does not depend on the offset the
    loop starts from. *)
Lemma decode_at_pos pos pos' bs cs :
  decode_at pos bs = Ok cs -> decode_at pos' bs = Ok cs.
Proof.
  intros H. destruct (encode_decode _ _ _ H) as [<- Hs]. by apply decode_encode.
Qed.

Lemma decode_app_Ok a b x y :
  decode a = Ok x -> decode b = Ok y -> decode (a ++ b) = Ok (x ++ y).
Proof.
  intros Ha Hb. unfold decode. fold (decode_at 0 a) (decode_at 0 b) (decode_at 0 (a ++ b)) in *.
  rewrite (decode_at_app _ _ _ _ Ha), (decode_at_pos _ _ _ _ Hb). done.
Qed.


Lemma decode_concat chunks ts :
  Forall2 (fun c t => decode c = Ok t) chunks ts -> decode (concat chunks) = Ok (concat ts).
Proof. induction 1; [done|]. simpl. by apply decode_app_Ok. Qed.

(** ** Properties of [bytes.decode("utf8")] *)

(** ** Witnesses *)

End Utf8.
