(* ===== verification/PyStr.v ===== *)
(** * The [str] operations the protocol relies on

    [_MagicTextProtocol] keeps stdout in an [io.StringIO] (util.py:24) that
    it appends to with [write] (util.py:47) and reads whole with [getvalue]
    (util.py:48). It tests the marker with Python's substring operator
    [self._magic_text in self._output.getvalue()] (util.py:48). A [str] is
    its list of code points. [contains] is [str.__contains__]: it tries each
    position of the haystack in turn. [contains_spec] shows that it decides
    "the needle is a factor of the haystack". *)

From S2P Require Import Prelude.
From stdpp Require Import base list strings.
From Stdlib Require Import ZArith Lia.

Module PyStr.
Local Open Scope Z_scope.

Fixpoint prefixb (p s : list Z) : bool :=
  match p, s with
  | [], _ => true
  | x :: p', y :: s' => (x =? y) && prefixb p' s'
  | _ :: _, [] => false
  end.

(** [needle in hay]. *)
Fixpoint contains (needle hay : list Z) : bool :=
  prefixb needle hay ||
  match hay with
  | [] => false
  | _ :: hay' => contains needle hay'
  end.

(** [io.StringIO]: the text written so far. No seek is ever made, so every
    [write] appends. *)
Record stringio := StringIO { getvalue : list Z }.

Definition stringio_new : stringio := StringIO [].

Definition stringio_write (b : stringio) (s : list Z) : stringio :=
  StringIO (getvalue b ++ s).

(** A Python literal of the source, as its code points (the literals of
    this program are ASCII, and so are also their UTF-8 bytes). *)
Fixpoint lit (s : string) : list Z :=
  match s with
  | EmptyString => []
  | String a s' => Z.of_nat (Ascii.nat_of_ascii a) :: lit s'
  end.

(** ** Lemmas *)

Lemma prefixb_spec p s : prefixb p s = true <-> exists t, s = p ++ t.
Proof.
  revert s. induction p as [|x p IH]; intros [|y s]; simpl.
  - split; [by exists []|done].
  - split; [by exists (y :: s)|done].
  - split; [done|by intros [t ?]].
  - rewrite andb_true_iff, Z.eqb_eq, IH. split.
    + intros [-> [t ->]]. by exists t.
    + intros [t Ht]. simplify_eq. eauto.
Qed.

(** [contains] decides the factor relation. *)
Lemma contains_spec needle hay :
  contains needle hay = true <-> exists pre post, hay = pre ++ needle ++ post.
Proof.
  induction hay as [|y hay IH]; simpl; rewrite orb_true_iff, prefixb_spec.
  - split.
    + intros [[t Ht]|]; [|done]. exists [], t. done.
    + intros [[|? ?] [post Hp]]; [left; by exists post|done].
  - rewrite IH. split.
    + intros [[t Ht]|[pre [post ->]]].
      * by exists [], t.
      * by exists (y :: pre), post.
    + intros [[|z pre] [post Hp]]; simpl in Hp.
      * left. by exists post.
      * right. simplify_eq. eauto.
Qed.

(** Once the needle occurs, it occurs in every extension of the haystack. *)
Lemma contains_app needle hay t :
  contains needle hay = true -> contains needle (hay ++ t) = true.
Proof.
  rewrite !contains_spec. intros [pre [post ->]].
  exists pre, (post ++ t). by rewrite <- !app_assoc.
Qed.

Lemma contains_nil hay : contains [] hay = true.
Proof. apply contains_spec. by exists [], hay. Qed.

#[export] Hint Resolve contains_app contains_nil : fow.

End PyStr.
