(* ===== verification/Deferred.v ===== *)
(** * Twisted's [Deferred], as far as fow uses it

    The protocol creates two Deferreds (util.py:21-22) and fires them with
    [callback] and [errback] (util.py:30, 31, 51). [run_service] chains
    [addCallback(lambda ignored: process)] onto [magic_seen] and returns the
    same object (util.py:105). The protocol then drops its reference
    ([self.magic_seen = None]), but the caller's reference stays valid. So
    Deferreds live in a heap of cells addressed by [loc], and the protocol
    and the caller hold locations.

    [Deferred] is a library class, not repository code. The model keeps the
    parts of its contract that fow relies on: [callback] and [errback] raise
    [AlreadyCalledError] on a fired Deferred. [addCallback] callbacks run in
    order on a success and are skipped on a failure. [addCallback] on a fired
    Deferred runs at once. [pytest_twisted.blockon] and [await] add a
    callback for both outcomes that returns [None]; [drop_result] is its
    effect once the Deferred has fired. *)

From S2P Require Import Prelude.
From stdpp Require Import base list gmap strings.
From Stdlib Require Import ZArith Lia.

Module Deferred.

(** The Python values that flow through this program's Deferreds: [None]
    ([exited.callback(None)]), the protocol ([magic_seen.callback(self)]) and
    the process transport ([lambda ignored: process]). *)
Inductive pyval : Type := PyNone | PyProtocol | PyTransport.

#[export] Instance pyval_eq_dec : EqDecision pyval.
Proof. solve_decision. Defined.

Inductive outcome : Type :=
| Success (v : pyval)
| Failure (e : exn).

#[export] Instance outcome_eq_dec : EqDecision outcome.
Proof. solve_decision. Defined.

(** A Deferred is pending, with the callbacks added so far, or fired, with
    its current result. *)
Inductive deferred : Type :=
| Pending (callbacks : list (pyval -> pyval))
| Fired (result : outcome).

Definition loc := nat.

Record heap := Heap { cells : gmap loc deferred; next_loc : loc }.

Definition heap_empty : heap := Heap ∅ 0.

(** [Deferred()]: a fresh pending cell. *)
Definition new : PyM heap loc :=
  fun h => (Heap (<[next_loc h := Pending []]> (cells h)) (S (next_loc h)),
            Ok (next_loc h)).

(** The callback chain applied to a result: callbacks on success, and the
    failure passed through unchanged, since [addCallback] adds no errback. *)
Definition run_chain (cbs : list (pyval -> pyval)) (o : outcome) : outcome :=
  match o with
  | Success v => Success (fold_left (fun v f => f v) cbs v)
  | Failure e => Failure e
  end.

Definition set_cell (l : loc) (d : deferred) (h : heap) : heap :=
  Heap (<[l := d]> (cells h)) (next_loc h).

(** [Deferred._startRunCallbacks]: [AlreadyCalledError] when fired already.
    Python has no dangling references: [no_such_deferred] is raised only on a
    location the program never allocated, which [alloc_ok] excludes. *)
Definition no_such_deferred : exn := Exception "no such Deferred"%string.

Definition fire (l : loc) (o : outcome) : PyM heap unit :=
  fun h =>
    match cells h !! l with
    | Some (Pending cbs) => (set_cell l (Fired (run_chain cbs o)) h, Ok tt)
    | Some (Fired _) => (h, Raise AlreadyCalledError)
    | None => (h, Raise no_such_deferred)
    end.

(** [d.callback(v)] and [d.errback(e)]. *)
Definition callback (l : loc) (v : pyval) : PyM heap unit := fire l (Success v).
Definition errback (l : loc) (e : exn) : PyM heap unit := fire l (Failure e).

(** [d.addCallback(f)], which returns [d] itself. *)
Definition addCallback (l : loc) (f : pyval -> pyval) : PyM heap loc :=
  fun h =>
    match cells h !! l with
    | Some (Pending cbs) => (set_cell l (Pending (cbs ++ [f])) h, Ok l)
    | Some (Fired o) => (set_cell l (Fired (run_chain [f] o)) h, Ok l)
    | None => (h, Raise no_such_deferred)
    end.

(** The callback [cb] that [pytest_twisted.blockon(d)] adds with
    [d.addCallbacks(cb, cb)], and the one an [await d] in Twisted's inline
    callbacks adds with [d.addBoth]: it takes the result, success or
    failure, hands it to the waiting code and returns [None]. It is the
    last callback of [d], so once [d] has fired and it has run, [d] holds
    [None]. [drop_result] is that effect on the cell. *)
Definition drop_result (l : loc) : PyM heap unit :=
  fun h =>
    match cells h !! l with
    | Some (Fired _) => (set_cell l (Fired (Success PyNone)) h, Ok tt)
    | _ => (h, Ok tt)
    end.

(** The result of a fired Deferred. *)
Definition result_of (h : heap) (l : loc) : option outcome :=
  match cells h !! l with
  | Some (Fired o) => Some o
  | _ => None
  end.

Definition is_pending (h : heap) (l : loc) : bool :=
  match cells h !! l with
  | Some (Pending _) => true
  | _ => false
  end.

(** Every allocated location is below [next_loc] and every location below
    it is allocated. *)
Definition alloc_ok (h : heap) : Prop :=
  forall l, is_Some (cells h !! l) <-> (l < next_loc h)%nat.


(** [heap_le h h'] holds when [h'] extends [h]: every allocated cell stays
    allocated and a fired cell keeps its result. Firing a Deferred extends
    the heap whatever the outcome, since a fired cell is never written
    again. *)
Definition heap_le (h h' : heap) : Prop :=
  (forall l, is_Some (cells h !! l) -> is_Some (cells h' !! l)) /\
  (forall l o, cells h !! l = Some (Fired o) -> cells h' !! l = Some (Fired o)).

(** ** Run equations *)

Lemma addCallback_Pending h l cbs f :
  cells h !! l = Some (Pending cbs) ->
  addCallback l f h = (set_cell l (Pending (cbs ++ [f])) h, Ok l).
Proof. unfold addCallback. by intros ->. Qed.

Lemma cells_set_cell_eq h l d : cells (set_cell l d h) !! l = Some d.
Proof. apply lookup_insert_eq. Qed.

Lemma cells_set_cell_ne h l l' d : l <> l' -> cells (set_cell l d h) !! l' = cells h !! l'.
Proof. intros. by apply lookup_insert_ne. Qed.

Lemma is_pending_Some h l : is_pending h l = true -> exists cbs, cells h !! l = Some (Pending cbs).
Proof. unfold is_pending. destruct (cells h !! l) as [[cbs|]|]; [eauto|done|done]. Qed.

Lemma result_of_set_cell_ne h l l' d : l <> l' -> result_of (set_cell l d h) l' = result_of h l'.
Proof. intros. unfold result_of. by rewrite cells_set_cell_ne. Qed.

Lemma is_pending_set_cell_ne h l l' d : l <> l' -> is_pending (set_cell l d h) l' = is_pending h l'.
Proof. intros. unfold is_pending. by rewrite cells_set_cell_ne. Qed.

Lemma result_of_set_cell_eq h l o : result_of (set_cell l (Fired o) h) l = Some o.
Proof. unfold result_of. by rewrite cells_set_cell_eq. Qed.

Lemma is_pending_set_cell_eq h l o : is_pending (set_cell l (Fired o) h) l = false.
Proof. unfold is_pending. by rewrite cells_set_cell_eq. Qed.

Lemma is_Some_set_cell h l l' d :
  is_Some (cells h !! l') -> is_Some (cells (set_cell l d h) !! l').
Proof.
  intros Hs. destruct (decide (l = l')) as [->|]; [rewrite cells_set_cell_eq; by eexists|].
  by rewrite cells_set_cell_ne.
Qed.

#[export] Hint Rewrite cells_set_cell_eq result_of_set_cell_eq is_pending_set_cell_eq : fow_rw.
#[export] Hint Resolve is_Some_set_cell : fow.
#[export] Hint Resolve is_pending_Some : fow.

(** ** The contract *)

(** Allocation is well-formed after [new], and stays so through [fire] and
    [addCallback]. *)
Lemma alloc_ok_set_cell h l d :
  alloc_ok h -> is_Some (cells h !! l) -> alloc_ok (set_cell l d h).
Proof.
  intros Hok Hl l'. unfold set_cell; simpl. rewrite <- (Hok l').
  destruct (decide (l = l')) as [->|]; [by rewrite lookup_insert_eq|].
  by rewrite lookup_insert_ne.
Qed.

Lemma alloc_ok_new h : alloc_ok h -> alloc_ok (fst (new h)).
Proof.
  intros Hok l. simpl. destruct (decide (next_loc h = l)) as [<-|].
  - rewrite lookup_insert_eq. split; [lia|done].
  - rewrite lookup_insert_ne by done. specialize (Hok l). split; intros; [apply Hok in H; lia|apply Hok; lia].
Qed.

Lemma new_fresh h :
  alloc_ok h -> cells h !! next_loc h = None /\ new h = (fst (new h), Ok (next_loc h)) /\
  cells (fst (new h)) !! next_loc h = Some (Pending []).
Proof.
  intros Hok. split; [|split; [done|simpl; apply lookup_insert_eq]].
  destruct (cells h !! next_loc h) eqn:E; [|done].
  assert (is_Some (cells h !! next_loc h)) as Hs by (rewrite E; by eexists).
  apply Hok in Hs. lia.
Qed.

Lemma alloc_ok_fire h l o :
  alloc_ok h -> alloc_ok (fst (fire l o h)).
Proof.
  unfold fire. intros Hok. repeat case_match; simpl; try done.
  apply alloc_ok_set_cell; [done|by eexists].
Qed.

Lemma alloc_ok_addCallback h l f :
  alloc_ok h -> alloc_ok (fst (addCallback l f h)).
Proof.
  unfold addCallback. intros Hok. repeat case_match; simpl; try done;
  apply alloc_ok_set_cell; try done; by eexists.
Qed.

#[export] Hint Resolve alloc_ok_new alloc_ok_fire alloc_ok_addCallback : fow.

(** ** Heap extension *)

#[export] Instance heap_le_preorder : PreOrder heap_le.
Proof.
  split; [by split|].
  intros h1 h2 h3 [Ha1 Hf1] [Ha2 Hf2]. split; eauto.
Qed.

Lemma heap_le_set_pending h l d :
  is_pending h l = true -> heap_le h (set_cell l d h).
Proof.
  intros [cbs Hl]%is_pending_Some. split.
  - intros l'. apply is_Some_set_cell.
  - intros l' o Hl'. rewrite cells_set_cell_ne; [done|]. intros ->. congruence.
Qed.

Lemma heap_le_fire h l o : heap_le h (fst (fire l o h)).
Proof.
  unfold fire. destruct (cells h !! l) as [[cbs|o']|] eqn:E; simpl; try done.
  apply heap_le_set_pending. unfold is_pending. by rewrite E.
Qed.

Lemma heap_le_result h h' l o :
  heap_le h h' -> result_of h l = Some o -> result_of h' l = Some o.
Proof.
  intros [_ Hf]. unfold result_of. destruct (cells h !! l) as [[]|] eqn:E; try done.
  intros [= ->]. by rewrite (Hf _ _ E).
Qed.

Lemma heap_le_not_pending h h' l :
  heap_le h h' -> is_Some (cells h !! l) -> is_pending h l = false -> is_pending h' l = false.
Proof.
  intros [_ Hf] [d Hd]. unfold is_pending. rewrite Hd. destruct d as [|o]; [done|].
  by rewrite (Hf _ _ Hd).
Qed.

#[export] Hint Resolve heap_le_fire heap_le_set_pending : fow.

(** A fired cell already holding [None] is left as it is by [cb]. *)
Lemma drop_result_id h l :
  cells h !! l = Some (Fired (Success PyNone)) -> drop_result l h = (h, Ok tt).
Proof.
  intros Hl. unfold drop_result, set_cell. rewrite Hl.
  rewrite insert_id by done. by destruct h.
Qed.

Lemma cells_drop_result_ne h l l' : l <> l' -> cells (fst (drop_result l h)) !! l' = cells h !! l'.
Proof.
  intros Hne. unfold drop_result. destruct (cells h !! l) as [[]|]; [done| |done].
  by apply cells_set_cell_ne.
Qed.

Lemma result_of_drop_result h l o :
  result_of h l = Some o -> result_of (fst (drop_result l h)) l = Some (Success PyNone).
Proof.
  unfold result_of, drop_result. destruct (cells h !! l) as [[]|]; try done.
  intros _. cbn [fst]. by rewrite cells_set_cell_eq.
Qed.

Lemma alloc_ok_empty : alloc_ok heap_empty.
Proof. intros l. simpl. rewrite lookup_empty. split; [by intros [? ?]|lia]. Qed.

(** ** Witnesses *)

End Deferred.
