(* ===== verification/Protocol.v ===== *)
(** * [_MagicTextProtocol]: the output demultiplexer (util.py:14-61)

    The protocol object's attributes are the record [proto]: [magic_seen]
    (a Deferred, or [None] once fired), [exited], [_magic_text], [_output]
    and [_print_logs]. A handler runs in [PyM pstate], whose state is the
    protocol, the heap of Deferreds and the process's [sys.stdout]. Each
    method of the class is one definition, statement by statement:
    [processEnded], [childDataReceived], [out_received] and [err_received].

    The theorems show that the marker fires [magic_seen] exactly once. It
    fires as soon as the accumulated stdout text contains the marker,
    wherever the chunk boundaries fall, provided every chunk decodes. Only
    file descriptor 1 can fire it. [processEnded] fails a pending
    [magic_seen] and then fires [exited]. A chunk that does not decode raises
    and changes nothing. *)

From S2P Require Import Prelude Utf8 PyStr Deferred.
From stdpp Require Import base list gmap strings.
From Stdlib Require Import ZArith Lia.

Module MagicTextProtocol.
Import Deferred PyStr.

Record proto := Proto {
  magic_seen : option loc;     (** [self.magic_seen] *)
  exited : loc;                (** [self.exited] *)
  magic_text : list Z;         (** [self._magic_text] *)
  output : stringio;           (** [self._output] *)
  print_logs : bool            (** [self._print_logs] *)
}.

Record pstate := PState {
  ps_proto : proto;
  ps_heap : heap;
  ps_stdout : list out_item
}.

Definition set_magic_seen (d : option loc) (p : proto) : proto :=
  Proto d (exited p) (magic_text p) (output p) (print_logs p).
Definition set_output (o : stringio) (p : proto) : proto :=
  Proto (magic_seen p) (exited p) (magic_text p) o (print_logs p).

Definition get_proto : PyM pstate proto := fun s => (s, Ok (ps_proto s)).
Definition put_proto (p : proto) : PyM pstate unit :=
  fun s => (PState p (ps_heap s) (ps_stdout s), Ok tt).
Definition on_heap {A} (m : PyM heap A) : PyM pstate A :=
  focus ps_heap (fun h s => PState (ps_proto s) h (ps_stdout s)) m.
(** [sys.stdout.write] and [print]. *)
Definition stdout_write (o : out_item) : PyM pstate unit :=
  modify (fun s => PState (ps_proto s) (ps_heap s) (ps_stdout s ++ [o])).
(** [data.decode("utf8")]. *)
Definition decode_utf8 (data : list Z) : PyM pstate (list Z) :=
  lift_res (Utf8.decode data).

(** [__init__(self, magic_text, print_logs=True)] (util.py:20-25). *)
Definition init (magic_text : list Z) (print_logs : bool) : PyM heap proto :=
  ms <- new ;;
  ex <- new ;;
  ret (Proto (Some ms) ex magic_text stringio_new print_logs).

(** The [reason] Twisted passes to [processEnded]; the code ignores it. *)
Inductive exit_reason : Type :=
| ProcessDone
| ProcessTerminated (exitCode : option Z) (signal : option Z).

Definition service_failed : exn := Exception "Service failed."%string.

(** [processEnded(self, reason)] (util.py:27-31). *)
Definition processEnded (reason : exit_reason) : PyM pstate unit :=
  p <- get_proto ;;
  (match magic_seen p with
   | Some d =>
       put_proto (set_magic_seen None p) ;;
       on_heap (errback d service_failed)
   | None => ret tt
   end) ;;
  p <- get_proto ;;
  on_heap (callback (exited p) PyNone).

(** [out_received(self, data)] (util.py:41-51). *)
Definition out_received (data : list Z) : PyM pstate unit :=
  p <- get_proto ;;
  (if print_logs p
   then s <- decode_utf8 data ;; stdout_write (OutText s)
   else ret tt) ;;
  s <- decode_utf8 data ;;
  p <- get_proto ;;
  put_proto (set_output (stringio_write (output p) s) p) ;;
  p <- get_proto ;;
  match magic_seen p with
  | Some d =>
      if contains (magic_text p) (getvalue (output p)) then
        stdout_write (OutSaw (magic_text p)) ;;
        put_proto (set_magic_seen None p) ;;
        on_heap (callback d PyProtocol)
      else ret tt
  | None => ret tt
  end.

(** [err_received(self, data)] (util.py:53-61). *)
Definition err_received (data : list Z) : PyM pstate unit :=
  s <- decode_utf8 data ;;
  stdout_write (OutText s).

(** Twisted's [ProcessProtocol.childDataReceived], reached for descriptors
    other than 1 and 2. It dispatches 1 and 2 to [outReceived] and
    [errReceived], which this class does not override and which do nothing,
    and ignores every other descriptor. So data on descriptor 3 is dropped. *)
Definition ProcessProtocol_childDataReceived (childFD : Z) (data : list Z)
  : PyM pstate unit :=
  ret tt.

(** [childDataReceived(self, childFD, data)] (util.py:33-39). *)
Definition childDataReceived (childFD : Z) (data : list Z) : PyM pstate unit :=
  if (childFD =? 1)%Z then out_received data
  else if (childFD =? 2)%Z then err_received data
  else ProcessProtocol_childDataReceived childFD data.

(** ** The protocol invariant *)

Definition is_saw (o : out_item) : bool :=
  match o with OutSaw _ => true | _ => false end.

(** How many times "Saw '...' in the logs" has been printed. *)
Definition count_saw (o : list out_item) : nat := length (filter is_saw o).

(** What was printed, without the "Saw" lines. *)
Definition texts (o : list out_item) : list out_item := filter (fun x => negb (is_saw x)) o.

(** ** What the reactor relies on from the handlers

    A property of the protocol's state that [childDataReceived] and
    [processEnded] both keep, whatever they return. The reactor's lemmas
    (Reactor.v, Section [Preserve]) are proved against this class; the
    instances below discharge it for the invariant, the heap's growth and
    the types of the strings. *)
Class HandlerInv (P : pstate -> Prop) : Prop := {
  handler_inv_data fd data ps : P ps -> P (fst (childDataReceived fd data ps));
  handler_inv_ended r ps : P ps -> P (fst (processEnded r ps))
}.

(** [cbs0] is the callback chain of [ms0] (set by [run_service]); a success
    result is [self] passed through it.
    [ms0] is the Deferred [magic_seen] held at construction: the object
    that [run_service] hands back to its caller. *)
Record inv (cbs0 : list (pyval -> pyval)) (ms0 : loc) (s : pstate) : Prop := {
  inv_alloc : alloc_ok (ps_heap s);
  inv_ne : ms0 <> exited (ps_proto s);
  inv_ms0 : is_Some (cells (ps_heap s) !! ms0);
  inv_exited : is_Some (cells (ps_heap s) !! exited (ps_proto s));
  inv_pending :
    (magic_seen (ps_proto s) = Some ms0 /\ is_pending (ps_heap s) ms0 = true /\
     (contains (magic_text (ps_proto s)) (getvalue (output (ps_proto s))) = false \/
      getvalue (output (ps_proto s)) = []) /\
     count_saw (ps_stdout s) = 0%nat) \/
    (magic_seen (ps_proto s) = None /\ is_pending (ps_heap s) ms0 = false);
  inv_success : forall v, result_of (ps_heap s) ms0 = Some (Success v) ->
    contains (magic_text (ps_proto s)) (getvalue (output (ps_proto s))) = true /\
    count_saw (ps_stdout s) = 1%nat;
  inv_failure : forall e, result_of (ps_heap s) ms0 = Some (Failure e) ->
    e = service_failed /\ count_saw (ps_stdout s) = 0%nat /\
    is_pending (ps_heap s) (exited (ps_proto s)) = false;
  inv_exited_fired : is_pending (ps_heap s) (exited (ps_proto s)) = false ->
    magic_seen (ps_proto s) = None;
  inv_chain : is_pending (ps_heap s) ms0 = true ->
    cells (ps_heap s) !! ms0 = Some (Pending cbs0);
  inv_success_value : forall v, result_of (ps_heap s) ms0 = Some (Success v) ->
    v = fold_left (fun v f => f v) cbs0 PyProtocol;
  inv_exited_chain : is_pending (ps_heap s) (exited (ps_proto s)) = true ->
    cells (ps_heap s) !! exited (ps_proto s) = Some (Pending []);
  inv_exited_none : forall o, result_of (ps_heap s) (exited (ps_proto s)) = Some o -> o = Success PyNone
}.

(** [exited] never fails. *)
Lemma inv_exited_ok cbs0 ms0 s :
  inv cbs0 ms0 s -> forall e, result_of (ps_heap s) (exited (ps_proto s)) <> Some (Failure e).
Proof. intros Hi e He. by pose proof (inv_exited_none _ _ _ Hi _ He). Qed.

(** The attributes of the protocol no handler assigns: [exited],
    [_magic_text] and [_print_logs]. *)
Definition proto_frame (p p' : proto) : Prop :=
  exited p' = exited p /\ magic_text p' = magic_text p /\ print_logs p' = print_logs p.

(** ** A protocol as [__init__] builds it, for the examples *)

Definition ex_init (magic : list Z) : pstate :=
  match init magic true heap_empty with
  | (h, Ok p) => PState p h []
  | (h, _) => PState (Proto None 0 magic stringio_new true) h []
  end.

(** The protocol after the marker has been seen on stdout. *)
Definition ex_ready (magic : list Z) : pstate := fst (childDataReceived 1 magic (ex_init magic)).


(** ** Run equations of the handlers *)

(** What [out_received] echoes to [sys.stdout] before appending. *)
Definition echo (p : proto) (t : list Z) : list out_item :=
  if print_logs p then [OutText t] else [].

(** Unfold a handler on a concrete state and compute. *)
Ltac handler_run :=
  unfold childDataReceived, out_received, err_received, processEnded,
    ProcessProtocol_childDataReceived, decode_utf8, get_proto, put_proto,
    on_heap, stdout_write, callback, errback, echo in *;
  py_unfold; simpl;
  repeat match goal with
  | H : Utf8.decode _ = _ |- _ => rewrite H; simpl
  | H : magic_seen _ = _ |- _ => rewrite H; simpl
  | H : print_logs _ = _ |- _ => rewrite H; simpl
  | H : cells _ !! _ = _ |- _ => rewrite H; simpl
  | H : contains _ _ = _ |- _ => rewrite H; simpl
  end.

Lemma out_received_error data e p h o :
  Utf8.decode data = Raise e ->
  out_received data (PState p h o) = (PState p h o, Raise e).
Proof. intros Hd. handler_run. by destruct (print_logs p). Qed.

Lemma out_received_fire data t p h o d cbs :
  Utf8.decode data = Ok t -> magic_seen p = Some d ->
  cells h !! d = Some (Pending cbs) ->
  contains (magic_text p) (getvalue (output p) ++ t) = true ->
  out_received data (PState p h o) =
    (PState (set_magic_seen None (set_output (stringio_write (output p) t) p))
            (set_cell d (Fired (run_chain cbs (Success PyProtocol))) h)
            (o ++ echo p t ++ [OutSaw (magic_text p)]), Ok tt).
Proof.
  intros Hd Hm Hc Hin. destruct (print_logs p) eqn:Hp; handler_run;
  unfold fire; rewrite Hc; simpl; by rewrite <- ?app_assoc.
Qed.

Lemma out_received_nofire data t p h o :
  Utf8.decode data = Ok t ->
  (magic_seen p = None \/ contains (magic_text p) (getvalue (output p) ++ t) = false) ->
  out_received data (PState p h o) =
    (PState (set_output (stringio_write (output p) t) p) h (o ++ echo p t), Ok tt).
Proof.
  intros Hd Hno. destruct (print_logs p) eqn:Hp;
  destruct Hno as [Hm|Hin]; handler_run; try done;
  destruct (magic_seen p); simpl; by rewrite ?Hin, ?app_nil_r.
Qed.

Lemma err_received_run data p h o :
  err_received data (PState p h o) =
    match Utf8.decode data with
    | Ok t => (PState p h (o ++ [OutText t]), Ok tt)
    | Raise e => (PState p h o, Raise e)
    | Hang => (PState p h o, Hang)
    end.
Proof. handler_run. by destruct (Utf8.decode data). Qed.

Lemma processEnded_pending r p h o d cbs cbs' :
  magic_seen p = Some d -> cells h !! d = Some (Pending cbs) -> d <> exited p ->
  cells h !! exited p = Some (Pending cbs') ->
  processEnded r (PState p h o) =
    (PState (set_magic_seen None p)
            (set_cell (exited p) (Fired (run_chain cbs' (Success PyNone)))
               (set_cell d (Fired (Failure service_failed)) h)) o, Ok tt).
Proof.
  intros Hm Hc Hne He. handler_run. unfold fire. rewrite Hc. simpl.
  rewrite lookup_insert_ne by done. by rewrite He.
Qed.

Lemma processEnded_ready r p h o cbs' :
  magic_seen p = None -> cells h !! exited p = Some (Pending cbs') ->
  processEnded r (PState p h o) =
    (PState p (set_cell (exited p) (Fired (run_chain cbs' (Success PyNone))) h) o, Ok tt).
Proof. intros Hm He. handler_run. unfold fire. by rewrite He. Qed.

Lemma processEnded_exited_fired r p h o o' :
  magic_seen p = None -> cells h !! exited p = Some (Fired o') ->
  processEnded r (PState p h o) = (PState p h o, Raise AlreadyCalledError).
Proof. intros Hm He. handler_run. unfold fire. by rewrite He. Qed.


Lemma count_saw_app o o' : count_saw (o ++ o') = (count_saw o + count_saw o')%nat.
Proof. unfold count_saw. by rewrite filter_app, length_app. Qed.

Lemma count_saw_echo p t : count_saw (echo p t) = 0%nat.
Proof. unfold echo. by destruct (print_logs p). Qed.

#[export] Hint Rewrite count_saw_app count_saw_echo : fow_rw.

#[export] Instance proto_frame_preorder : PreOrder proto_frame.
Proof.
  split; [by intros p|].
  intros p1 p2 p3 (? & ? & ?) (? & ? & ?). split_and!; congruence.
Qed.

Lemma processEnded_frame r s : proto_frame (ps_proto s) (ps_proto (fst (processEnded r s))).
Proof.
  destruct s as [p h o]. handler_run.
  destruct (magic_seen p); simpl; [|by destruct (fire _ _ h)].
  destruct (fire _ _ h) as [h1 [[]|e|]]; simpl; [|done..]. by destruct (fire _ _ h1).
Qed.

(** [processEnded] prints nothing. *)
Lemma processEnded_stdout r s : ps_stdout (fst (processEnded r s)) = ps_stdout s.
Proof.
  destruct s as [p h o]. handler_run.
  destruct (magic_seen p); simpl; [|by destruct (fire _ _ h)].
  destruct (fire _ _ h) as [h1 [[]|e|]]; simpl; [|done..]. by destruct (fire _ _ h1).
Qed.

Section Invariant.
Variable cbs0 : list (pyval -> pyval).

(** Close the fields of [inv] that a step leaves as they were. *)
Ltac inv_same Hi :=
  first [ exact (inv_alloc _ _ _ Hi) | exact (inv_ne _ _ _ Hi) | exact (inv_ms0 _ _ _ Hi)
        | exact (inv_exited _ _ _ Hi) | exact (inv_exited_chain _ _ _ Hi)
        | exact (inv_exited_none _ _ _ Hi) ].

Lemma inv_out_received ms0 data s : inv cbs0 ms0 s -> inv cbs0 ms0 (fst (out_received data s)).
Proof.
  destruct s as [p h o]. intros Hi. pose proof (Utf8.decode_not_Hang data) as Hnh.
  destruct (Utf8.decode data) as [t|e|] eqn:Hd; [|by rewrite (out_received_error _ _ _ _ _ Hd)|done].
  destruct (inv_pending _ _ _ Hi) as [(Hm & Hp & Hc & Hs)|(Hm & Hp)]; simpl in *.
  - pose proof (inv_chain _ _ _ Hi Hp) as Hcell. simpl in Hcell.
    destruct (contains (magic_text p) (getvalue (output p) ++ t)) eqn:Hin.
    + rewrite (out_received_fire _ _ _ _ _ _ _ Hd Hm Hcell Hin).
      split; cbn [fst ps_proto ps_heap ps_stdout set_magic_seen set_output magic_seen exited
                  magic_text output]; autorewrite with fow_rw.
      * apply alloc_ok_set_cell; [exact (inv_alloc _ _ _ Hi)|by eexists].
      * apply (inv_ne _ _ _ Hi).
      * by eexists.
      * apply is_Some_set_cell, (inv_exited _ _ _ Hi).
      * by right.
      * intros v _. rewrite Hs. by split.
      * by intros e [=].
      * done.
      * done.
      * intros v Hv. by inversion Hv.
      * rewrite is_pending_set_cell_ne, cells_set_cell_ne by exact (inv_ne _ _ _ Hi).
        apply (inv_exited_chain _ _ _ Hi).
      * rewrite result_of_set_cell_ne by exact (inv_ne _ _ _ Hi). apply (inv_exited_none _ _ _ Hi).
    + rewrite (out_received_nofire _ _ _ _ _ Hd (or_intror Hin)).
      split; cbn [fst ps_proto ps_heap ps_stdout set_magic_seen set_output magic_seen exited
                  magic_text output]; autorewrite with fow_rw; try inv_same Hi.
      * left. rewrite Hs, Hm. by split_and!; [..|left|].
      * intros v Hv. unfold result_of, is_pending in *. by rewrite Hcell in Hv.
      * intros e He. unfold result_of, is_pending in *. by rewrite Hcell in He.
      * intros He. pose proof (inv_exited_fired _ _ _ Hi He). simpl in *. congruence.
      * intros _. exact Hcell.
      * intros v Hv. unfold result_of in Hv. by rewrite Hcell in Hv.
  - rewrite (out_received_nofire _ _ _ _ _ Hd (or_introl Hm)).
    split; cbn [fst ps_proto ps_heap ps_stdout set_magic_seen set_output magic_seen exited
                magic_text output]; autorewrite with fow_rw; try inv_same Hi; [by right|..].
    + intros v Hv. destruct (inv_success _ _ _ Hi v Hv) as [Hc Hs]. simpl in *.
      by rewrite (contains_app _ _ _ Hc), Hs.
    + intros e He. destruct (inv_failure _ _ _ Hi e He) as (? & Hs & ?). simpl in *. by rewrite Hs.
    + by rewrite Hm.
    + intros Hp'. by rewrite Hp in Hp'.
    + apply (inv_success_value _ _ _ Hi).
Qed.


Lemma inv_err_received ms0 data s : inv cbs0 ms0 s -> inv cbs0 ms0 (fst (err_received data s)).
Proof.
  destruct s as [p h o]. intros Hi. rewrite err_received_run.
  destruct (Utf8.decode data); [|done|done].
  destruct Hi as [? ? ? ? Hpend Hsucc Hfail ? ? ? ? ?]; simpl in *.
  split; simpl; autorewrite with fow_rw; simpl; rewrite ?Nat.add_0_r; try done.
Qed.

(** The shape of [exited]'s cell: pending, or fired. *)
Lemma cell_cases (h : heap) l :
  is_Some (cells h !! l) ->
  (exists cbs, cells h !! l = Some (Pending cbs)) \/ (exists o, cells h !! l = Some (Fired o)).
Proof. intros [[cbs|o] ->]; eauto. Qed.

Lemma inv_processEnded ms0 r s : inv cbs0 ms0 s -> inv cbs0 ms0 (fst (processEnded r s)).
Proof.
  destruct s as [p h o]. intros Hi.
  pose proof (inv_ne _ _ _ Hi) as Hne; simpl in Hne.
  destruct (cell_cases h (exited p) (inv_exited _ _ _ Hi)) as [[cbs' He]|[o' He]].
  - assert (cbs' = []) as ->.
    { pose proof (inv_exited_chain _ _ _ Hi) as Hc. simpl in Hc. unfold is_pending in Hc.
      rewrite He in Hc. specialize (Hc eq_refl). congruence. }
    destruct (inv_pending _ _ _ Hi) as [(Hm & Hp & Hc & Hs)|(Hm & Hp)]; simpl in *.
    + destruct (is_pending_Some _ _ Hp) as [cbs Hcell].
      rewrite (processEnded_pending _ _ _ _ _ _ _ Hm Hcell Hne He).
      split; cbn [fst ps_proto ps_heap ps_stdout set_magic_seen magic_seen exited
                  magic_text output].
      * apply alloc_ok_set_cell; [apply alloc_ok_set_cell; [exact (inv_alloc _ _ _ Hi)|by eexists]|].
        apply is_Some_set_cell. rewrite He. by eexists.
      * done.
      * apply is_Some_set_cell. rewrite cells_set_cell_eq. by eexists.
      * rewrite cells_set_cell_eq. by eexists.
      * right. split; [done|]. by rewrite is_pending_set_cell_ne, is_pending_set_cell_eq.
      * intros v. by rewrite result_of_set_cell_ne, result_of_set_cell_eq.
      * intros e. rewrite result_of_set_cell_ne, result_of_set_cell_eq by done.
        intros [= <-]. by rewrite is_pending_set_cell_eq.
      * done.
      * by rewrite is_pending_set_cell_ne, is_pending_set_cell_eq.
      * intros v. by rewrite result_of_set_cell_ne, result_of_set_cell_eq.
      * by rewrite is_pending_set_cell_eq.
      * intros o'. rewrite result_of_set_cell_eq. by intros [= <-].
    + rewrite (processEnded_ready _ _ _ _ _ Hm He).
      split; cbn [fst ps_proto ps_heap ps_stdout]; try inv_same Hi.
      * apply alloc_ok_set_cell; [exact (inv_alloc _ _ _ Hi)|by eexists].
      * apply is_Some_set_cell, (inv_ms0 _ _ _ Hi).
      * rewrite cells_set_cell_eq. by eexists.
      * right. by rewrite is_pending_set_cell_ne.
      * intros v. rewrite result_of_set_cell_ne by done. apply (inv_success _ _ _ Hi).
      * intros e. rewrite result_of_set_cell_ne, is_pending_set_cell_eq by done.
        intros He'. by destruct (inv_failure _ _ _ Hi e He') as (? & ? & _).
      * done.
      * intros Hp'. rewrite is_pending_set_cell_ne in Hp' by done. by rewrite Hp in Hp'.
      * intros v. rewrite result_of_set_cell_ne by done. apply (inv_success_value _ _ _ Hi).
      * by rewrite is_pending_set_cell_eq.
      * intros o'. rewrite result_of_set_cell_eq. by intros [= <-].
  - assert (magic_seen p = None) as Hm.
    { apply (inv_exited_fired _ _ _ Hi). simpl. unfold is_pending. by rewrite He. }
    by rewrite (processEnded_exited_fired _ _ _ _ _ Hm He).
Qed.




(** ** Frame lemmas for the reactor *)

Lemma childDataReceived_not_Hang fd data s : snd (childDataReceived fd data s) <> Hang.
Proof.
  destruct s as [p h o]. pose proof (Utf8.decode_not_Hang data) as Hnh.
  unfold childDataReceived. destruct (Z.eqb_spec fd 1).
  - destruct (Utf8.decode data) as [t|err|] eqn:Hd; [|by rewrite (out_received_error _ _ _ _ _ Hd)|done].
    handler_run. unfold fire.
    destruct (print_logs p), (magic_seen p); simpl; repeat case_match; simplify_eq/=; done.
  - destruct (Z.eqb_spec fd 2); [|done]. rewrite err_received_run. by destruct (Utf8.decode data).
Qed.

Lemma processEnded_not_Hang r s : snd (processEnded r s) <> Hang.
Proof.
  destruct s as [p h o]. handler_run. unfold fire.
  destruct (magic_seen p); simpl; repeat case_match; simplify_eq/=; done.
Qed.

(** What a data handler never changes: [exited], whether it has fired, the
    marker and the echo policy. *)
Lemma childDataReceived_frame ms0 fd data s :
  inv cbs0 ms0 s ->
  let s' := fst (childDataReceived fd data s) in
  exited (ps_proto s') = exited (ps_proto s) /\
  is_pending (ps_heap s') (exited (ps_proto s)) = is_pending (ps_heap s) (exited (ps_proto s)) /\
  magic_text (ps_proto s') = magic_text (ps_proto s) /\
  print_logs (ps_proto s') = print_logs (ps_proto s).
Proof.
  destruct s as [p h o]. intros Hi. simpl. unfold childDataReceived.
  destruct (Z.eqb_spec fd 1).
  - pose proof (Utf8.decode_not_Hang data) as Hnh.
    destruct (Utf8.decode data) as [t|err|] eqn:Hd; [|by rewrite (out_received_error _ _ _ _ _ Hd)|done].
    destruct (inv_pending _ _ _ Hi) as [(Hm & Hp & _)|(Hm & _)]; simpl in *.
    + destruct (is_pending_Some _ _ Hp) as [cbs Hc].
      destruct (contains (magic_text p) (getvalue (output p) ++ t)) eqn:Hin.
      * rewrite (out_received_fire _ _ _ _ _ _ _ Hd Hm Hc Hin). simpl.
        by rewrite is_pending_set_cell_ne by apply (inv_ne _ _ _ Hi).
      * by rewrite (out_received_nofire _ _ _ _ _ Hd (or_intror Hin)).
    + by rewrite (out_received_nofire _ _ _ _ _ Hd (or_introl Hm)).
  - destruct (Z.eqb_spec fd 2); [|done].
    rewrite err_received_run. by destruct (Utf8.decode data).
Qed.

(** On a chunk that decodes, [out_received] returns normally, appends
    the decoded text to the buffer, and prints it when [_print_logs] is
    set (besides the "Saw" line). *)
Lemma out_received_Ok ms0 data t s :
  inv cbs0 ms0 s -> Utf8.decode data = Ok t ->
  snd (out_received data s) = Ok tt /\
  getvalue (output (ps_proto (fst (out_received data s)))) = getvalue (output (ps_proto s)) ++ t /\
  texts (ps_stdout (fst (out_received data s))) = texts (ps_stdout s) ++ echo (ps_proto s) t.
Proof.
  destruct s as [p h o]. intros Hi Hd.
  assert (He : texts (echo p t) = echo p t) by (unfold echo; by destruct (print_logs p)).
  destruct (inv_pending _ _ _ Hi) as [(Hm & Hp & _)|(Hm & _)]; simpl in *.
  - destruct (is_pending_Some _ _ Hp) as [cbs Hc].
    destruct (contains (magic_text p) (getvalue (output p) ++ t)) eqn:Hin.
    + rewrite (out_received_fire _ _ _ _ _ _ _ Hd Hm Hc Hin). simpl.
      unfold texts in *. by rewrite !filter_app, He, app_nil_r.
    + rewrite (out_received_nofire _ _ _ _ _ Hd (or_intror Hin)). simpl.
      unfold texts in *. by rewrite filter_app, He.
  - rewrite (out_received_nofire _ _ _ _ _ Hd (or_introl Hm)). simpl.
    unfold texts in *. by rewrite filter_app, He.
Qed.

(** While [exited] is pending, [processEnded] returns normally and fires
    it. *)
Lemma processEnded_fires_exited ms0 r s :
  inv cbs0 ms0 s -> is_pending (ps_heap s) (exited (ps_proto s)) = true ->
  snd (processEnded r s) = Ok tt /\
  exited (ps_proto (fst (processEnded r s))) = exited (ps_proto s) /\
  is_pending (ps_heap (fst (processEnded r s))) (exited (ps_proto s)) = false.
Proof.
  destruct s as [p h o]. intros Hi He. simpl in *.
  destruct (is_pending_Some _ _ He) as [cbs' Hc'].
  destruct (inv_pending _ _ _ Hi) as [(Hm & Hp & _)|(Hm & _)]; simpl in *.
  - destruct (is_pending_Some _ _ Hp) as [cbs Hc].
    rewrite (processEnded_pending _ _ _ _ _ _ _ Hm Hc (inv_ne _ _ _ Hi) Hc'). simpl.
    by rewrite is_pending_set_cell_eq.
  - rewrite (processEnded_ready _ _ _ _ _ Hm Hc'). simpl. by rewrite is_pending_set_cell_eq.
Qed.

(** ** The handlers only extend the heap *)

(** Name each [fire] of the goal and chain its [heap_le_fire]. *)
Ltac fire_le :=
  repeat match goal with
  | |- context [fire ?l ?o ?h] =>
      let H := fresh "Hle" in
      pose proof (heap_le_fire h l o) as H;
      destruct (fire l o h) as [? [[]| |]]; simpl in *
  end; try done; try (etrans; eassumption).

Lemma childDataReceived_heap_le fd data s :
  heap_le (ps_heap s) (ps_heap (fst (childDataReceived fd data s))).
Proof.
  destruct s as [p h o]. unfold childDataReceived.
  destruct (Z.eqb fd 1);
    [|destruct (Z.eqb fd 2); [rewrite err_received_run; by destruct (Utf8.decode data)|done]].
  handler_run. destruct (print_logs p), (Utf8.decode data); simpl; try done;
  destruct (magic_seen p); simpl; try done; case_match; simpl; fire_le.
Qed.

Lemma processEnded_heap_le r s :
  heap_le (ps_heap s) (ps_heap (fst (processEnded r s))).
Proof. destruct s as [p h o]. handler_run. destruct (magic_seen p); simpl; fire_le. Qed.

(** Under the invariant a data handler raises only when the chunk does not
    decode, and then it has changed nothing. *)
Lemma childDataReceived_Raise ms0 fd data s s' e :
  inv cbs0 ms0 s -> childDataReceived fd data s = (s', Raise e) ->
  s' = s /\ Utf8.decode data = Raise e.
Proof.
  intros Hi. destruct s as [p h o]. unfold childDataReceived.
  pose proof (Utf8.decode_not_Hang data) as Hnh.
  destruct (Z.eqb fd 1).
  - destruct (Utf8.decode data) as [t|e'|] eqn:Hd; [|rewrite (out_received_error _ _ _ _ _ Hd)|done].
    + intros E. pose proof (out_received_Ok ms0 data t _ Hi Hd) as [Hok _]. by rewrite E in Hok.
    + by intros [= -> ->].
  - destruct (Z.eqb fd 2); [|done]. rewrite err_received_run.
    by destruct (Utf8.decode data); intros [= -> ->].
Qed.

(** [processEnded] on a state whose readiness is still pending fails it. *)
Lemma processEnded_fails_pending ms0 r s :
  inv cbs0 ms0 s -> is_pending (ps_heap s) ms0 = true ->
  result_of (ps_heap (fst (processEnded r s))) ms0 = Some (Failure service_failed).
Proof.
  destruct s as [p h o]. intros Hi Hp.
  destruct (inv_pending _ _ _ Hi) as [(Hm & _)|(_ & Hp')]; [|simpl in *; congruence].
  destruct (is_pending_Some _ _ Hp) as [cbs Hc]. pose proof (inv_ne _ _ _ Hi) as Hne. simpl in *.
  destruct (cell_cases h (exited p) (inv_exited _ _ _ Hi)) as [[cbs' He]|[o' He]].
  - rewrite (processEnded_pending _ _ _ _ _ _ _ Hm Hc Hne He). simpl.
    by rewrite result_of_set_cell_ne, result_of_set_cell_eq.
  - pose proof (inv_exited_fired _ _ _ Hi) as Hx. simpl in Hx.
    unfold is_pending in Hx. rewrite He in Hx. by rewrite Hx in Hm.
Qed.

(** A readiness result not yet set means [magic_seen] and [exited] are
    both pending. *)
Lemma result_None_pending ms0 s :
  inv cbs0 ms0 s -> result_of (ps_heap s) ms0 = None -> is_pending (ps_heap s) ms0 = true.
Proof.
  intros Hi. destruct (inv_ms0 _ _ _ Hi) as [[cbs|o] Hc];
  unfold result_of, is_pending; by rewrite Hc.
Qed.

(** "Saw" is printed at most once. *)
Lemma inv_count_saw ms0 s : inv cbs0 ms0 s -> count_saw (ps_stdout s) <= 1.
Proof.
  intros Hi. destruct (result_of (ps_heap s) ms0) as [[v|e]|] eqn:E.
  - by rewrite (proj2 (inv_success _ _ _ Hi v E)).
  - rewrite (proj1 (proj2 (inv_failure _ _ _ Hi e E))). lia.
  - destruct (inv_pending _ _ _ Hi) as [(_ & _ & _ & ->)|(_ & Hp)]; [lia|].
    by rewrite (result_None_pending ms0 s Hi E) in Hp.
Qed.

Lemma result_None_exited ms0 s :
  inv cbs0 ms0 s -> result_of (ps_heap s) ms0 = None ->
  is_pending (ps_heap s) (exited (ps_proto s)) = true.
Proof.
  intros Hi Hn. pose proof (result_None_pending ms0 s Hi Hn) as Hp.
  destruct (is_pending (ps_heap s) (exited (ps_proto s))) eqn:He; [done|].
  pose proof (inv_exited_fired _ _ _ Hi He) as Hm.
  by destruct (inv_pending _ _ _ Hi) as [(Hm' & _)|(_ & Hp')]; congruence.
Qed.

(** ** Properties of the demultiplexer *)


(** Until the process has ended, readiness is pending exactly while the
    accumulated stdout text does not contain the marker. *)
Lemma readiness_iff_marker ms0 s :
  inv cbs0 ms0 s -> is_pending (ps_heap s) (exited (ps_proto s)) = true ->
  (magic_text (ps_proto s) <> [] \/ getvalue (output (ps_proto s)) <> []) ->
  is_pending (ps_heap s) ms0 =
    negb (contains (magic_text (ps_proto s)) (getvalue (output (ps_proto s)))).
Proof.
  intros Hi He Hne.
  destruct (inv_pending _ _ _ Hi) as [(_ & -> & [-> | Hnil] & _)|(_ & Hp)]; [done| |].
  { rewrite Hnil in Hne |- *. destruct (magic_text (ps_proto s)); [|done].
    by destruct Hne. }
  rewrite Hp. destruct (inv_ms0 _ _ _ Hi) as [[cbs|[v|e]] Hc].
  - unfold is_pending in Hp. by rewrite Hc in Hp.
  - assert (result_of (ps_heap s) ms0 = Some (Success v)) as Hr by (unfold result_of; by rewrite Hc).
    by destruct (inv_success _ _ _ Hi v Hr) as [-> _].
  - assert (result_of (ps_heap s) ms0 = Some (Failure e)) as Hr by (unfold result_of; by rewrite Hc).
    destruct (inv_failure _ _ _ Hi e Hr) as (_ & _ & Hx). by rewrite Hx in He.
Qed.

(** C15: Data on any descriptor other than 1 (stderr, the eliot log on
    descriptor 3) never touches the protocol's state or any Deferred, even
    when it contains the marker. *)
Theorem other_fds_never_fire fd data s :
  fd <> 1%Z ->
  ps_proto (fst (childDataReceived fd data s)) = ps_proto s /\
  ps_heap (fst (childDataReceived fd data s)) = ps_heap s.
Proof.
  intros Hfd. destruct s as [p h o]. unfold childDataReceived.
  destruct (Z.eqb_spec fd 1); [done|].
  destruct (Z.eqb_spec fd 2); [|done].
  rewrite err_received_run. by destruct (Utf8.decode data).
Qed.

(** A chunk that is not well-formed UTF-8 makes [childDataReceived]
    raise [UnicodeDecodeError] with nothing changed: the chunk is neither
    echoed nor appended. *)
Lemma decode_error_no_effect fd data e s :
  Utf8.decode data = Raise e -> (fd = 1 \/ fd = 2)%Z ->
  childDataReceived fd data s = (s, Raise e).
Proof.
  intros Hd Hfd. destruct s as [p h o]. unfold childDataReceived.
  destruct Hfd as [->| ->]; simpl; [by apply out_received_error|].
  rewrite err_received_run. by rewrite Hd.
Qed.

(** C16: Data on a descriptor other than 1 and 2 (the eliot log on
    descriptor 3) is dropped. [childDataReceived] hands it to
    [ProcessProtocol.childDataReceived], which ignores it. Nothing is
    decoded, echoed, buffered or fired. *)
Theorem aux_fds_dropped fd data s :
  fd <> 1%Z -> fd <> 2%Z -> childDataReceived fd data s = (s, Ok tt).
Proof.
  intros H1 H2. unfold childDataReceived.
  by rewrite (proj2 (Z.eqb_neq _ _) H1), (proj2 (Z.eqb_neq _ _) H2).
Qed.

(** C5: When the process ends before the marker was seen, [processEnded]
    fails readiness with "Service failed." and then fires [exited]. *)
Theorem processEnded_before_ready ms0 s r :
  inv cbs0 ms0 s -> magic_seen (ps_proto s) = Some ms0 ->
  is_pending (ps_heap s) (exited (ps_proto s)) = true ->
  let '(s', res) := processEnded r s in
  res = Ok tt /\ magic_seen (ps_proto s') = None /\
  result_of (ps_heap s') ms0 = Some (Failure service_failed) /\
  (exists cbs, result_of (ps_heap s') (exited (ps_proto s')) = Some (run_chain cbs (Success PyNone))).
Proof.
  destruct s as [p h o]. intros Hi Hm He. simpl in *.
  destruct (is_pending_Some _ _ He) as [cbs' Hc'].
  destruct (inv_pending _ _ _ Hi) as [(_ & Hp & _)|(Hm' & _)]; [|simpl in *; congruence].
  destruct (is_pending_Some _ _ Hp) as [cbs Hc].
  pose proof (inv_ne _ _ _ Hi) as Hne.
  rewrite (processEnded_pending _ _ _ _ _ _ _ Hm Hc Hne Hc'). simpl.
  rewrite result_of_set_cell_ne, result_of_set_cell_eq by done.
  do 3 (split; [done|]). exists cbs'. apply result_of_set_cell_eq.
Qed.

(** C22: When the process ends after readiness, [processEnded] leaves the
    readiness result as it was and fires [exited]. *)
Theorem processEnded_after_ready ms0 s r v :
  inv cbs0 ms0 s -> result_of (ps_heap s) ms0 = Some (Success v) ->
  is_pending (ps_heap s) (exited (ps_proto s)) = true ->
  let '(s', res) := processEnded r s in
  res = Ok tt /\ result_of (ps_heap s') ms0 = Some (Success v) /\
  is_pending (ps_heap s') (exited (ps_proto s')) = false.
Proof.
  destruct s as [p h o]. intros Hi Hv He. simpl in *.
  destruct (is_pending_Some _ _ He) as [cbs' Hc'].
  destruct (inv_pending _ _ _ Hi) as [(_ & Hp & _)|(Hm & _)].
  - simpl in *. unfold is_pending, result_of in *. destruct (cells h !! ms0) as [[]|]; congruence.
  - rewrite (processEnded_ready _ _ _ _ _ Hm Hc'). simpl.
    rewrite result_of_set_cell_ne by (apply not_eq_sym, (inv_ne _ _ _ Hi)).
    by rewrite is_pending_set_cell_eq.
Qed.

(** C23: [exited] is fired by the first [processEnded]; a second call raises
    [AlreadyCalledError], since the code does not guard [exited]. *)
Theorem processEnded_twice ms0 s r r' :
  inv cbs0 ms0 s -> snd (processEnded r' (fst (processEnded r s))) = Raise AlreadyCalledError.
Proof.
  intros Hi. pose proof (inv_processEnded _ r _ Hi) as Hi'.
  destruct s as [p h o].
  assert (Hfired : exists o', cells (ps_heap (fst (processEnded r (PState p h o))))
                      !! exited (ps_proto (fst (processEnded r (PState p h o)))) = Some (Fired o')).
  { destruct (cell_cases h (exited p) (inv_exited _ _ _ Hi)) as [[cbs' He]|[o' He]].
    - destruct (inv_pending _ _ _ Hi) as [(Hm & Hp & _)|(Hm & _)]; simpl in *.
      + destruct (is_pending_Some _ _ Hp) as [cbs Hc].
        rewrite (processEnded_pending _ _ _ _ _ _ _ Hm Hc (inv_ne _ _ _ Hi) He).
        simpl. rewrite lookup_insert_eq. eauto.
      + rewrite (processEnded_ready _ _ _ _ _ Hm He). simpl. rewrite lookup_insert_eq. eauto.
    - assert (magic_seen p = None) as Hm.
      { apply (inv_exited_fired _ _ _ Hi). simpl. unfold is_pending. by rewrite He. }
      rewrite (processEnded_exited_fired _ _ _ _ _ Hm He). eauto. }
  destruct (processEnded r (PState p h o)) as [[p' h' o'] res]. simpl in *.
  destruct Hfired as [ofd Hf].
  assert (magic_seen p' = None) as Hm'.
  { apply (inv_exited_fired _ _ _ Hi'). simpl. unfold is_pending. by rewrite Hf. }
  by rewrite (processEnded_exited_fired _ _ _ _ _ Hm' Hf).
Qed.

End Invariant.

(** Every handler the reactor can call preserves the invariant: the
    readiness Deferred is fired at most once, "Saw" is printed at most once
    and only with a success, and a failure only comes with [exited]. *)
#[export] Instance inv_handler_inv cbs0 ms0 : HandlerInv (inv cbs0 ms0).
Proof.
  split; [intros fd data ps Hi|intros r ps Hi; by apply inv_processEnded].
  unfold childDataReceived.
  destruct (Z.eqb_spec fd 1); [by apply inv_out_received|].
  destruct (Z.eqb_spec fd 2); [by apply inv_err_received|done].
Qed.

#[export] Instance heap_le_handler_inv h0 : HandlerInv (fun ps => heap_le h0 (ps_heap ps)).
Proof.
  split; intros; (etrans; [eassumption|]); [apply childDataReceived_heap_le|apply processEnded_heap_le].
Qed.

(** [__init__] establishes the invariant, for the Deferred it stores in
    [magic_seen]. *)
Lemma init_inv magic pl h o :
  alloc_ok h -> count_saw o = 0%nat ->
  exists p h', init magic pl h = (h', Ok p) /\ magic_seen p = Some (next_loc h) /\
    exited p = S (next_loc h) /\ magic_text p = magic /\ getvalue (output p) = [] /\ print_logs p = pl /\
    is_pending h' (exited p) = true /\ inv [] (next_loc h) (PState p h' o).
Proof.
  intros Hok Ho. destruct (new_fresh h Hok) as (Hfree & _ & _).
  set (h1 := fst (new h)). assert (Hok1 : alloc_ok h1) by (by apply alloc_ok_new).
  destruct (new_fresh h1 Hok1) as (Hfree1 & _ & Hcell1).
  exists (Proto (Some (next_loc h)) (next_loc h1) magic stringio_new pl), (fst (new h1)).
  split; [reflexivity|].
  cbn [magic_seen exited magic_text output print_logs getvalue stringio_new].
  assert (Hne : next_loc h <> next_loc h1) by (simpl; lia).
  assert (Hc0 : cells (fst (new h1)) !! next_loc h = Some (Pending [])).
  { simpl. rewrite lookup_insert_ne by done. apply lookup_insert_eq. }
  do 5 (split; [done|]). split; [unfold is_pending; by rewrite Hcell1|].
  split; cbn [ps_heap ps_proto ps_stdout magic_seen exited magic_text output getvalue
              stringio_new]; try done; try (by apply alloc_ok_new); try (rewrite Hcell1; by eexists).
  - left. unfold is_pending. rewrite Hc0. by split_and!; [..|right|].
  - unfold result_of. by rewrite Hc0.
  - unfold result_of. by rewrite Hc0.
  - unfold is_pending. by rewrite Hcell1.
  - intros v. unfold result_of. by rewrite Hc0.
  - intros e. unfold result_of. by rewrite Hcell1.
Qed.

(** Chaining a callback onto the pending [magic_seen] extends the chain the
    invariant records. *)
Lemma inv_addCallback cbs0 ms0 p h o f :
  inv cbs0 ms0 (PState p h o) -> is_pending h ms0 = true ->
  addCallback ms0 f h = (set_cell ms0 (Pending (cbs0 ++ [f])) h, Ok ms0) /\
  inv (cbs0 ++ [f]) ms0 (PState p (set_cell ms0 (Pending (cbs0 ++ [f])) h) o).
Proof.
  intros Hi Hp. pose proof (inv_chain _ _ _ Hi Hp) as Hc. simpl in Hc.
  split; [by apply addCallback_Pending|].
  assert (He : exited p <> ms0) by (apply not_eq_sym, (inv_ne _ _ _ Hi)).
  assert (Hpend : is_pending (set_cell ms0 (Pending (cbs0 ++ [f])) h) ms0 = true)
    by (unfold is_pending; by rewrite cells_set_cell_eq).
  assert (Hres : result_of (set_cell ms0 (Pending (cbs0 ++ [f])) h) ms0 = None)
    by (unfold result_of; by rewrite cells_set_cell_eq).
  destruct Hi as [Hal Hne' Hms Hex Hpd Hs Hfl Hef Hch Hsv Hxc Hxo]; simpl in *.
  split; simpl; rewrite ?Hres; try done.
  - by apply alloc_ok_set_cell.
  - rewrite lookup_insert_eq. by eexists.
  - by rewrite lookup_insert_ne.
  - destruct Hpd as [(? & ? & ? & ?)|(_ & Hf)]; [by left|by rewrite Hp in Hf].
  - rewrite is_pending_set_cell_ne by done. apply Hef.
  - intros _. apply lookup_insert_eq.
  - unfold is_pending. simpl. rewrite lookup_insert_ne by done. apply Hxc.
  - unfold result_of. simpl. rewrite lookup_insert_ne by done. apply Hxo.
Qed.

(** The callback an [await] or [blockon] adds to the fired readiness
    Deferred extends the chain the invariant records by a function that
    returns [None], and [d] then holds [None]. *)
Lemma inv_drop_result cbs0 ms0 p h o v :
  inv cbs0 ms0 (PState p h o) -> result_of h ms0 = Some (Success v) ->
  inv (cbs0 ++ [fun _ => PyNone]) ms0 (PState p (fst (drop_result ms0 h)) o).
Proof.
  intros Hi Hv. assert (Hc : cells h !! ms0 = Some (Fired (Success v)))
    by (unfold result_of in Hv; by destruct (cells h !! ms0) as [[]|]; simplify_eq).
  assert (He : exited p <> ms0) by (apply not_eq_sym, (inv_ne _ _ _ Hi)).
  destruct (inv_success _ _ _ Hi v Hv) as [Hin Hsaw].
  unfold drop_result. rewrite Hc. cbn [fst].
  destruct Hi as [Hal Hne' Hms Hex Hpd Hs Hfl Hef Hch Hsv Hxc Hxo]; cbn [ps_heap ps_proto ps_stdout] in *.
  split; cbn [ps_heap ps_proto ps_stdout].
  - apply alloc_ok_set_cell; [done|by eexists].
  - done.
  - rewrite cells_set_cell_eq. by eexists.
  - by apply is_Some_set_cell.
  - right. split; [|apply is_pending_set_cell_eq].
    destruct Hpd as [(_ & Hp & _)|(Hm & _)]; [|done]. unfold is_pending in Hp. by rewrite Hc in Hp.
  - intros v' _. by split.
  - intros e. by rewrite result_of_set_cell_eq.
  - rewrite is_pending_set_cell_ne by done. apply Hef.
  - by rewrite is_pending_set_cell_eq.
  - intros v'. rewrite result_of_set_cell_eq. intros [= <-]. by rewrite fold_left_app.
  - rewrite is_pending_set_cell_ne, cells_set_cell_ne by done. apply Hxc.
  - rewrite result_of_set_cell_ne by done. apply Hxo.
Qed.

(** Printing lines other than "Saw" keeps the invariant. *)
Lemma inv_stdout_app cbs0 ms0 p h o o' :
  inv cbs0 ms0 (PState p h o) -> count_saw o' = 0%nat -> inv cbs0 ms0 (PState p h (o ++ o')).
Proof.
  intros [? ? ? ? Hpd Hs Hf ? ? ? ? ?] Ho'. simpl in *.
  split; simpl; rewrite ?count_saw_app, ?Ho', ?Nat.add_0_r; try done.
Qed.

(** The examples' protocols satisfy the invariant. *)
Lemma ex_init_inv magic : inv [] 0 (ex_init magic).
Proof.
  destruct (init_inv magic true heap_empty [] alloc_ok_empty eq_refl)
    as (p & h' & E & _ & _ & _ & _ & _ & _ & Hi).
  unfold ex_init. by rewrite E.
Qed.

Lemma ex_ready_inv magic : inv [] 0 (ex_ready magic).
Proof. apply (handler_inv_data 1 magic _ (ex_init_inv magic)). Qed.

(** ** Witnesses *)

Lemma other_fds_never_fire_witness :
  ps_proto (fst (childDataReceived 3 (lit "READY") (ex_init (lit "READY")))) =
    ps_proto (ex_init (lit "READY")) /\
  ps_heap (fst (childDataReceived 3 (lit "READY") (ex_init (lit "READY")))) =
    ps_heap (ex_init (lit "READY")).
Proof. apply other_fds_never_fire. lia. Defined.

Lemma aux_fds_dropped_witness :
  childDataReceived 3 (lit "READY") (ex_init (lit "READY")) = (ex_init (lit "READY"), Ok tt).
Proof. apply aux_fds_dropped; lia. Defined.

Lemma processEnded_before_ready_witness :
  magic_seen (ps_proto (ex_init (lit "READY"))) = Some 0 /\
  let '(s', res) := processEnded ProcessDone (ex_init (lit "READY")) in
  res = Ok tt /\ magic_seen (ps_proto s') = None /\
  result_of (ps_heap s') 0 = Some (Failure service_failed) /\
  (exists cbs, result_of (ps_heap s') (exited (ps_proto s')) = Some (run_chain cbs (Success PyNone))).
Proof.
  split; [reflexivity|].
  apply (processEnded_before_ready [] 0 (ex_init (lit "READY")) ProcessDone (ex_init_inv _));
    vm_compute; reflexivity.
Defined.

Lemma processEnded_after_ready_witness :
  result_of (ps_heap (ex_ready (lit "READY"))) 0 = Some (Success PyProtocol) /\
  let '(s', res) := processEnded ProcessDone (ex_ready (lit "READY")) in
  res = Ok tt /\ result_of (ps_heap s') 0 = Some (Success PyProtocol) /\
  is_pending (ps_heap s') (exited (ps_proto s')) = false.
Proof.
  split; [vm_compute; reflexivity|].
  apply (processEnded_after_ready [] 0 (ex_ready (lit "READY")) ProcessDone PyProtocol
           (ex_ready_inv _)); vm_compute; reflexivity.
Defined.

Lemma processEnded_twice_witness :
  snd (processEnded ProcessDone (fst (processEnded ProcessDone (ex_init (lit "READY"))))) =
    Raise AlreadyCalledError.
Proof. apply (processEnded_twice [] 0), ex_init_inv. Defined.

End MagicTextProtocol.
