(* ===== verification/Reactor.v ===== *)
(** * The reactor side of one child process

    Twisted calls the protocol's handlers. The order and conditions in which
    it does so are part of what fow relies on, so this file models the parts
    of Twisted's POSIX process transport ([twisted.internet.process]) that
    decide them. It is a library model, not repository code:
    - a read on descriptor [fd] delivers data to [childDataReceived] while
      [fd] is still read. A handler that raises is logged ([log.err]) and
      loses that descriptor ([_doReadOrWrite], [_disconnectSelectable]).
    - [processEnded] is called once, when the child has been reaped and
      every pipe is closed ([maybeCallProcessEnded]), and the transport drops
      its protocol then.
    - reaping sets [transport.pid] to [None].
    - [signalProcess] raises [ProcessExitedAlready] when [pid] is [None], or
      when [os.kill] fails with [ESRCH].
    - [pytest_twisted.blockon(d)] runs the reactor until [d] has fired,
      returns or raises its result, and leaves [None] in [d].

    The operating system is explicit. [os_events] holds what the child will
    make happen, in order: data on a descriptor, a descriptor closed, the
    child reaped. [os_kill] is the errno [os.kill] answers with, if any.
    Different interleavings across descriptors are different event lists. *)

From S2P Require Import Prelude Utf8 PyStr Deferred Protocol.
From stdpp Require Import base list gmap strings.
From Stdlib Require Import ZArith Lia.

Module Reactor.
Import Deferred PyStr MagicTextProtocol.

Inductive event : Type :=
| EvData (fd : Z) (data : list Z)      (** a read on descriptor [fd] returned [data] *)
| EvFdClosed (fd : Z)                  (** the child closed descriptor [fd] *)
| EvExit (reason : exit_reason).       (** SIGCHLD: the child was reaped *)

(** The process transport: [pid], [pipes], [lostProcess] with the exit
    status, and [proto] (whether the protocol is still attached). *)
Record transport := Transport {
  pid : option Z;
  pipes : list Z;
  lost : option exit_reason;
  attached : bool
}.

(** The operating system's side. *)
Record os := OS {
  os_events : list event;
  os_kill : option Z;
  os_signalled : list Z          (** the pids [os.kill] was called on, latest first *)
}.

Record rstate := RState {
  rs_ps : pstate;
  rs_tr : transport;
  rs_os : os;
  rs_logged : list exn           (** failures passed to [log.err] *)
}.

Definition ESRCH : Z := 3.

Definition on_ps {A} (m : PyM pstate A) : PyM rstate A :=
  focus rs_ps (fun ps s => RState ps (rs_tr s) (rs_os s) (rs_logged s)) m.
Definition get_tr : PyM rstate transport := fun s => (s, Ok (rs_tr s)).
Definition put_tr (t : transport) : PyM rstate unit :=
  fun s => (RState (rs_ps s) t (rs_os s) (rs_logged s), Ok tt).
Definition put_os (o : os) : PyM rstate unit :=
  fun s => (RState (rs_ps s) (rs_tr s) o (rs_logged s), Ok tt).
Definition log_err (e : exn) : PyM rstate unit :=
  fun s => (RState (rs_ps s) (rs_tr s) (rs_os s) (rs_logged s ++ [e]), Ok tt).

(** Run [m]; log an exception it raises instead of propagating it. *)
Definition catch_log (m : PyM rstate unit) : PyM rstate unit :=
  fun s => match m s with
           | (s', Raise e) => log_err e s'
           | r => r
           end.

(** [Process.maybeCallProcessEnded]: once every pipe is closed and the child
    is reaped, detach the protocol and call its [processEnded]. An exception
    from it is logged. *)
Definition maybeCallProcessEnded : PyM rstate unit :=
  t <- get_tr ;;
  match pipes t, lost t with
  | [], Some reason =>
      if attached t then
        put_tr (Transport (pid t) [] (lost t) false) ;;
        catch_log (on_ps (processEnded reason))
      else ret tt
  | _, _ => ret tt
  end.

(** [Process.childConnectionLost]: stop reading [fd]. *)
Definition childConnectionLost (fd : Z) : PyM rstate unit :=
  t <- get_tr ;;
  put_tr (Transport (pid t) (filter (fun x => x <> fd) (pipes t)) (lost t) (attached t)) ;;
  maybeCallProcessEnded.

(** Deliver one event. *)
Definition dispatch (ev : event) : PyM rstate unit :=
  match ev with
  | EvData fd data =>
      t <- get_tr ;;
      if bool_decide (fd ∈ pipes t) && attached t then
        fun s => match on_ps (childDataReceived fd data) s with
                 | (s', Raise e) => (log_err e ;; childConnectionLost fd) s'
                 | r => r
                 end
      else ret tt
  | EvFdClosed fd =>
      t <- get_tr ;;
      if bool_decide (fd ∈ pipes t) then childConnectionLost fd else ret tt
  | EvExit reason =>
      t <- get_tr ;;
      put_tr (Transport None (pipes t) (Some reason) (attached t)) ;;
      maybeCallProcessEnded
  end.

(** One turn of the reactor: deliver the next event, if there is one. *)
Definition run_one : PyM rstate bool :=
  fun s =>
    match os_events (rs_os s) with
    | [] => (s, Ok false)
    | ev :: rest =>
        let o := rs_os s in
        bind (put_os (OS rest (os_kill o) (os_signalled o))) (fun _ => dispatch ev ;; ret true) s
    end.

(** [pytest_twisted.blockon(d)]: run the reactor until [d] has fired, then
    return its result or raise its failure. With no event left to deliver
    it waits forever. Each turn consumes an event, so the fuel [length
    os_events] is enough. *)
Fixpoint blockon_loop (fuel : nat) (l : loc) : PyM rstate pyval :=
  fun s =>
    match result_of (ps_heap (rs_ps s)) l with
    | Some (Success v) => (s, Ok v)
    | Some (Failure e) => (s, Raise e)
    | None =>
        match fuel, os_events (rs_os s) with
        | S fuel', _ :: _ => bind run_one (fun _ => blockon_loop fuel' l) s
        | _, _ => (s, Hang)
        end
    end.

(** [pytest_twisted.blockon(d)] ([blockon_default]): [d.addCallbacks(cb,
    cb)], a switch to the reactor until [cb] has run, then the failure
    raised or the result returned. [cb] is the last callback of [d]: it runs
    when [d] fires, in the turn that fires it, and nothing reads [d] before
    [blockon] checks it at the end of that turn. So the model waits with
    [blockon_loop] and then applies [cb]'s effect, [drop_result]: [d] holds
    [None]. If [d] never fires, [blockon] never returns. *)
Definition blockon (l : loc) : PyM rstate pyval :=
  fun s =>
    match blockon_loop (length (os_events (rs_os s))) l s with
    | (s', Hang) => (s', Hang)
    | (s', r) => (fst (on_ps (on_heap (drop_result l)) s'), r)
    end.

(** [Process.signalProcess(signalID)]. *)
Definition signalProcess : PyM rstate unit :=
  t <- get_tr ;;
  match pid t with
  | None => raise ProcessExitedAlready
  | Some p =>
      fun s =>
        let o := rs_os s in
        let s' := RState (rs_ps s) (rs_tr s) (OS (os_events o) (os_kill o) (p :: os_signalled o))
                         (rs_logged s) in
        match os_kill o with
        | None => (s', Ok tt)
        | Some errno =>
            if Z.eqb errno ESRCH then (s', Raise ProcessExitedAlready)
            else (s', Raise (OSError errno))
        end
  end.


(** [reactor.run] for [n] turns. *)
Fixpoint run_steps (n : nat) : PyM rstate unit :=
  match n with
  | O => ret tt
  | S n' => _ <- run_one ;; run_steps n'
  end.

(** ** The reactor invariant *)

Record rinv (cbs0 : list (pyval -> pyval)) (ms0 : loc) (s : rstate) : Prop := {
  rinv_ps : inv cbs0 ms0 (rs_ps s);
  rinv_attached :
    is_pending (ps_heap (rs_ps s)) (exited (ps_proto (rs_ps s))) = attached (rs_tr s);
  rinv_detached : attached (rs_tr s) = false -> pid (rs_tr s) = None /\ pipes (rs_tr s) = [];
  rinv_lost : lost (rs_tr s) <> None -> pid (rs_tr s) = None
}.

(** A step of the reactor returns normally, leaves [exited] where it is and
    the OS's side alone, and never re-attaches the protocol. *)
Definition step_ok {A} (s : rstate) (res : rstate * res A) : Prop :=
  (exists a, snd res = Ok a) /\
  exited (ps_proto (rs_ps (fst res))) = exited (ps_proto (rs_ps s)) /\
  (attached (rs_tr s) = false -> attached (rs_tr (fst res)) = false) /\
  rs_os (fst res) = rs_os s.

(** Once every pipe is closed and the child is reaped, the protocol has
    been detached: [maybeCallProcessEnded] runs at each of those events. *)
Definition ended_ok (tr : transport) : Prop :=
  pipes tr = [] -> lost tr <> None -> attached tr = false.

(** How one event moves the transport: pipes only close, a reaped child
    stays reaped, [EvFdClosed fd] closes [fd], [EvExit] reaps, and
    [ended_ok] is kept. *)
Definition tr_step (ev : event) (tr tr' : transport) : Prop :=
  (forall x, x ∈ pipes tr' -> x ∈ pipes tr) /\ (lost tr <> None -> lost tr' <> None) /\
  (forall fd, ev = EvFdClosed fd -> fd ∉ pipes tr') /\
  (forall r, ev = EvExit r -> lost tr' <> None) /\ ended_ok tr' /\
  ((forall r, ev <> EvExit r) -> lost tr' = lost tr) /\
  (attached tr = true -> attached tr' = false -> lost tr' <> None).

(** The chunks the child writes on stdout, in order. *)
Definition stdout_chunks (evs : list event) : list (list Z) :=
  omap (fun ev => match ev with
                  | EvData fd d => if (fd =? 1)%Z then Some d else None
                  | _ => None
                  end) evs.

(** A read on some descriptor whose data decodes if the protocol decodes it. *)
Definition data_event (ev : event) : Prop :=
  exists fd d, ev = EvData fd d /\ ((fd = 1 \/ fd = 2)%Z -> exists t, Utf8.decode d = Ok t).

(** What a read prints on the test's [sys.stdout], besides the "Saw" line:
    stdout text when [print_logs] is set, stderr text always, nothing for
    other descriptors or for a descriptor the transport no longer reads. *)
Definition shown (pl : bool) (fds : list Z) (ev : event) : list out_item :=
  match ev with
  | EvData fd d =>
      if bool_decide (fd ∈ fds) then
        match Utf8.decode d with
        | Ok t => if (fd =? 1)%Z then (if pl then [OutText t] else [])
                  else if (fd =? 2)%Z then [OutText t] else []
        | _ => []
        end
      else []
  | _ => []
  end.

(** ** Where the "Saw" line goes

    The reference: the stdout texts [ts] are appended to the buffer [buf]
    in order, and the marker first occurs once the [k]-th of them is in
    ([marker_at]). [echoes] is what [print_logs] echoes of some texts. *)
Definition echoes (pl : bool) (ts : list (list Z)) : list out_item :=
  if pl then map OutText ts else [].

Definition marker_at (magic buf : list Z) (ts : list (list Z)) (k : nat) : Prop :=
  (k < length ts)%nat /\ contains magic (buf ++ concat (take (S k) ts)) = true /\
  forall j, (j < k)%nat -> contains magic (buf ++ concat (take (S j) ts)) = false.

(** The index [marker_at] names, computed. *)
Fixpoint first_hit (magic buf : list Z) (ts : list (list Z)) : option nat :=
  match ts with
  | [] => None
  | t :: ts' => if contains magic (buf ++ t) then Some 0%nat else S <$> first_hit magic (buf ++ t) ts'
  end.

(** The reference output: the echoes, with the "Saw" line right after the
    text that completes the marker. *)
Definition saw_placed (pl : bool) (magic buf : list Z) (ts : list (list Z)) : list out_item :=
  match first_hit magic buf ts with
  | Some k => echoes pl (take (S k) ts) ++ [OutSaw magic] ++ echoes pl (drop (S k) ts)
  | None => echoes pl ts
  end.

(** ** A running child, for the examples

    The protocol as [__init__] builds it, attached to a transport that reads
    descriptors 1, 2 and 3 of the child with pid 4242. *)
Definition ex_rstate (magic : list Z) (evs : list event) : rstate :=
  RState (ex_init magic) (Transport (Some 4242) [1; 2; 3] None true)%Z (OS evs None []) [].

(** The marker's two halves on stdout, with stderr and the log between. *)
Definition ex_events : list event :=
  [EvData 1 (lit "Star"); EvData 2 (lit "warning"); EvData 3 (lit "{}");
   EvData 1 (lit "ting reactor...")]%Z.
Definition ex_events_state : rstate := ex_rstate (lit "Starting reactor...") ex_events.

(** The child closes its pipes and is reaped, and the reactor delivers it. *)
Definition ex_after_exit : rstate :=
  fst (run_steps 4 (ex_rstate (lit "READY")
    [EvFdClosed 1; EvFdClosed 2; EvFdClosed 3; EvExit ProcessDone; EvData 1 (lit "READY")]%Z)).

Section Invariant.
Variable cbs0 : list (pyval -> pyval).

(** The invariant is about the protocol's state, the transport, and nothing
    else: the OS's side and the log may change freely. *)
Lemma rinv_os ms0 ps tr o o' lg lg' :
  rinv cbs0 ms0 (RState ps tr o lg) -> rinv cbs0 ms0 (RState ps tr o' lg').
Proof. intros []. by split. Qed.

Lemma rinv_maybeCallProcessEnded ms0 s :
  rinv cbs0 ms0 s -> rinv cbs0 ms0 (fst (maybeCallProcessEnded s)).
Proof.
  destruct s as [ps [pd pp lo att] o lg]. intros Hr.
  unfold maybeCallProcessEnded, get_tr, put_tr. py_unfold. simpl.
  destruct pp as [|? ?]; [|done]. destruct lo as [r|]; [|done].
  destruct att eqn:Hat; [|done]. simpl.
  pose proof (rinv_attached _ _ _ Hr) as Hex. simpl in Hex.
  destruct (processEnded_fires_exited cbs0 ms0 r ps (rinv_ps _ _ _ Hr) Hex) as (Hok & Hsame & Hfired).
  unfold catch_log, on_ps, focus. simpl.
  destruct (processEnded r ps) as [ps' res] eqn:E. simpl in *. subst res.
  pose proof (inv_processEnded cbs0 ms0 r ps (rinv_ps _ _ _ Hr)) as Hi'. rewrite E in Hi'.
  split; simpl.
  - exact Hi'.
  - by rewrite Hsame, Hfired.
  - intros _. split; [|done]. by apply (rinv_lost _ _ _ Hr).
  - intros _. by apply (rinv_lost _ _ _ Hr).
Qed.

Lemma rinv_childConnectionLost ms0 fd s :
  rinv cbs0 ms0 s -> rinv cbs0 ms0 (fst (childConnectionLost fd s)).
Proof.
  intros Hr. unfold childConnectionLost, get_tr, put_tr. py_unfold. simpl.
  apply rinv_maybeCallProcessEnded. destruct s as [ps [pd pp lo att] o lg], Hr as [? ? Hd ?].
  split; simpl in *; try done.
  intros Hat. destruct (Hd Hat) as [-> ->]. done.
Qed.

(** A data handler keeps the reactor invariant, whatever it returns. *)
Lemma rinv_after_data ms0 fd data ps tr o lg :
  rinv cbs0 ms0 (RState ps tr o lg) ->
  rinv cbs0 ms0 (RState (fst (childDataReceived fd data ps)) tr o lg).
Proof.
  intros [Hi Ha ? ?]. simpl in *.
  destruct (childDataReceived_frame cbs0 ms0 fd data ps Hi) as (He & Hp & _).
  split; simpl; try done; [by apply handler_inv_data|].
  by rewrite He, Hp.
Qed.

Lemma rinv_dispatch ms0 ev s : rinv cbs0 ms0 s -> rinv cbs0 ms0 (fst (dispatch ev s)).
Proof.
  intros Hr. destruct ev as [fd data|fd|reason]; simpl; unfold get_tr; py_unfold.
  - destruct (bool_decide (fd ∈ pipes (rs_tr s)) && attached (rs_tr s)); [|done].
    destruct s as [ps tr o lg].
    pose proof (rinv_after_data ms0 fd data ps tr o lg Hr) as Hr'.
    unfold on_ps, focus. simpl.
    destruct (childDataReceived fd data ps) as [ps' [[]|e|]] eqn:E; simpl in *; try done.
    apply rinv_childConnectionLost. unfold log_err. simpl. by apply (rinv_os _ _ _ o _ lg).
  - case_bool_decide; [by apply rinv_childConnectionLost|done].
  - unfold put_tr. simpl. apply rinv_maybeCallProcessEnded.
    destruct s as [ps [pd pp lo att] o lg], Hr as [? ? Hd ?]. split; simpl in *; try done.
    intros Hat. destruct (Hd Hat) as [_ ->]. done.
Qed.

Lemma rinv_run_one ms0 s : rinv cbs0 ms0 s -> rinv cbs0 ms0 (fst (run_one s)).
Proof.
  intros Hr. unfold run_one. destruct (os_events (rs_os s)) as [|ev rest]; [done|].
  unfold put_os. py_unfold. simpl.
  destruct (dispatch ev _) as [s' [[]|e|]] eqn:E; simpl;
  pose proof (rinv_dispatch ms0 ev (RState (rs_ps s) (rs_tr s) (OS rest (os_kill (rs_os s))
    (os_signalled (rs_os s))) (rs_logged s))) as Hd; rewrite E in Hd; apply Hd;
  destruct s as [ps tr o lg]; by apply (rinv_os _ _ _ o _ lg).
Qed.


(** ** Delivering data *)

Lemma dispatch_data_Ok fd data ps tr o lg ps' :
  attached tr = true -> fd ∈ pipes tr ->
  childDataReceived fd data ps = (ps', Ok tt) ->
  dispatch (EvData fd data) (RState ps tr o lg) = (RState ps' tr o lg, Ok tt).
Proof.
  intros Ha Hin E. simpl. unfold get_tr. py_unfold. simpl.
  rewrite Ha, bool_decide_eq_true_2 by done. simpl. unfold on_ps, focus. simpl.
  by rewrite E.
Qed.

Lemma run_one_data fd data rest ps tr k sg lg ps' :
  attached tr = true -> fd ∈ pipes tr ->
  childDataReceived fd data ps = (ps', Ok tt) ->
  run_one (RState ps tr (OS (EvData fd data :: rest) k sg) lg) =
    (RState ps' tr (OS rest k sg) lg, Ok true).
Proof.
  intros Ha Hin E. unfold run_one, put_os.
  cbn [rs_os os_events os_kill os_signalled rs_ps rs_tr rs_logged].
  unfold mbind, pym_bind, bind at 1 2.
  rewrite (dispatch_data_Ok _ _ _ _ _ _ _ Ha Hin E). reflexivity.
Qed.

(** Data on a descriptor that is no longer read is never delivered. *)
Lemma dispatch_closed_fd fd data s :
  fd ∉ pipes (rs_tr s) -> dispatch (EvData fd data) s = (s, Ok tt).
Proof.
  intros Hn. simpl. unfold get_tr. py_unfold. simpl.
  by rewrite bool_decide_eq_false_2.
Qed.

(** A data handler on a descriptor other than 1 returns normally when the
    chunk decodes, and changes neither the protocol nor the Deferreds. *)
Lemma childDataReceived_other_Ok fd data ps :
  fd <> 1%Z -> (fd = 2%Z -> exists t, Utf8.decode data = Ok t) ->
  exists ps', childDataReceived fd data ps = (ps', Ok tt) /\
    ps_proto ps' = ps_proto ps /\ ps_heap ps' = ps_heap ps /\
    ps_stdout ps' = ps_stdout ps ++
      match Utf8.decode data with Ok t => if (fd =? 2)%Z then [OutText t] else [] | _ => [] end.
Proof.
  intros H1 H2. destruct ps as [p h o]. unfold childDataReceived.
  rewrite (proj2 (Z.eqb_neq _ _) H1). destruct (Z.eqb_spec fd 2) as [->|]; [|eexists].
  - destruct (H2 eq_refl) as [t Ht]. rewrite err_received_run, Ht. by eexists.
  - simpl. split_and!; [done..|]. destruct (Utf8.decode data); by rewrite app_nil_r.
Qed.

(** A run of data events, on any descriptors and in any interleaving,
    whose chunks decode where the protocol decodes them. The stdout text is
    appended, in order, to the protocol's buffer, and what the run prints
    besides "Saw" is what each read shows. The transport does not change,
    and neither do the marker and [_print_logs]. *)
Lemma data_events_run ms0 evs : forall ts s rest,
  rinv cbs0 ms0 s -> attached (rs_tr s) = true -> 1%Z ∈ pipes (rs_tr s) ->
  os_events (rs_os s) = evs ++ rest -> Forall data_event evs ->
  Forall2 (fun c t => Utf8.decode c = Ok t) (stdout_chunks evs) ts ->
  let '(s', r) := run_steps (length evs) s in
  r = Ok tt /\ os_events (rs_os s') = rest /\ rinv cbs0 ms0 s' /\ rs_tr s' = rs_tr s /\
  magic_text (ps_proto (rs_ps s')) = magic_text (ps_proto (rs_ps s)) /\
  getvalue (output (ps_proto (rs_ps s'))) = getvalue (output (ps_proto (rs_ps s))) ++ concat ts /\
  print_logs (ps_proto (rs_ps s')) = print_logs (ps_proto (rs_ps s)) /\
  texts (ps_stdout (rs_ps s')) =
    texts (ps_stdout (rs_ps s)) ++ flat_map (shown (print_logs (ps_proto (rs_ps s))) (pipes (rs_tr s))) evs.
Proof.
  induction evs as [|ev evs IH]; intros ts s rest Hr Ha Hin Hev Hdata Hall.
  - inversion Hall. simpl. rewrite !app_nil_r. by split_and!.
  - inversion Hdata as [|? ? (fd & c & -> & Hdec) Hdata']; subst.
    destruct s as [ps tr [evs0 k sg] lg]. simpl in Hev, Ha, Hin |- *. subst evs0.
    (* the state after this event, and the text it adds *)
    assert (exists ps' t0 ts',
      run_one (RState ps tr (OS (EvData fd c :: evs ++ rest) k sg) lg) =
        (RState ps' tr (OS (evs ++ rest) k sg) lg, Ok true) /\
      concat ts = t0 ++ concat ts' /\ Forall2 (fun c t => Utf8.decode c = Ok t) (stdout_chunks evs) ts' /\
      magic_text (ps_proto ps') = magic_text (ps_proto ps) /\
      getvalue (output (ps_proto ps')) = getvalue (output (ps_proto ps)) ++ t0 /\
      print_logs (ps_proto ps') = print_logs (ps_proto ps) /\
      texts (ps_stdout ps') = texts (ps_stdout ps) ++ shown (print_logs (ps_proto ps)) (pipes tr) (EvData fd c))
      as (ps' & t0 & ts' & Hstep & Hts & Hall' & Hm & Hout & Hpl & Htx).
    { simpl in Hall. destruct (Z.eqb_spec fd 1) as [->|Hfd].
      - inversion Hall as [|? t ? ts' Hd Hall']; subst.
        destruct (out_received_Ok cbs0 ms0 c t ps (rinv_ps _ _ _ Hr) Hd) as (Hok & Hout & Htx).
        destruct (childDataReceived_frame cbs0 ms0 1 c ps (rinv_ps _ _ _ Hr)) as (_ & _ & Hm & Hpl).
        change (childDataReceived 1 c ps) with (out_received c ps) in Hm, Hpl.
        destruct (out_received c ps) as [ps' r'] eqn:E. simpl in *. subst r'.
        exists ps', t, ts'. split_and!; try done.
        + by apply (run_one_data 1 c).
        + rewrite Htx. unfold shown, echo. by rewrite bool_decide_true, Hd.
      - destruct (decide (fd ∈ pipes tr)) as [Hfd'|Hfd'].
        + destruct (childDataReceived_other_Ok fd c ps Hfd (fun H => Hdec (or_intror H)))
            as (ps' & E & Hp & _ & Hst).
          exists ps', [], ts. rewrite Hp, app_nil_r. split_and!; try done.
          * by apply (run_one_data fd c).
          * unfold texts, shown. rewrite Hst, filter_app, bool_decide_true, (proj2 (Z.eqb_neq _ _) Hfd)
              by done.
            by destruct (Utf8.decode c), (fd =? 2)%Z.
        + exists ps, [], ts. rewrite app_nil_r. split_and!; try done.
          2: { unfold shown. by rewrite bool_decide_false, app_nil_r. }
          unfold run_one, put_os. cbn [rs_os os_events os_kill os_signalled rs_ps rs_tr rs_logged].
          unfold mbind, pym_bind, bind at 1 2. by rewrite dispatch_closed_fd. }
    assert (Hr' : rinv cbs0 ms0 (RState ps' tr (OS (evs ++ rest) k sg) lg)).
    { pose proof (rinv_run_one ms0 _ Hr) as H'. by rewrite Hstep in H'. }
    simpl. unfold mbind, pym_bind, bind at 1. rewrite Hstep.
    specialize (IH ts' _ rest Hr' Ha Hin eq_refl Hdata' Hall').
    destruct (run_steps (length evs) _) as [s' r]. simpl in *.
    destruct IH as (-> & Hev' & Hr'' & Htr & Hm' & Hout' & Hpl' & Htx').
    rewrite Hts, Hout', Hout, Hm', Hm, Htx', Htx, Hpl', Hpl.
    split_and!; try done; unfold shown in *; by rewrite ?app_assoc.
Qed.

Lemma stdout_chunks_map chunks : stdout_chunks (map (EvData 1) chunks) = chunks.
Proof. induction chunks as [|c chunks IH]; [done|]. simpl. by rewrite IH. Qed.

Lemma data_events_stdout chunks ts :
  Forall2 (fun c t => Utf8.decode c = Ok t) chunks ts -> Forall data_event (map (EvData 1) chunks).
Proof.
  induction 1 as [|c t chunks ts Hd _ IH]; constructor; [|done].
  exists 1%Z, c. split; [done|]. intros _. eauto.
Qed.

(** Chunks of stdout alone that each decode are appended, in order, to the
    protocol's buffer. *)
Lemma stdout_chunks_run ms0 chunks : forall ts s rest,
  rinv cbs0 ms0 s -> attached (rs_tr s) = true -> 1%Z ∈ pipes (rs_tr s) ->
  os_events (rs_os s) = map (EvData 1) chunks ++ rest ->
  Forall2 (fun c t => Utf8.decode c = Ok t) chunks ts ->
  let '(s', r) := run_steps (length chunks) s in
  r = Ok tt /\ os_events (rs_os s') = rest /\ rinv cbs0 ms0 s' /\ rs_tr s' = rs_tr s /\
  magic_text (ps_proto (rs_ps s')) = magic_text (ps_proto (rs_ps s)) /\
  getvalue (output (ps_proto (rs_ps s'))) = getvalue (output (ps_proto (rs_ps s))) ++ concat ts.
Proof.
  intros ts s rest Hr Ha Hin Hev Hall.
  rewrite <- (length_map (EvData 1) chunks).
  pose proof (data_events_run ms0 _ ts s rest Hr Ha Hin Hev (data_events_stdout _ _ Hall)) as Hrun.
  rewrite stdout_chunks_map in Hrun. specialize (Hrun Hall).
  destruct (run_steps _ s). tauto.
Qed.

(** C3: Readiness depends only on the text of stdout. It does not depend
    on how that text is cut into reads, nor on how those reads interleave
    with the reads of stderr and descriptor 3. Suppose the reactor delivers
    data events whose chunks decode. Then the stdout chunks, joined,
    decode to the joined texts. Readiness is pending exactly when that
    text, after what came before, does not contain the marker. The
    process is assumed still running. *)
Theorem readiness_any_interleaving ms0 s evs ts rest :
  rinv cbs0 ms0 s -> attached (rs_tr s) = true -> 1%Z ∈ pipes (rs_tr s) ->
  os_events (rs_os s) = evs ++ rest -> Forall data_event evs ->
  Forall2 (fun c t => Utf8.decode c = Ok t) (stdout_chunks evs) ts ->
  magic_text (ps_proto (rs_ps s)) <> [] ->
  Utf8.decode (concat (stdout_chunks evs)) = Ok (concat ts) /\
  let '(s', r) := run_steps (length evs) s in
  r = Ok tt /\
  is_pending (ps_heap (rs_ps s')) ms0 =
    negb (contains (magic_text (ps_proto (rs_ps s)))
                   (getvalue (output (ps_proto (rs_ps s))) ++ concat ts)).
Proof.
  intros Hr Ha Hin Hev Hdata Hall Hm. split; [by apply Utf8.decode_concat|].
  pose proof (data_events_run ms0 evs ts s rest Hr Ha Hin Hev Hdata Hall) as Hrun.
  destruct (run_steps (length evs) s) as [s' r].
  destruct Hrun as (-> & _ & Hr' & Htr & Hmt & Hout & _). split; [done|].
  rewrite <- Hmt, <- Hout. apply (readiness_iff_marker cbs0); [apply Hr'| |by left; rewrite Hmt].
  rewrite (rinv_attached _ _ _ Hr'), Htr. exact Ha.
Qed.


(** The stdout chunks of data events decode. *)
Lemma data_events_decode evs :
  Forall data_event evs -> exists ts, Forall2 (fun c t => Utf8.decode c = Ok t) (stdout_chunks evs) ts.
Proof.
  induction 1 as [|ev evs (fd & d & -> & Hd) _ [ts IH]]; [by exists []|].
  unfold stdout_chunks in *. simpl. destruct (Z.eqb_spec fd 1) as [->|]; [|by exists ts].
  destruct (Hd (or_introl eq_refl)) as [t Ht]. exists (t :: ts). by constructor.
Qed.

(** C17: What the test prints while the child runs. Suppose the reactor
    delivers reads that decode, in any interleaving. Then everything
    printed on the test's [sys.stdout], apart from the "Saw" line, is the
    reads' text in order. Stdout text is printed only when [print_logs] is
    set. Stderr text is printed even when it is not. Descriptor 3 prints
    nothing. "Saw" is printed at most once. *)
Theorem printed_transcript ms0 s evs rest :
  rinv cbs0 ms0 s -> attached (rs_tr s) = true -> 1%Z ∈ pipes (rs_tr s) ->
  os_events (rs_os s) = evs ++ rest -> Forall data_event evs ->
  let '(s', r) := run_steps (length evs) s in
  r = Ok tt /\
  texts (ps_stdout (rs_ps s')) =
    texts (ps_stdout (rs_ps s)) ++ flat_map (shown (print_logs (ps_proto (rs_ps s))) (pipes (rs_tr s))) evs /\
  count_saw (ps_stdout (rs_ps s')) <= 1.
Proof.
  intros Hr Ha Hin Hev Hdata. destruct (data_events_decode evs Hdata) as [ts Hall].
  pose proof (data_events_run ms0 evs ts s rest Hr Ha Hin Hev Hdata Hall) as Hrun.
  destruct (run_steps (length evs) s) as [s' r].
  destruct Hrun as (-> & _ & Hr' & _ & _ & _ & _ & Htx). split_and!; [done..|].
  apply (inv_count_saw cbs0 ms0), (rinv_ps _ _ _ Hr').
Qed.

(** ** Losing a descriptor *)

(** [maybeCallProcessEnded] never reopens a descriptor and only appends to
    the log. *)
Lemma maybeCallProcessEnded_mono fd s :
  fd ∉ pipes (rs_tr s) ->
  snd (maybeCallProcessEnded s) = Ok tt /\
  (fd ∉ pipes (rs_tr (fst (maybeCallProcessEnded s)))) /\
  rs_os (fst (maybeCallProcessEnded s)) = rs_os s /\
  (exists lg, rs_logged (fst (maybeCallProcessEnded s)) = rs_logged s ++ lg).
Proof.
  intros Hn. destruct s as [ps [pd pp lo att] o lg]. simpl in *.
  unfold maybeCallProcessEnded, get_tr, put_tr. py_unfold. simpl.
  destruct pp; [|simpl; split_and!; [done..|exists []; by rewrite app_nil_r]].
  destruct lo; [|simpl; split_and!; [done..|exists []; by rewrite app_nil_r]].
  destruct att; [|simpl; split_and!; [done..|exists []; by rewrite app_nil_r]].
  unfold catch_log, on_ps, focus, log_err. simpl.
  pose proof (processEnded_not_Hang e ps) as Hnh.
  destruct (processEnded e ps) as [ps' [[]|e'|]]; simpl in *; try done;
    (split_and!; [done|set_solver|done|]); [exists []|exists [e']]; by rewrite ?app_nil_r.
Qed.

Lemma rinv_run_steps ms0 n : forall s, rinv cbs0 ms0 s -> rinv cbs0 ms0 (fst (run_steps n s)).
Proof.
  induction n as [|n IH]; intros s Hr; [done|]. simpl. unfold mbind, pym_bind, bind.
  pose proof (rinv_run_one ms0 s Hr) as Hr1.
  destruct (run_one s) as [s1 [b|e|]]; simpl in *; [by apply IH|done|done].
Qed.

(** ** What one turn of the reactor keeps *)

Lemma maybeCallProcessEnded_ok ms0 s :
  rinv cbs0 ms0 s -> step_ok s (maybeCallProcessEnded s).
Proof.
  destruct s as [ps [pd pp lo att] o lg]. intros Hr.
  unfold maybeCallProcessEnded, get_tr, put_tr, step_ok. py_unfold. simpl.
  destruct pp; [|by split_and!; [eexists|..]].
  destruct lo as [r|]; [|by split_and!; [eexists|..]].
  destruct att eqn:Hat; [|by split_and!; [eexists|..]]. simpl.
  pose proof (rinv_attached _ _ _ Hr) as Hex. simpl in Hex.
  destruct (processEnded_fires_exited cbs0 ms0 r ps (rinv_ps _ _ _ Hr) Hex) as (Hok & Hsame & _).
  unfold catch_log, on_ps, focus. simpl.
  destruct (processEnded r ps) as [ps' res] eqn:E. simpl in *. subst res.
  by split_and!; [eexists|..].
Qed.

Lemma childConnectionLost_ok ms0 fd s :
  rinv cbs0 ms0 s -> step_ok s (childConnectionLost fd s).
Proof.
  intros Hr. destruct s as [ps [pd pp lo att] o lg].
  unfold childConnectionLost, get_tr, put_tr. py_unfold. simpl.
  set (s1 := RState ps (Transport pd (filter (fun x => x <> fd) pp) lo att) o lg).
  assert (Hr1 : rinv cbs0 ms0 s1).
  { destruct Hr as [? ? Hd ?]. split; simpl in *; try done.
    intros Hat. destruct (Hd Hat) as [-> ->]. done. }
  pose proof (maybeCallProcessEnded_ok ms0 s1 Hr1) as Hok.
  destruct (maybeCallProcessEnded s1) as [s2 r2]. exact Hok.
Qed.

Lemma dispatch_ok ms0 ev s : rinv cbs0 ms0 s -> step_ok s (dispatch ev s).
Proof.
  intros Hr. destruct ev as [fd data|fd|reason]; simpl; unfold get_tr; py_unfold.
  - destruct (bool_decide (fd ∈ pipes (rs_tr s)) && attached (rs_tr s)) eqn:Hg;
      [|by split_and!; [eexists|..]].
    destruct s as [ps tr o lg]. unfold on_ps, focus. simpl.
    destruct (childDataReceived_frame cbs0 ms0 fd data ps (rinv_ps _ _ _ Hr)) as (He & _).
    pose proof (childDataReceived_not_Hang fd data ps) as Hnh.
    pose proof (rinv_after_data ms0 fd data ps tr o lg Hr) as Hr'.
    destruct (childDataReceived fd data ps) as [ps' [[]|e|]] eqn:E; simpl in *; try done;
      [by split_and!; [eexists|..]|].
    unfold log_err. simpl.
    pose proof (childConnectionLost_ok ms0 fd (RState ps' tr o (lg ++ [e]))
                  (rinv_os _ _ _ o o lg _ Hr')) as Hok.
    destruct (childConnectionLost fd _) as [s2 r2]. unfold step_ok in *. simpl in *.
    by rewrite <- He.
  - case_bool_decide; [by apply (childConnectionLost_ok ms0)|by split_and!; [eexists|..]].
  - unfold put_tr. simpl.
    set (s1 := RState (rs_ps s) (Transport None (pipes (rs_tr s)) (Some reason) (attached (rs_tr s)))
                      (rs_os s) (rs_logged s)).
    assert (Hr1 : rinv cbs0 ms0 s1).
    { destruct s as [ps [pd pp lo att] o lg], Hr as [? ? Hd ?]. split; simpl in *; try done.
      intros Hat. destruct (Hd Hat) as [_ ->]. done. }
    pose proof (maybeCallProcessEnded_ok ms0 s1 Hr1) as Hok.
    destruct (maybeCallProcessEnded s1) as [s2 r2]. exact Hok.
Qed.

Lemma run_one_ok ms0 s : rinv cbs0 ms0 s ->
  (exists b, snd (run_one s) = Ok b) /\
  exited (ps_proto (rs_ps (fst (run_one s)))) = exited (ps_proto (rs_ps s)) /\
  (attached (rs_tr s) = false -> attached (rs_tr (fst (run_one s))) = false) /\
  rs_os (fst (run_one s)) =
    OS (List.tl (os_events (rs_os s))) (os_kill (rs_os s)) (os_signalled (rs_os s)).
Proof.
  intros Hr. unfold run_one. destruct (os_events (rs_os s)) as [|ev rest] eqn:Ev.
  { split_and!; [by eexists|done|done|]. destruct s as [? ? [] ?]. simpl in *. by subst. }
  unfold put_os. py_unfold. simpl.
  set (s1 := RState (rs_ps s) (rs_tr s) (OS rest (os_kill (rs_os s)) (os_signalled (rs_os s)))
                    (rs_logged s)).
  assert (Hr1 : rinv cbs0 ms0 s1) by (destruct s; by apply (rinv_os _ _ _ rs_os0 _ rs_logged0)).
  pose proof (dispatch_ok ms0 ev s1 Hr1) as Hok.
  destruct (dispatch ev s1) as [s2 [[]|e|]]; unfold step_ok in *; simpl in *;
    destruct Hok as ([a Ha] & He & Ha' & Ho); try done.
  split_and!; [by eexists|done|done|done].
Qed.

Lemma run_steps_S n s s1 b :
  run_one s = (s1, Ok b) -> run_steps (S n) s = run_steps n s1.
Proof. intros E. simpl. unfold mbind, pym_bind, bind. by rewrite E. Qed.

(** *** [first_hit] computes [marker_at] *)

Lemma concat_take_S_cons (t : list Z) ts k : concat (take (S k) (t :: ts)) = t ++ concat (take k ts).
Proof. done. Qed.

Lemma first_hit_Some magic ts : forall buf k, first_hit magic buf ts = Some k -> marker_at magic buf ts k.
Proof.
  induction ts as [|t ts IH]; intros buf k H; [done|]. simpl in H.
  destruct (contains magic (buf ++ t)) eqn:Ec.
  - injection H as <-. split_and!; [simpl; lia| |lia]. by rewrite concat_take_S_cons, take_0, app_nil_r.
  - destruct (first_hit magic (buf ++ t) ts) as [k'|] eqn:Ek; simplify_eq/=.
    destruct (IH _ _ Ek) as (Hlt & Hin & Hmin). split_and!; [simpl; lia|by rewrite concat_take_S_cons, app_assoc|].
    intros [|j] Hj; [by rewrite concat_take_S_cons, take_0, app_nil_r|].
    rewrite concat_take_S_cons, app_assoc. apply Hmin. lia.
Qed.

Lemma first_hit_None magic ts : forall buf, first_hit magic buf ts = None ->
  forall k, (k < length ts)%nat -> contains magic (buf ++ concat (take (S k) ts)) = false.
Proof.
  induction ts as [|t ts IH]; intros buf H k Hk; [simpl in Hk; lia|]. simpl in H.
  destruct (contains magic (buf ++ t)) eqn:Ec; [done|].
  destruct (first_hit magic (buf ++ t) ts) eqn:Ek; [done|].
  destruct k as [|k]; [by rewrite concat_take_S_cons, take_0, app_nil_r|].
  rewrite concat_take_S_cons, app_assoc. apply IH; [done|simpl in Hk; lia].
Qed.

Lemma marker_at_first_hit magic buf ts k : marker_at magic buf ts k -> first_hit magic buf ts = Some k.
Proof.
  intros Hk. destruct (first_hit magic buf ts) as [k'|] eqn:E.
  - destruct (first_hit_Some _ _ _ _ E) as (_ & Hin' & Hmin'). destruct Hk as (_ & Hin & Hmin).
    destruct (decide (k = k')) as [->|Hne]; [done|].
    destruct (decide (k < k')%nat); [rewrite Hmin' in Hin|rewrite Hmin in Hin']; done || lia.
  - destruct Hk as (Hlt & Hin & _). by rewrite (first_hit_None _ _ _ E k Hlt) in Hin.
Qed.

Lemma echoes_cons pl t ts : echoes pl (t :: ts) = (if pl then [OutText t] else []) ++ echoes pl ts.
Proof. by destruct pl. Qed.

Lemma saw_placed_miss pl magic buf t ts :
  contains magic (buf ++ t) = false ->
  saw_placed pl magic buf (t :: ts) = echoes pl [t] ++ saw_placed pl magic (buf ++ t) ts.
Proof.
  intros Ec. unfold saw_placed. simpl. rewrite Ec.
  destruct (first_hit magic (buf ++ t) ts); simpl; rewrite echoes_cons;
    [rewrite !app_assoc|]; by destruct pl.
Qed.

(** Once readiness has fired, stdout reads are echoed and appended, and
    nothing else happens. *)
Lemma stdout_after_ready tr k sg lg rest :
  attached tr = true -> 1%Z ∈ pipes tr ->
  forall cs ts p h o, magic_seen p = None -> Forall2 (fun c t => Utf8.decode c = Ok t) cs ts ->
  exists p', run_steps (length cs) (RState (PState p h o) tr (OS (map (EvData 1) cs ++ rest) k sg) lg) =
    (RState (PState p' h (o ++ echoes (print_logs p) ts)) tr (OS rest k sg) lg, Ok tt).
Proof.
  intros Ha Hin. induction cs as [|c cs IH]; intros ts p h o Hm Hall.
  - inversion Hall; subst. exists p. unfold echoes. by destruct (print_logs p); simpl; rewrite app_nil_r.
  - inversion Hall as [|? t ? ts' Hd Hall']; subst.
    pose proof (out_received_nofire c t p h o Hd (or_introl Hm)) as E.
    cbn [map app length]. rewrite (run_steps_S _ _ _ _ (run_one_data 1 c _ _ tr k sg lg _ Ha Hin E)).
    destruct (IH ts' (set_output (stringio_write (output p) t) p) h (o ++ echo p t) Hm Hall')
      as (p' & ->).
    exists p'. rewrite <- app_assoc, echoes_cons. unfold echo. simpl. by destruct (print_logs p).
Qed.

(** Until readiness fires, each stdout read is echoed, and the read that
    completes the marker is followed by "Saw". *)
Lemma stdout_until_ready tr k sg lg rest :
  attached tr = true -> 1%Z ∈ pipes tr ->
  forall cs ts p h o d cbs, magic_seen p = Some d -> cells h !! d = Some (Pending cbs) ->
  Forall2 (fun c t => Utf8.decode c = Ok t) cs ts ->
  exists p' h', run_steps (length cs) (RState (PState p h o) tr (OS (map (EvData 1) cs ++ rest) k sg) lg) =
    (RState (PState p' h' (o ++ saw_placed (print_logs p) (magic_text p) (getvalue (output p)) ts))
            tr (OS rest k sg) lg, Ok tt) /\
    (is_pending h' d = true <-> first_hit (magic_text p) (getvalue (output p)) ts = None).
Proof.
  intros Ha Hin. induction cs as [|c cs IH]; intros ts p h o d cbs Hm Hc Hall.
  - inversion Hall; subst. exists p, h. unfold is_pending, saw_placed, echoes. rewrite Hc.
    destruct (print_logs p); simpl; rewrite app_nil_r; by split.
  - inversion Hall as [|? t ? ts' Hd Hall']; subst. cbn [map app length].
    destruct (contains (magic_text p) (getvalue (output p) ++ t)) eqn:Ec.
    + pose proof (out_received_fire c t p h o d cbs Hd Hm Hc Ec) as E.
      rewrite (run_steps_S _ _ _ _ (run_one_data 1 c _ _ tr k sg lg _ Ha Hin E)).
      destruct (stdout_after_ready tr k sg lg rest Ha Hin cs ts'
        (set_magic_seen None (set_output (stringio_write (output p) t) p)) (set_cell d (Fired (run_chain cbs (Success PyProtocol))) h) (o ++ echo p t ++ [OutSaw (magic_text p)])
        eq_refl Hall') as (p' & ->).
      exists p', (set_cell d (Fired (run_chain cbs (Success PyProtocol))) h).
      unfold saw_placed. simpl. rewrite Ec. split.
      * rewrite <- !app_assoc. unfold echo, echoes. simpl. by destruct (print_logs p).
      * unfold is_pending. simpl. rewrite lookup_insert_eq. done.
    + pose proof (out_received_nofire c t p h o Hd (or_intror Ec)) as E.
      rewrite (run_steps_S _ _ _ _ (run_one_data 1 c _ _ tr k sg lg _ Ha Hin E)).
      destruct (IH ts' (set_output (stringio_write (output p) t) p) h (o ++ echo p t) d cbs Hm Hc Hall')
        as (p' & h' & -> & Hp).
      exists p', h'. rewrite saw_placed_miss by done. simpl. rewrite Ec. split.
      * rewrite <- app_assoc. unfold echo, echoes. by destruct (print_logs p).
      * rewrite Hp. by destruct (first_hit _ _ ts').
Qed.

(** C4: Where "Saw" is printed. Take a running child, readiness pending,
    and reads on stdout that decode. The incremental test of [out_received]
    (is the marker in the whole buffer, after each read?) prints exactly
    what the reference says. Let [k] be the first read after which the
    buffer contains the marker ([marker_at]). Then the test prints the
    echoes of reads 0..k, then "Saw" once, then the echoes of the later
    reads, and readiness has fired. If no read completes the marker,
    only the echoes are printed and readiness is still pending. *)
Theorem saw_follows_completing_read ms0 s chunks ts rest :
  rinv cbs0 ms0 s -> attached (rs_tr s) = true -> 1%Z ∈ pipes (rs_tr s) ->
  os_events (rs_os s) = map (EvData 1) chunks ++ rest ->
  Forall2 (fun c t => Utf8.decode c = Ok t) chunks ts ->
  is_pending (ps_heap (rs_ps s)) ms0 = true ->
  let p := ps_proto (rs_ps s) in
  let '(s', r) := run_steps (length chunks) s in
  r = Ok tt /\
  (forall k, marker_at (magic_text p) (getvalue (output p)) ts k ->
     ps_stdout (rs_ps s') = ps_stdout (rs_ps s) ++ echoes (print_logs p) (take (S k) ts) ++
                              [OutSaw (magic_text p)] ++ echoes (print_logs p) (drop (S k) ts) /\
     is_pending (ps_heap (rs_ps s')) ms0 = false) /\
  ((forall k, (k < length ts)%nat ->
      contains (magic_text p) (getvalue (output p) ++ concat (take (S k) ts)) = false) ->
     ps_stdout (rs_ps s') = ps_stdout (rs_ps s) ++ echoes (print_logs p) ts /\
     is_pending (ps_heap (rs_ps s')) ms0 = true).
Proof.
  intros Hr Ha Hin Hev Hall Hp. pose proof (rinv_ps _ _ _ Hr) as Hi.
  destruct (inv_pending _ _ _ Hi) as [(Hm & _)|(_ & Hp')]; [|congruence].
  pose proof (inv_chain _ _ _ Hi Hp) as Hc.
  destruct s as [[p h o] tr [evs kl sg] lg]. simpl in *. subst evs.
  destruct (stdout_until_ready tr kl sg lg rest Ha Hin chunks ts p h o ms0 cbs0 Hm Hc Hall)
    as (p' & h' & -> & Hpend).
  unfold saw_placed in *. split_and!; [done| |].
  - intros k Hk. rewrite (marker_at_first_hit _ _ _ _ Hk) in *. split; [reflexivity|].
    cbn [rs_ps ps_heap]. destruct (is_pending h' ms0) eqn:Ep; [|done]. discriminate (proj1 Hpend eq_refl).
  - intros Hnone. destruct (first_hit (magic_text p) (getvalue (output p)) ts) as [k|] eqn:E.
    + destruct (first_hit_Some _ _ _ _ E) as (Hlt & Hk & _). by rewrite Hnone in Hk.
    + split; [done|]. by apply Hpend.
Qed.

(** [exited] has fired exactly when the protocol is detached. *)
Lemma exited_result_cases ms0 s :
  rinv cbs0 ms0 s ->
  (attached (rs_tr s) = true /\ result_of (ps_heap (rs_ps s)) (exited (ps_proto (rs_ps s))) = None) \/
  (attached (rs_tr s) = false /\ exists v,
     result_of (ps_heap (rs_ps s)) (exited (ps_proto (rs_ps s))) = Some (Success v)).
Proof.
  intros Hr. pose proof (rinv_attached _ _ _ Hr) as Ha.
  pose proof (inv_exited_ok _ _ _ (rinv_ps _ _ _ Hr)) as Hok.
  destruct (inv_exited _ _ _ (rinv_ps _ _ _ Hr)) as [[cbs|[v|e]] Hc];
    unfold is_pending, result_of in *; rewrite Hc in Ha, Hok |- *.
  - by left.
  - right. split; [done|by eexists].
  - by destruct (Hok e).
Qed.

(** Liveness of [blockon(exited)]: if delivering the remaining OS events
    ends the process, [blockon] returns normally, in a state where the
    protocol is detached. *)
Lemma blockon_exited_returns ms0 fuel : forall s,
  rinv cbs0 ms0 s -> (length (os_events (rs_os s)) <= fuel)%nat ->
  attached (rs_tr (fst (run_steps (length (os_events (rs_os s))) s))) = false ->
  exists s' v, blockon_loop fuel (exited (ps_proto (rs_ps s))) s = (s', Ok v) /\
    rinv cbs0 ms0 s' /\ attached (rs_tr s') = false /\
    os_kill (rs_os s') = os_kill (rs_os s) /\ os_signalled (rs_os s') = os_signalled (rs_os s) /\
    exited (ps_proto (rs_ps s')) = exited (ps_proto (rs_ps s)).
Proof.
  induction fuel as [|fuel IH]; intros s Hr Hlen Hend;
    destruct (exited_result_cases ms0 s Hr) as [(Ha & Hnone)|(Ha & v & Hv)];
    simpl; rewrite ?Hnone, ?Hv; try by (do 2 eexists; split_and!).
  - destruct (os_events (rs_os s)); simpl in *; [congruence|lia].
  - destruct (os_events (rs_os s)) as [|ev rest] eqn:Ev; [simpl in *; congruence|].
    destruct (run_one_ok ms0 s Hr) as ([b Hb] & He & _ & Ho).
    pose proof (rinv_run_one ms0 s Hr) as Hr1.
    destruct (run_one s) as [s1 r1] eqn:E1. cbn [fst snd] in *. subst r1.
    unfold bind. rewrite E1.
    rewrite Ev in Ho. simpl in Ho.
    cbn [length] in Hend. rewrite (run_steps_S _ _ _ _ E1) in Hend.
    destruct (IH s1) as (s' & v & Hb' & Hr' & Ha' & Hk & Hs & Hx);
      [done|rewrite Ho; simpl in *; lia|by rewrite Ho|].
    rewrite He in Hb'. exists s', v. rewrite Hk, Hs, Ho, Hx. by split_and!.
Qed.

(** Once detached, the protocol stays detached. *)
Lemma detached_stays ms0 n : forall s, rinv cbs0 ms0 s -> attached (rs_tr s) = false ->
  attached (rs_tr (fst (run_steps n s))) = false.
Proof.
  induction n as [|n IHn]; intros s Hr Ha; [done|].
  destruct (run_one_ok ms0 s Hr) as ([b Hb] & _ & Ha1 & _).
  pose proof (rinv_run_one ms0 s Hr) as Hr1.
  destruct (run_one s) as [s1 r1] eqn:E1. cbn [fst snd] in *. subst r1.
  rewrite (run_steps_S _ _ _ _ E1). apply IHn; [done|by apply Ha1].
Qed.

(** Without an end of the process among the remaining OS events,
    [blockon(exited)] waits forever. *)
Lemma blockon_exited_hangs ms0 fuel : forall s,
  rinv cbs0 ms0 s ->
  attached (rs_tr (fst (run_steps (length (os_events (rs_os s))) s))) = true ->
  snd (blockon_loop fuel (exited (ps_proto (rs_ps s))) s) = Hang.
Proof.
  induction fuel as [|fuel IH]; intros s Hr Hend;
    destruct (exited_result_cases ms0 s Hr) as [(Ha & Hnone)|(Ha & v & Hv)];
    try (by rewrite (detached_stays ms0 _ s Hr Ha) in Hend).
  - simpl. by rewrite Hnone.
  - simpl. rewrite Hnone.
    destruct (os_events (rs_os s)) as [|ev rest] eqn:Ev; [done|].
    destruct (run_one_ok ms0 s Hr) as ([b Hb] & He & _ & Ho).
    pose proof (rinv_run_one ms0 s Hr) as Hr1.
    destruct (run_one s) as [s1 r1] eqn:E1. cbn [fst snd] in *. subst r1.
    unfold bind. rewrite E1.
    rewrite Ev in Ho. simpl in Ho.
    cbn [length] in Hend. rewrite (run_steps_S _ _ _ _ E1) in Hend.
    rewrite <- He. apply IH; [done|by rewrite Ho].
Qed.

(** ** The transport through a turn *)

Lemma maybeCallProcessEnded_tr s :
  let tr' := rs_tr (fst (maybeCallProcessEnded s)) in
  pid tr' = pid (rs_tr s) /\ pipes tr' = pipes (rs_tr s) /\ lost tr' = lost (rs_tr s) /\
  (attached (rs_tr s) = false -> attached tr' = false) /\ ended_ok tr' /\
  (attached tr' = false -> attached (rs_tr s) = false \/ lost (rs_tr s) <> None).
Proof.
  destruct s as [ps [pd pp lo att] o lg]. unfold maybeCallProcessEnded, get_tr, put_tr, ended_ok.
  py_unfold. simpl.
  destruct pp as [|x pp]; [|simpl; split_and!; try done; intros; by left].
  destruct lo as [r|]; [|simpl; split_and!; try done; intros; first [by left|congruence]].
  destruct att; [|simpl; split_and!; try done; intros; by left].
  unfold catch_log, on_ps, focus, log_err. simpl.
  destruct (processEnded r ps) as [ps' [|e'|]]; simpl; split_and!; try done; by right.
Qed.

Lemma childConnectionLost_tr fd s :
  let tr' := rs_tr (fst (childConnectionLost fd s)) in
  pid tr' = pid (rs_tr s) /\ pipes tr' = filter (fun x => x <> fd) (pipes (rs_tr s)) /\
  lost tr' = lost (rs_tr s) /\
  (attached (rs_tr s) = false -> attached tr' = false) /\ ended_ok tr' /\
  (attached tr' = false -> attached (rs_tr s) = false \/ lost (rs_tr s) <> None).
Proof.
  unfold childConnectionLost, get_tr, put_tr. py_unfold. simpl.
  apply (maybeCallProcessEnded_tr (RState (rs_ps s)
    (Transport (pid (rs_tr s)) (filter (fun x => x <> fd) (pipes (rs_tr s))) (lost (rs_tr s))
               (attached (rs_tr s))) (rs_os s) (rs_logged s))).
Qed.

Lemma tr_step_refl ev tr :
  ended_ok tr -> (forall fd, ev = EvFdClosed fd -> fd ∉ pipes tr) ->
  (forall r, ev = EvExit r -> lost tr <> None) -> tr_step ev tr tr.
Proof. intros. split_and!; try done. congruence. Qed.

Lemma dispatch_tr ev s :
  ended_ok (rs_tr s) -> tr_step ev (rs_tr s) (rs_tr (fst (dispatch ev s))).
Proof.
  intros Hend. destruct ev as [fd data|fd|reason]; simpl; unfold get_tr; py_unfold.
  - destruct (bool_decide (fd ∈ pipes (rs_tr s)) && attached (rs_tr s));
      [|by apply tr_step_refl].
    unfold on_ps, focus. simpl.
    destruct (childDataReceived fd data (rs_ps s)) as [ps' [[]|e|]]; simpl;
      try by apply tr_step_refl.
    unfold log_err. simpl.
    destruct (childConnectionLost_tr fd (RState ps' (rs_tr s) (rs_os s) (rs_logged s ++ [e])))
      as (_ & Hp & Hl & _ & He & Hd). simpl in *.
    split_and!; try done; try (intros x; rewrite Hp, list_elem_of_filter; naive_solver);
      try (intros; by rewrite Hl).
    intros Ha Ha'. destruct (Hd Ha') as [?|?]; [congruence|by rewrite Hl].
  - case_bool_decide as Hin; [|apply tr_step_refl; [done|by intros ? [= <-]|done]].
    destruct (childConnectionLost_tr fd s) as (_ & Hp & Hl & _ & He & Hd).
    split_and!; try done.
    + intros x. rewrite Hp, list_elem_of_filter. naive_solver.
    + by rewrite Hl.
    + intros ? [= <-]. rewrite Hp, list_elem_of_filter. naive_solver.
    + intros Ha Ha'. destruct (Hd Ha') as [?|?]; [congruence|by rewrite Hl].
  - unfold put_tr. simpl.
    destruct (maybeCallProcessEnded_tr (RState (rs_ps s)
      (Transport None (pipes (rs_tr s)) (Some reason) (attached (rs_tr s))) (rs_os s) (rs_logged s)))
      as (_ & Hp & Hl & _ & He & Hd). simpl in *.
    split_and!; try done; [by intros x; rewrite Hp|by rewrite Hl|by rewrite Hl| |].
    + intros Hn. by destruct (Hn reason).
    + intros _ _. by rewrite Hl.
Qed.

Lemma run_one_tr s ev rest :
  os_events (rs_os s) = ev :: rest -> ended_ok (rs_tr s) ->
  tr_step ev (rs_tr s) (rs_tr (fst (run_one s))).
Proof.
  intros Ev Hend. unfold run_one. rewrite Ev. unfold put_os. py_unfold. simpl.
  pose proof (dispatch_tr ev (RState (rs_ps s) (rs_tr s)
    (OS rest (os_kill (rs_os s)) (os_signalled (rs_os s))) (rs_logged s)) Hend) as H.
  destruct (dispatch ev _) as [s' [[]|e|]]; exact H.
Qed.

(** The transport stays [ended_ok] through reactor turns and [blockon]. *)
Lemma run_one_ended s : ended_ok (rs_tr s) -> ended_ok (rs_tr (fst (run_one s))).
Proof.
  intros Hend. destruct (os_events (rs_os s)) as [|ev rest] eqn:Ev.
  - unfold run_one. by rewrite Ev.
  - by destruct (run_one_tr s ev rest Ev Hend) as (_ & _ & _ & _ & ? & _).
Qed.

(** [blockon] keeps any property of the reactor's state that a turn
    keeps. *)
Lemma blockon_loop_keeps (R : rstate -> Prop) (HR : forall s, R s -> R (fst (run_one s))) fuel l :
  forall s, R s -> R (fst (blockon_loop fuel l s)).
Proof.
  induction fuel as [|fuel IH]; intros s H; simpl;
    destruct (result_of (ps_heap (rs_ps s)) l) as [[v|e]|]; try done;
    destruct (os_events (rs_os s)); try done.
  unfold mbind, pym_bind, bind. pose proof (HR s H) as H1.
  destruct (run_one s) as [s1 [b|e'|]]; simpl in *; try done. by apply IH.
Qed.

(** If the OS's remaining events reap the child and close every pipe still
    read, the protocol is detached once they have all been delivered. *)
Lemma detached_after_all ms0 evs : forall s,
  os_events (rs_os s) = evs -> rinv cbs0 ms0 s -> ended_ok (rs_tr s) ->
  (lost (rs_tr s) <> None \/ exists r, EvExit r ∈ evs) ->
  (forall fd, fd ∈ pipes (rs_tr s) -> EvFdClosed fd ∈ evs) ->
  attached (rs_tr (fst (run_steps (length evs) s))) = false.
Proof.
  induction evs as [|ev rest IH]; intros s Ev Hr Hend Hexit Hclosed.
  - simpl. apply Hend.
    + destruct (pipes (rs_tr s)) as [|x ?]; [done|]. exfalso.
      specialize (Hclosed x ltac:(set_solver)). set_solver.
    + destruct Hexit as [?|[r Hr']]; [done|set_solver].
  - destruct (run_one_ok ms0 s Hr) as ([b Hb] & _ & _ & Ho).
    pose proof (rinv_run_one ms0 s Hr) as Hr1.
    pose proof (run_one_tr s ev rest Ev Hend) as (Hsub & Hlost & Hfd & Hex & Hend1 & _ & _).
    destruct (run_one s) as [s1 r1] eqn:E1. cbn [fst snd] in *. subst r1.
    cbn [length]. rewrite (run_steps_S _ _ _ _ E1).
    apply IH; [by rewrite Ho, Ev|done|done| |].
    + destruct Hexit as [Hl|[r Hin]]; [left; by apply Hlost|].
      apply elem_of_cons in Hin as [<-|Hin]; [left; by apply (Hex r)|right; by exists r].
    + intros fd Hfd1. pose proof (Hclosed fd (Hsub fd Hfd1)) as Hc.
      apply elem_of_cons in Hc as [<-|Hc]; [|done].
      exfalso. by apply (Hfd fd).
Qed.

(** Without a reap among the OS's remaining events, the protocol stays
    attached through all of them. *)
Lemma stays_attached ms0 evs : forall s,
  os_events (rs_os s) = evs -> rinv cbs0 ms0 s -> ended_ok (rs_tr s) ->
  lost (rs_tr s) = None -> attached (rs_tr s) = true ->
  (forall r, EvExit r ∉ evs) ->
  attached (rs_tr (fst (run_steps (length evs) s))) = true.
Proof.
  induction evs as [|ev rest IH]; intros s Ev Hr Hend Hl Ha Hno; [done|].
  destruct (run_one_ok ms0 s Hr) as ([b Hb] & _ & _ & Ho).
  pose proof (rinv_run_one ms0 s Hr) as Hr1.
  pose proof (run_one_tr s ev rest Ev Hend) as (_ & _ & _ & _ & Hend1 & Hsame & Hdet).
  assert (Hl1 : lost (rs_tr (fst (run_one s))) = None).
  { rewrite Hsame; [done|]. intros r ->. apply (Hno r). set_solver. }
  destruct (run_one s) as [s1 r1] eqn:E1. cbn [fst snd] in *. subst r1.
  cbn [length]. rewrite (run_steps_S _ _ _ _ E1).
  apply IH; [by rewrite Ho, Ev|done|done|done| |].
  - destruct (attached (rs_tr s1)) eqn:Ha1; [done|]. by destruct (Hdet Ha eq_refl).
  - intros r Hin. apply (Hno r). set_solver.
Qed.

(** ** Which handler a reactor turn runs, and the heap it leaves *)

Lemma maybeCallProcessEnded_cases s :
  rs_ps (fst (maybeCallProcessEnded s)) = rs_ps s \/
  exists r, rs_ps (fst (maybeCallProcessEnded s)) = fst (processEnded r (rs_ps s)).
Proof.
  destruct s as [ps [pd pp lo att] o lg].
  unfold maybeCallProcessEnded, get_tr, put_tr, catch_log, on_ps, focus, log_err. py_unfold. simpl.
  destruct pp; [|by left]. destruct lo as [r|]; [|by left]. destruct att; [|by left].
  right. exists r. simpl. by destruct (processEnded r ps) as [ps' [|e|]].
Qed.

Lemma childConnectionLost_cases fd s :
  rs_ps (fst (childConnectionLost fd s)) = rs_ps s \/
  exists r, rs_ps (fst (childConnectionLost fd s)) = fst (processEnded r (rs_ps s)).
Proof.
  unfold childConnectionLost, get_tr, put_tr. py_unfold.
  apply (maybeCallProcessEnded_cases (RState _ _ _ _)).
Qed.

(** *** A property of the protocol's state that both kinds of handler keep
    is kept by every reactor turn *)

Section Preserve.
Context (P : pstate -> Prop) `{!HandlerInv P}.

Lemma ps_cases_preserves ps ps' : P ps -> (ps' = ps \/ exists r, ps' = fst (processEnded r ps)) -> P ps'.
Proof. intros H [->|[r ->]]; [done|by apply handler_inv_ended]. Qed.

Lemma dispatch_preserves ev s : P (rs_ps s) -> P (rs_ps (fst (dispatch ev s))).
Proof.
  intros H. destruct ev as [fd data|fd|reason]; simpl; unfold get_tr; py_unfold.
  - destruct (bool_decide (fd ∈ pipes (rs_tr s)) && attached (rs_tr s)); [|done].
    unfold on_ps, focus. simpl. pose proof (handler_inv_data fd data _ H) as H1.
    destruct (childDataReceived fd data (rs_ps s)) as [ps' [[]|e|]]; simpl in *; try done.
    unfold log_err. py_unfold. simpl.
    apply (ps_cases_preserves ps'), (childConnectionLost_cases fd (RState ps' _ _ _)). exact H1.
  - destruct (bool_decide (fd ∈ pipes (rs_tr s))); [|done].
    apply (ps_cases_preserves _ _ H), childConnectionLost_cases.
  - unfold put_tr. apply (ps_cases_preserves _ _ H), (maybeCallProcessEnded_cases (RState _ _ _ _)).
Qed.

Lemma run_one_preserves s : P (rs_ps s) -> P (rs_ps (fst (run_one s))).
Proof.
  intros H. unfold run_one. destruct (os_events (rs_os s)) as [|ev rest]; [done|].
  unfold put_os. py_unfold. simpl.
  pose proof (dispatch_preserves ev (RState (rs_ps s) (rs_tr s) (OS rest (os_kill (rs_os s))
    (os_signalled (rs_os s))) (rs_logged s)) H) as H'.
  destruct (dispatch ev _) as [s' [[]|e|]]; exact H'.
Qed.

Lemma run_steps_preserves n : forall s, P (rs_ps s) -> P (rs_ps (fst (run_steps n s))).
Proof.
  induction n as [|n IH]; intros s H; [done|]. simpl. unfold mbind, pym_bind, bind.
  pose proof (run_one_preserves s H) as H1.
  destruct (run_one s) as [s1 [b|e|]]; simpl in *; try done. by apply IH.
Qed.


End Preserve.

(** A read on descriptor 1 or 2 that does not decode makes the handler
    raise. Twisted logs the exception and stops reading that descriptor:
    every later read on it is dropped. *)
Lemma decode_error_closes_fd ms0 s fd data e rest :
  rinv cbs0 ms0 s -> attached (rs_tr s) = true -> fd ∈ pipes (rs_tr s) -> (fd = 1 \/ fd = 2)%Z ->
  os_events (rs_os s) = EvData fd data :: rest -> Utf8.decode data = Raise e ->
  let '(s', r) := run_one s in
  r = Ok true /\ os_events (rs_os s') = rest /\ fd ∉ pipes (rs_tr s') /\ e ∈ rs_logged s' /\
  ps_stdout (rs_ps s') = ps_stdout (rs_ps s) /\
  (forall data', dispatch (EvData fd data') s' = (s', Ok tt)).
Proof.
  intros Hr Ha Hin Hfd Hev Hd.
  destruct s as [ps [pd pp lo att] [evs k sg] lg]. simpl in *. subst evs att.
  pose proof (decode_error_no_effect fd _ _ ps Hd Hfd) as E.
  unfold run_one, put_os. cbn [rs_os os_events os_kill os_signalled rs_ps rs_tr rs_logged].
  unfold mbind, pym_bind, bind at 1 2. simpl. unfold get_tr. py_unfold. simpl.
  rewrite bool_decide_eq_true_2 by done. simpl. unfold on_ps, focus. simpl. rewrite E.
  unfold log_err, childConnectionLost, get_tr, put_tr. py_unfold. simpl.
  set (s1 := RState ps (Transport pd (filter (fun x => x <> fd) pp) lo true) (OS rest k sg) (lg ++ [e])).
  assert (Hn1 : fd ∉ pipes (rs_tr s1)) by (simpl; rewrite list_elem_of_filter; naive_solver).
  destruct (maybeCallProcessEnded_mono fd s1 Hn1) as (Hok & Hn2 & Hos & [lg' Hlg]).
  assert (Hst : ps_stdout (rs_ps (fst (maybeCallProcessEnded s1))) = ps_stdout ps)
    by (destruct (maybeCallProcessEnded_cases s1) as [->|[r ->]]; [done|apply processEnded_stdout]).
  destruct (maybeCallProcessEnded s1) as [s2 r2] eqn:E2. simpl in *. subst r2.
  split_and!; [done|by rewrite Hos|done|rewrite Hlg; set_solver|done|].
  intros data'. by apply dispatch_closed_fd.
Qed.

(** C8: A read on stdout that ends inside a multi-byte character makes
    [out_received] raise [UnicodeDecodeError]. Twisted logs it and stops
    reading descriptor 1, so every later stdout chunk is dropped and the
    marker can no longer be seen. *)
Theorem split_char_loses_stdout ms0 s pre c n rest :
  rinv cbs0 ms0 s -> attached (rs_tr s) = true -> 1%Z ∈ pipes (rs_tr s) ->
  os_events (rs_os s) = EvData 1 (Utf8.encode pre ++ take n (Utf8.encode_cp c)) :: rest ->
  Forall (fun c => Utf8.is_scalar c = true) pre -> Utf8.is_scalar c = true ->
  (0 < n < length (Utf8.encode_cp c))%nat ->
  let '(s', r) := run_one s in
  r = Ok true /\ os_events (rs_os s') = rest /\ (1%Z ∉ pipes (rs_tr s')) /\
  (UnicodeDecodeError (length (Utf8.encode pre)) ∈ rs_logged s') /\
  (forall data, dispatch (EvData 1 data) s' = (s', Ok tt)).
Proof.
  intros Hr Ha Hin Hev Hpre Hc Hn.
  pose proof (decode_error_closes_fd ms0 s 1 _ _ rest Hr Ha Hin (or_introl eq_refl) Hev
    (Utf8.decode_split_char pre c n Hpre Hc Hn)) as H.
  destruct (run_one s). tauto.
Qed.

(** C18: Undecodable stderr is lost for good. A read on stderr that is not
    valid UTF-8 makes [err_received] raise [UnicodeDecodeError]. Twisted
    logs it and stops reading descriptor 2, so nothing the child writes to
    stderr afterwards is echoed. The exception does not reach the test. *)
Theorem stderr_decode_error ms0 s data e rest :
  rinv cbs0 ms0 s -> attached (rs_tr s) = true -> 2%Z ∈ pipes (rs_tr s) ->
  os_events (rs_os s) = EvData 2 data :: rest -> Utf8.decode data = Raise e ->
  let '(s', r) := run_one s in
  r = Ok true /\ e ∈ rs_logged s' /\ 2%Z ∉ pipes (rs_tr s') /\
  ps_stdout (rs_ps s') = ps_stdout (rs_ps s) /\
  (forall data', dispatch (EvData 2 data') s' = (s', Ok tt)).
Proof.
  intros Hr Ha Hin Hev Hd.
  pose proof (decode_error_closes_fd ms0 s 2 data e rest Hr Ha Hin (or_intror eq_refl) Hev Hd) as H.
  destruct (run_one s) as [s' r]. destruct H as (-> & _ & Hn & Hl & Ho & Hdead). by split_and!.
Qed.


Lemma run_one_heap_le s : heap_le (ps_heap (rs_ps s)) (ps_heap (rs_ps (fst (run_one s)))).
Proof. by apply (run_one_preserves (fun ps => heap_le (ps_heap (rs_ps s)) (ps_heap ps))). Qed.

Lemma ps_cases_no_success ms0 ps ps' v :
  inv cbs0 ms0 ps -> result_of (ps_heap ps) ms0 = None ->
  (ps' = ps \/ exists r, ps' = fst (processEnded r ps)) ->
  result_of (ps_heap ps') ms0 <> Some (Success v).
Proof.
  intros Hi Hn [->|[r ->]]; [congruence|].
  rewrite (processEnded_fails_pending cbs0 ms0 r ps Hi (result_None_pending cbs0 ms0 ps Hi Hn)).
  congruence.
Qed.

(** One delivered event cannot both make the service ready and end it. *)
Lemma dispatch_no_jump ms0 ev s v :
  rinv cbs0 ms0 s -> result_of (ps_heap (rs_ps s)) ms0 = None ->
  result_of (ps_heap (rs_ps (fst (dispatch ev s)))) ms0 = Some (Success v) ->
  is_pending (ps_heap (rs_ps (fst (dispatch ev s)))) (exited (ps_proto (rs_ps (fst (dispatch ev s))))) = true.
Proof.
  intros Hr Hn. pose proof (rinv_ps _ _ _ Hr) as Hi.
  destruct ev as [fd data|fd|reason]; simpl; unfold get_tr; py_unfold.
  - destruct (bool_decide (fd ∈ pipes (rs_tr s)) && attached (rs_tr s)); [|simpl; intros; congruence].
    unfold on_ps, focus. simpl.
    destruct (childDataReceived_frame cbs0 ms0 fd data (rs_ps s) Hi) as (Hx & Hpx & _).
    destruct (childDataReceived fd data (rs_ps s)) as [ps' [[]|e|]] eqn:E; simpl in *.
    + intros _. rewrite Hx, Hpx. by apply (result_None_exited cbs0 ms0).
    + destruct (childDataReceived_Raise cbs0 ms0 fd data _ _ _ Hi E) as [-> _].
      unfold log_err. py_unfold. simpl. intros Hs. exfalso.
      refine (ps_cases_no_success ms0 (rs_ps s) _ v Hi Hn _ Hs).
      apply (childConnectionLost_cases fd (RState _ _ _ _)).
    + intros _. rewrite Hx, Hpx. by apply (result_None_exited cbs0 ms0).
  - destruct (bool_decide (fd ∈ pipes (rs_tr s))); [|simpl; intros; congruence].
    intros Hs. exfalso. refine (ps_cases_no_success ms0 (rs_ps s) _ v Hi Hn _ Hs).
    apply childConnectionLost_cases.
  - unfold put_tr. intros Hs. exfalso.
    refine (ps_cases_no_success ms0 (rs_ps s) _ v Hi Hn _ Hs).
    apply (maybeCallProcessEnded_cases (RState _ _ _ _)).
Qed.

Lemma run_one_no_jump ms0 s v :
  rinv cbs0 ms0 s -> result_of (ps_heap (rs_ps s)) ms0 = None ->
  result_of (ps_heap (rs_ps (fst (run_one s)))) ms0 = Some (Success v) ->
  is_pending (ps_heap (rs_ps (fst (run_one s)))) (exited (ps_proto (rs_ps (fst (run_one s))))) = true.
Proof.
  intros Hr Hn. unfold run_one. destruct (os_events (rs_os s)) as [|ev rest]; [simpl; congruence|].
  unfold put_os. py_unfold. simpl.
  set (s1 := RState (rs_ps s) (rs_tr s) (OS rest (os_kill (rs_os s)) (os_signalled (rs_os s))) (rs_logged s)).
  assert (Hr1 : rinv cbs0 ms0 s1) by (destruct s; by apply (rinv_os _ _ _ _ _ _ _ Hr)).
  pose proof (dispatch_no_jump ms0 ev s1 v Hr1 Hn) as H.
  destruct (dispatch ev s1) as [s' [[]|e|]]; exact H.
Qed.

Lemma ps_cases_frame ps ps' :
  (ps' = ps \/ exists r, ps' = fst (processEnded r ps)) -> proto_frame (ps_proto ps) (ps_proto ps').
Proof. intros [->|[r ->]]; [done|apply processEnded_frame]. Qed.

(** No reactor turn assigns [exited], [_magic_text] or [_print_logs]. *)
Lemma dispatch_frame ms0 ev s :
  rinv cbs0 ms0 s -> proto_frame (ps_proto (rs_ps s)) (ps_proto (rs_ps (fst (dispatch ev s)))).
Proof.
  intros Hr. pose proof (rinv_ps _ _ _ Hr) as Hi.
  destruct ev as [fd data|fd|reason]; simpl; unfold get_tr; py_unfold.
  - destruct (bool_decide (fd ∈ pipes (rs_tr s)) && attached (rs_tr s)); [|done].
    unfold on_ps, focus. simpl.
    destruct (childDataReceived_frame cbs0 ms0 fd data (rs_ps s) Hi) as (Hx & _ & Hm & Hp).
    destruct (childDataReceived fd data (rs_ps s)) as [ps' [[]|e|]] eqn:E; simpl in *;
      [by split_and!| |by split_and!].
    destruct (childDataReceived_Raise cbs0 ms0 fd data _ _ _ Hi E) as [-> _].
    unfold log_err. py_unfold. simpl.
    apply ps_cases_frame, (childConnectionLost_cases fd (RState _ _ _ _)).
  - destruct (bool_decide (fd ∈ pipes (rs_tr s))); [|done].
    apply ps_cases_frame, childConnectionLost_cases.
  - unfold put_tr. apply ps_cases_frame, (maybeCallProcessEnded_cases (RState _ _ _ _)).
Qed.

Lemma run_one_frame ms0 s :
  rinv cbs0 ms0 s -> proto_frame (ps_proto (rs_ps s)) (ps_proto (rs_ps (fst (run_one s)))).
Proof.
  intros Hr. unfold run_one. destruct (os_events (rs_os s)) as [|ev rest]; [done|].
  unfold put_os. py_unfold. simpl.
  set (s1 := RState (rs_ps s) (rs_tr s) (OS rest (os_kill (rs_os s)) (os_signalled (rs_os s))) (rs_logged s)).
  assert (Hr1 : rinv cbs0 ms0 s1) by (destruct s; by apply (rinv_os _ _ _ _ _ _ _ Hr)).
  pose proof (dispatch_frame ms0 ev s1 Hr1) as H.
  destruct (dispatch ev s1) as [s' [[]|e|]]; exact H.
Qed.

(** ** Settling under [blockon], and runs without stdout data *)
Lemma run_steps_heap_le n s :
  heap_le (ps_heap (rs_ps s)) (ps_heap (rs_ps (fst (run_steps n s)))).
Proof. by apply (run_steps_preserves (fun ps => heap_le (ps_heap (rs_ps s)) (ps_heap ps))). Qed.
Lemma run_steps_nil n s : os_events (rs_os s) = [] -> run_steps n s = (s, Ok tt).
Proof.
  intros Hn. induction n as [|n IH]; [done|].
  assert (E : run_one s = (s, Ok false)) by (unfold run_one; by rewrite Hn).
  by rewrite (run_steps_S _ _ _ _ E).
Qed.

(** [blockon(l)] returns what [l] holds after enough turns of the reactor. *)
(** [blockon(l)] returns what [l] holds after enough turns of the reactor,
    and stops at the first turn after which [l] has fired. *)
Lemma blockon_loop_settles ms0 l n : forall fuel s o,
  rinv cbs0 ms0 s -> (n <= fuel)%nat ->
  result_of (ps_heap (rs_ps (fst (run_steps n s)))) l = Some o ->
  exists m, (m <= n)%nat /\ blockon_loop fuel l s =
    (fst (run_steps m s), match o with Success v => Ok v | Failure e => Raise e end).
Proof.
  induction n as [|n IH]; intros fuel s o Hr Hn Ho.
  - exists 0%nat. split; [done|]. destruct fuel; simpl in *; rewrite Ho; by destruct o.
  - destruct fuel as [|fuel]; [lia|]. simpl.
    destruct (result_of (ps_heap (rs_ps s)) l) as [o'|] eqn:Eo.
    + rewrite (heap_le_result _ _ _ _ (run_steps_heap_le (S n) s) Eo) in Ho.
      simplify_eq. exists 0%nat. split; [lia|]. by destruct o.
    + destruct (os_events (rs_os s)) eqn:Ev.
      * rewrite (run_steps_nil _ _ Ev) in Ho. simpl in Ho. congruence.
      * destruct (run_one_ok ms0 s Hr) as ([b Hb] & _).
        pose proof (rinv_run_one ms0 s Hr) as Hr1.
        destruct (run_one s) as [s1 r1] eqn:E. simpl in Hb, Hr1. subst r1.
        rewrite (run_steps_S _ _ _ _ E) in Ho. unfold mbind, pym_bind, bind. rewrite E.
        destruct (IH fuel s1 o Hr1) as (m & Hm & Hb); [lia|done|].
        exists (S m). split; [lia|]. by rewrite (run_steps_S _ _ _ _ E).
Qed.

(** When [blockon(l)] returns a value, [l] holds it. *)
Lemma blockon_loop_Ok fuel l : forall s s' v,
  blockon_loop fuel l s = (s', Ok v) -> result_of (ps_heap (rs_ps s')) l = Some (Success v).
Proof.
  induction fuel as [|fuel IH]; intros s s' v H; simpl in H;
    destruct (result_of (ps_heap (rs_ps s)) l) as [[v'|e]|] eqn:E; simplify_eq; try done;
    destruct (os_events (rs_os s)); simplify_eq.
  unfold mbind, pym_bind, bind in H. destruct (run_one s) as [s1 [b|e'|]]; simplify_eq. eauto.
Qed.

(** [run_steps n] delivers the first [n] events and leaves [os.kill]'s
    answer and the signals sent alone. *)
Lemma run_steps_os ms0 n : forall s, rinv cbs0 ms0 s ->
  rs_os (fst (run_steps n s)) = OS (drop n (os_events (rs_os s))) (os_kill (rs_os s)) (os_signalled (rs_os s)).
Proof.
  induction n as [|n IH]; intros s Hr; [by destruct s as [? ? [] ?]|].
  destruct (run_one_ok ms0 s Hr) as ([b Hb] & _ & _ & Ho).
  pose proof (rinv_run_one ms0 s Hr) as Hr1.
  destruct (run_one s) as [s1 r1] eqn:E. simpl in Hb, Hr1, Ho. subst r1.
  rewrite (run_steps_S _ _ _ _ E), (IH s1 Hr1), Ho. simpl.
  destruct (os_events (rs_os s)); simpl; [by rewrite drop_nil|done].
Qed.
Lemma childDataReceived_other_heap fd data s :
  fd <> 1%Z -> ps_heap (fst (childDataReceived fd data s)) = ps_heap s.
Proof.
  intros Hfd. destruct s as [p h o]. unfold childDataReceived.
  rewrite (proj2 (Z.eqb_neq _ _) Hfd). destruct (Z.eqb fd 2); [|done].
  rewrite err_received_run. by destruct (Utf8.decode data).
Qed.

(** An event that is not data on stdout never resolves a pending
    readiness. *)
Lemma dispatch_not_stdout ms0 ev s v :
  rinv cbs0 ms0 s -> (forall data, ev <> EvData 1 data) ->
  result_of (ps_heap (rs_ps s)) ms0 = None ->
  result_of (ps_heap (rs_ps (fst (dispatch ev s)))) ms0 <> Some (Success v).
Proof.
  intros Hr Hev Hn. pose proof (rinv_ps _ _ _ Hr) as Hi.
  destruct ev as [fd data|fd|reason]; simpl; unfold get_tr; py_unfold.
  - assert (Hfd : fd <> 1%Z) by (intros ->; by apply (Hev data)).
    destruct (bool_decide (fd ∈ pipes (rs_tr s)) && attached (rs_tr s)); [|simpl; congruence].
    unfold on_ps, focus. simpl.
    pose proof (childDataReceived_other_heap fd data (rs_ps s) Hfd) as Hh.
    destruct (childDataReceived fd data (rs_ps s)) as [ps' [[]|e|]] eqn:E; simpl in *;
      [rewrite Hh; congruence| |rewrite Hh; congruence].
    destruct (childDataReceived_Raise cbs0 ms0 fd data _ _ _ Hi E) as [-> _].
    unfold log_err. py_unfold. simpl.
    apply (ps_cases_no_success ms0 (rs_ps s) _ v Hi Hn), (childConnectionLost_cases fd (RState _ _ _ _)).
  - destruct (bool_decide (fd ∈ pipes (rs_tr s))); [|simpl; congruence].
    apply (ps_cases_no_success ms0 (rs_ps s) _ v Hi Hn), childConnectionLost_cases.
  - unfold put_tr. apply (ps_cases_no_success ms0 (rs_ps s) _ v Hi Hn),
      (maybeCallProcessEnded_cases (RState _ _ _ _)).
Qed.

Lemma run_steps_not_stdout ms0 v n : forall s,
  rinv cbs0 ms0 s -> (forall data, EvData 1 data ∉ os_events (rs_os s)) ->
  result_of (ps_heap (rs_ps s)) ms0 = None ->
  result_of (ps_heap (rs_ps (fst (run_steps n s)))) ms0 <> Some (Success v).
Proof.
  induction n as [|n IH]; intros s Hr Hev Hn; [simpl; congruence|].
  destruct (run_one_ok ms0 s Hr) as ([b Hb] & _ & _ & Ho).
  pose proof (rinv_run_one ms0 s Hr) as Hr1.
  destruct (os_events (rs_os s)) as [|ev rest] eqn:Ev.
  - rewrite (run_steps_nil _ _ Ev). simpl. congruence.
  - assert (Hd : forall v', result_of (ps_heap (rs_ps (fst (run_one s)))) ms0 <> Some (Success v')).
    { intros v'. unfold run_one. rewrite Ev. unfold put_os. py_unfold. simpl.
      set (s1 := RState (rs_ps s) (rs_tr s) (OS rest (os_kill (rs_os s)) (os_signalled (rs_os s))) (rs_logged s)).
      assert (Hr' : rinv cbs0 ms0 s1) by (destruct s; eapply rinv_os; exact Hr).
      assert (Hev' : forall data, ev <> EvData 1 data).
      { intros data ->. apply (Hev data). by left. }
      pose proof (dispatch_not_stdout ms0 ev s1 v' Hr' Hev' Hn) as H.
      destruct (dispatch ev s1) as [s' [[]|e|]]; exact H. }
    destruct (run_one s) as [s1 r1] eqn:E. simpl in Hb, Hr1, Ho, Hd. subst r1.
    rewrite (run_steps_S _ _ _ _ E).
    destruct (result_of (ps_heap (rs_ps s1)) ms0) as [[v'|e]|] eqn:E1.
    + by destruct (Hd v').
    + rewrite (heap_le_result _ _ _ _ (run_steps_heap_le n s1) E1). congruence.
    + apply IH; [done| |done]. rewrite Ho. simpl. intros data Hin. apply (Hev data). by right.
Qed.

(** When [blockon_loop] returns, [d] has fired: no turn raises. *)
Lemma blockon_loop_result ms0 fuel l : forall s s' r,
  rinv cbs0 ms0 s ->
  blockon_loop fuel l s = (s', r) -> r <> Hang -> exists o, result_of (ps_heap (rs_ps s')) l = Some o.
Proof.
  induction fuel as [|fuel IH]; intros s s' r Hrs H Hr; simpl in H;
    destruct (result_of (ps_heap (rs_ps s)) l) as [[v|e]|] eqn:E; simplify_eq; eauto;
    destruct (os_events (rs_os s)); simplify_eq; try done.
  unfold mbind, pym_bind, bind in H.
  destruct (run_one_ok ms0 s Hrs) as ([b Hb] & _). pose proof (rinv_run_one ms0 s Hrs) as Hr1.
  destruct (run_one s) as [s1 r1]. simpl in Hb, Hr1. subst r1.
  by apply (IH s1 _ r).
Qed.

(** [blockon(exited)] leaves [exited] as it is: [cb] puts back the [None]
    [processEnded] fired it with. *)
Lemma blockon_exited ms0 s :
  rinv cbs0 ms0 s ->
  blockon (exited (ps_proto (rs_ps s))) s =
    blockon_loop (length (os_events (rs_os s))) (exited (ps_proto (rs_ps s))) s.
Proof.
  intros Hr. unfold blockon.
  pose proof (blockon_loop_keeps
    (fun s' => rinv cbs0 ms0 s' /\ exited (ps_proto (rs_ps s')) = exited (ps_proto (rs_ps s)))
    ltac:(intros s1 [Hr1 Hx1]; split; [by apply rinv_run_one|by rewrite (proj1 (proj2 (run_one_ok ms0 s1 Hr1)))])
    (length (os_events (rs_os s))) (exited (ps_proto (rs_ps s))) s (conj Hr eq_refl)) as [Hr' Hx'].
  destruct (blockon_loop _ _ s) as [s' r] eqn:E. simpl in Hr', Hx'.
  destruct r as [v|e|]; [..|done];
    (destruct (blockon_loop_result _ _ _ _ _ _ Hr E ltac:(done)) as [o Ho];
     rewrite <- Hx' in Ho; pose proof (inv_exited_none _ _ _ (rinv_ps _ _ _ Hr') o Ho) as ->;
     destruct s' as [[p h out] tr os lg]; cbn in Hx', Ho; unfold on_ps, on_heap, focus; cbn [rs_ps ps_heap ps_proto];
     rewrite <- Hx', drop_result_id; [done|];
     unfold result_of in Ho; by destruct (cells h !! exited p) as [[]|]; simplify_eq).
Qed.

End Invariant.

(** The examples' reactor states satisfy the invariant. *)
Lemma ex_rstate_rinv magic evs : rinv [] 0 (ex_rstate magic evs).
Proof. split; [apply ex_init_inv|reflexivity|done|done]. Qed.

(** ** Witnesses *)

Lemma ex_events_data : Forall data_event ex_events.
Proof.
  unfold ex_events.
  repeat (constructor; [do 2 eexists; split; [reflexivity|]; intros _; eexists; reflexivity|]).
  constructor.
Qed.

Definition ex_split_marker : list (list Z) := [lit "RE"; lit "ADY"; lit " and more"].

Lemma saw_follows_completing_read_witness :
  let s := ex_rstate (lit "READY") (map (EvData 1) ex_split_marker) in
  let p := ps_proto (rs_ps s) in
  let '(s', r) := run_steps (length ex_split_marker) s in
  r = Ok tt /\
  (forall k, marker_at (magic_text p) (getvalue (output p)) ex_split_marker k ->
     ps_stdout (rs_ps s') = ps_stdout (rs_ps s) ++ echoes (print_logs p) (take (S k) ex_split_marker) ++
                              [OutSaw (magic_text p)] ++ echoes (print_logs p) (drop (S k) ex_split_marker) /\
     is_pending (ps_heap (rs_ps s')) 0 = false) /\
  ((forall k, (k < length ex_split_marker)%nat ->
      contains (magic_text p) (getvalue (output p) ++ concat (take (S k) ex_split_marker)) = false) ->
     ps_stdout (rs_ps s') = ps_stdout (rs_ps s) ++ echoes (print_logs p) ex_split_marker /\
     is_pending (ps_heap (rs_ps s')) 0 = true).
Proof.
  apply (saw_follows_completing_read [] 0 _ ex_split_marker ex_split_marker []).
  - apply ex_rstate_rinv.
  - reflexivity.
  - vm_compute. set_solver.
  - by rewrite app_nil_r.
  - repeat constructor.
  - reflexivity.
Defined.

Lemma printed_transcript_witness :
  let '(s', r) := run_steps (length ex_events) ex_events_state in
  r = Ok tt /\
  texts (ps_stdout (rs_ps s')) =
    texts (ps_stdout (rs_ps ex_events_state)) ++
      flat_map (shown (print_logs (ps_proto (rs_ps ex_events_state))) (pipes (rs_tr ex_events_state)))
        ex_events /\
  count_saw (ps_stdout (rs_ps s')) <= 1.
Proof.
  apply (printed_transcript [] 0 ex_events_state ex_events []).
  - apply ex_rstate_rinv.
  - reflexivity.
  - vm_compute. set_solver.
  - by rewrite app_nil_r.
  - exact ex_events_data.
Defined.

Lemma readiness_any_interleaving_witness :
  Utf8.decode (concat (stdout_chunks ex_events)) = Ok (concat (stdout_chunks ex_events)) /\
  let '(s', r) := run_steps (length ex_events) ex_events_state in
  r = Ok tt /\
  is_pending (ps_heap (rs_ps s')) 0 =
    negb (contains (magic_text (ps_proto (rs_ps ex_events_state)))
                   (getvalue (output (ps_proto (rs_ps ex_events_state))) ++
                    concat (stdout_chunks ex_events))).
Proof.
  apply (readiness_any_interleaving [] 0 ex_events_state ex_events (stdout_chunks ex_events) []).
  - apply ex_rstate_rinv.
  - reflexivity.
  - vm_compute. set_solver.
  - by rewrite app_nil_r.
  - exact ex_events_data.
  - repeat constructor.
  - vm_compute. discriminate.
Defined.

Lemma stderr_decode_error_witness :
  let s := ex_rstate (lit "ready") [EvData 2 [0xFF]]%Z in
  let '(s', r) := run_one s in
  r = Ok true /\ UnicodeDecodeError 0 ∈ rs_logged s' /\ 2%Z ∉ pipes (rs_tr s') /\
  ps_stdout (rs_ps s') = ps_stdout (rs_ps s) /\
  (forall data', dispatch (EvData 2 data') s' = (s', Ok tt)).
Proof.
  apply (stderr_decode_error [] 0 _ [0xFF]%Z (UnicodeDecodeError 0) []).
  - apply ex_rstate_rinv.
  - reflexivity.
  - vm_compute. set_solver.
  - reflexivity.
  - vm_compute. reflexivity.
Defined.

Lemma split_char_loses_stdout_witness :
  let s := ex_rstate (lit "ready") [EvData 1 (Utf8.encode (lit "caf") ++ take 1 (Utf8.encode_cp 233))]%Z in
  let '(s', r) := run_one s in
  r = Ok true /\ os_events (rs_os s') = [] /\ (1%Z ∉ pipes (rs_tr s')) /\
  (UnicodeDecodeError (length (Utf8.encode (lit "caf"))) ∈ rs_logged s') /\
  (forall data, dispatch (EvData 1 data) s' = (s', Ok tt)).
Proof.
  apply (split_char_loses_stdout [] 0 _ (lit "caf") 233 1 []).
  - apply ex_rstate_rinv.
  - reflexivity.
  - vm_compute. set_solver.
  - reflexivity.
  - repeat constructor.
  - reflexivity.
  - vm_compute. lia.
Defined.

End Reactor.
