(* ===== verification/Launcher.v ===== *)
(** * [run_service]: spawning the child and wiring it (util.py:64-105)

    [world] is what [run_service] touches: the reactor state of the one child
    this program manages ([Reactor.rstate]), the pytest finalizers
    registered by [request.addfinalizer], [sys.platform], [os.environ], the
    spawn requests made so far, and the operating system's answer to the
    next one. [run_service] is modelled statement by statement:
    - it builds the protocol;
    - it copies the environment and forces [PYTHONUNBUFFERED];
    - it chooses the descriptor table by platform and calls [spawnProcess];
    - it registers the cleanup finalizer;
    - it returns [magic_seen] with [lambda ignored: process] chained on.

    Before the spawn the transport has no pid, no pipes and no protocol.
    [spawnProcess] either raises the OS's error or attaches the protocol to
    a transport with the new pid that reads every descriptor the table
    marks ['r']. *)

From S2P Require Import Prelude Utf8 PyStr Deferred Protocol Reactor.
From stdpp Require Import base list gmap strings.
From Stdlib Require Import ZArith Lia.

Module Launcher.
Import Deferred PyStr MagicTextProtocol Reactor.

(** The modes of the [childFDs] table: ['w'] and ['r']. *)
Inductive fd_mode : Type := FdWrite | FdRead.

#[export] Instance fd_mode_eq_dec : EqDecision fd_mode.
Proof. solve_decision. Defined.

(** The arguments of [reactor.spawnProcess]. *)
Record spawn_request := SpawnRequest {
  sr_executable : string;
  sr_args : list string;
  sr_path : option string;
  sr_childFDs : option (list (Z * fd_mode));
  sr_env : gmap string string
}.

(** [partial(_cleanup_service_process, process, protocol.exited)]. *)
Record finalizer := Finalizer { fin_exited : loc }.

Record world := World {
  w_r : rstate;
  w_finalizers : list finalizer;
  w_platform : string;
  w_environ : gmap string string;
  w_spawned : list spawn_request;
  w_spawn_errno : option Z;        (** the error the next spawn fails with *)
  w_next_pid : Z                   (** the pid the next spawn gets *)
}.

Definition on_r {A} (m : PyM rstate A) : PyM world A :=
  focus w_r (fun r w => World r (w_finalizers w) (w_platform w) (w_environ w)
                             (w_spawned w) (w_spawn_errno w) (w_next_pid w)) m.

Definition on_world_heap {A} (m : PyM heap A) : PyM world A :=
  on_r (on_ps (on_heap m)).

(** [env = os.environ.copy(); env['PYTHONUNBUFFERED'] = '1']. *)
Definition child_env (environ : gmap string string) : gmap string string :=
  <["PYTHONUNBUFFERED" := "1"]> environ.

(** The [childFDs] argument (util.py:101). *)
Definition child_fds (platform : string) : option (list (Z * fd_mode)) :=
  if bool_decide (platform <> "win32")
  then Some [(0, FdWrite); (1, FdRead); (2, FdRead); (3, FdRead)]%Z
  else None.

(** The descriptors the transport reads: those marked ['r'], or stdout and
    stderr under Twisted's default table. *)
Definition read_fds (fds : option (list (Z * fd_mode))) : list Z :=
  match fds with
  | Some tbl => map fst (filter (fun e => snd e = FdRead) tbl)
  | None => [1; 2]%Z
  end.

(** [reactor.spawnProcess(protocol, executable, args, path=cwd,
    childFDs=..., env=env)]. *)
Definition spawnProcess (p : proto) (req : spawn_request) : PyM world unit :=
  fun w =>
    let w' := World (w_r w) (w_finalizers w) (w_platform w) (w_environ w)
                    (w_spawned w ++ [req]) (w_spawn_errno w) (w_next_pid w) in
    match w_spawn_errno w with
    | Some errno => (w', Raise (OSError errno))
    | None =>
        let r := w_r w in
        let r' := RState (PState p (ps_heap (rs_ps r)) (ps_stdout (rs_ps r)))
                         (Transport (Some (w_next_pid w)) (read_fds (sr_childFDs req)) None true)
                         (rs_os r) (rs_logged r) in
        (World r' (w_finalizers w') (w_platform w') (w_environ w') (w_spawned w')
               (w_spawn_errno w') (w_next_pid w'), Ok tt)
    end.

(** [request.addfinalizer(f)]. *)
Definition addfinalizer (f : finalizer) : PyM world unit :=
  fun w => (World (w_r w) (w_finalizers w ++ [f]) (w_platform w) (w_environ w)
                  (w_spawned w) (w_spawn_errno w) (w_next_pid w), Ok tt).

(** The callback [run_service] chains: [lambda ignored: process]. *)
Definition to_transport : pyval -> pyval := fun _ => PyTransport.

(** [run_service(reactor, request, magic_text, executable, args, cwd=None,
    print_logs=True)] (util.py:64-105). It returns the location of the
    Deferred it hands back. *)
Definition run_service (magic_text : list Z) (executable : string) (args : list string)
    (cwd : option string) (print_logs : bool) : PyM world loc :=
  protocol <- on_world_heap (init magic_text print_logs) ;;
  w <- get ;;
  let env := child_env (w_environ w) in
  spawnProcess protocol
    (SpawnRequest executable args cwd (child_fds (w_platform w)) env) ;;
  addfinalizer (Finalizer (exited protocol)) ;;
  match magic_seen protocol with
  | Some d => on_world_heap (addCallback d to_transport)
  | None => raise (AttributeError "addCallback")
  end.

(** The world with another heap of Deferreds. *)
Definition with_heap (h : heap) (w : world) : world :=
  let r := w_r w in
  World (RState (PState (ps_proto (rs_ps r)) h (ps_stdout (rs_ps r))) (rs_tr r) (rs_os r) (rs_logged r))
        (w_finalizers w) (w_platform w) (w_environ w) (w_spawned w) (w_spawn_errno w) (w_next_pid w).

(** ** A test process before [run_service], for the examples

    No child yet, an empty heap, nothing printed, the OS events the child
    will cause, and the answer of the next spawn. *)
Definition w_fresh (platform : string) (errno : option Z) (evs : list event) : world :=
  World (RState (PState (Proto None 0 [] stringio_new false) heap_empty [])
                (Transport None [] None false) (OS evs None []) [])
        [] platform ∅ [] errno 4242.


(** ** Running [run_service] *)

(** The state [run_service] starts from: the heap is well allocated, no
    "Saw" line has been printed, no child is attached yet, and no finalizer
    is registered: the world holds the one child [run_service] launches,
    and pytest's teardown calls its cleanup hook. *)
Record world_ok (w : world) : Prop := {
  wo_alloc : alloc_ok (ps_heap (rs_ps (w_r w)));
  wo_saw : count_saw (ps_stdout (rs_ps (w_r w))) = 0%nat;
  wo_detached : attached (rs_tr (w_r w)) = false;
  wo_fins : w_finalizers w = []
}.

Ltac launcher_unfold :=
  unfold run_service, on_world_heap, on_r, on_ps, on_heap, spawnProcess, addfinalizer in *;
  py_unfold; simpl in *.

(** C14: The spawn fails: [run_service] raises the OS's error, registers no
    finalizer, and attaches nothing. The protocol's Deferreds were already
    allocated. *)
Theorem run_service_spawn_error w magic exe args cwd pl errno :
  world_ok w -> w_spawn_errno w = Some errno ->
  let '(w', r) := run_service magic exe args cwd pl w in
  r = Raise (OSError errno) /\ w_finalizers w' = w_finalizers w /\
  attached (rs_tr (w_r w')) = false /\ rs_tr (w_r w') = rs_tr (w_r w).
Proof.
  intros Hok He. destruct w as [[[p0 h o] tr os0 lg] fins plat env sp errno' npid].
  simpl in *. subst errno'.
  destruct (init_inv magic pl h o (wo_alloc _ Hok) (wo_saw _ Hok))
    as (p & h' & Hinit & _).
  launcher_unfold. split_and!; try done. apply (wo_detached _ Hok).
Qed.

Lemma on_world_heap_run {A} (m : PyM heap A) w h' r :
  m (ps_heap (rs_ps (w_r w))) = (h', r) -> on_world_heap m w = (with_heap h' w, r).
Proof.
  destruct w as [[[p0 h o] tr os0 lg] fins plat env sp errno npid]. simpl. intros E.
  unfold on_world_heap, on_r, on_ps, on_heap, focus. simpl. by rewrite E.
Qed.

(** The spawn succeeds. [run_service] returns the Deferred that was
    [magic_seen] at construction, with [lambda ignored: process] chained on.
    The transport gets the new pid and reads the descriptors the platform's
    table marks ['r']. One finalizer, for [exited], is registered. The
    spawn request carries the copied environment and the table. The
    reactor invariant holds from the start. *)
Lemma run_service_spawned w magic exe args cwd pl :
  world_ok w -> w_spawn_errno w = None ->
  let d := next_loc (ps_heap (rs_ps (w_r w))) in
  let '(w', r) := run_service magic exe args cwd pl w in
  r = Ok d /\
  rinv [to_transport] d (w_r w') /\ is_pending (ps_heap (rs_ps (w_r w'))) d = true /\
  rs_tr (w_r w') = Transport (Some (w_next_pid w)) (read_fds (child_fds (w_platform w))) None true /\
  exited (ps_proto (rs_ps (w_r w'))) = S d /\
  magic_text (ps_proto (rs_ps (w_r w'))) = magic /\
  print_logs (ps_proto (rs_ps (w_r w'))) = pl /\
  w_finalizers w' = w_finalizers w ++ [Finalizer (exited (ps_proto (rs_ps (w_r w'))))] /\
  w_spawned w' = w_spawned w ++
    [SpawnRequest exe args cwd (child_fds (w_platform w)) (child_env (w_environ w))] /\
  rs_os (w_r w') = rs_os (w_r w) /\ getvalue (output (ps_proto (rs_ps (w_r w')))) = [] /\
  ps_stdout (rs_ps (w_r w')) = ps_stdout (rs_ps (w_r w)).
Proof.
  intros Hok He. destruct w as [[[p0 h o] tr os0 lg] fins plat env sp errno npid].
  simpl in *. subst errno.
  destruct (init_inv magic pl h o (wo_alloc _ Hok) (wo_saw _ Hok))
    as (p & h' & Hinit & Hm & Hx & Hmt & Hout & Hpl & Hex & Hi).
  unfold run_service. unfold mbind, pym_bind.
  rewrite (bind_Ok _ _ _ _ _ (on_world_heap_run _
    (World (RState (PState p0 h o) tr os0 lg) fins plat env sp None npid) _ _ Hinit)).
  rewrite Hm. unfold spawnProcess, addfinalizer, get. py_unfold. simpl.
  assert (Hp : is_pending h' (next_loc h) = true) by (destruct (inv_pending _ _ _ Hi) as [(_ & ? & _)|(Hm' & _)]; [done|simpl in *; congruence]).
  destruct (inv_addCallback [] (next_loc h) p h' o to_transport Hi Hp) as [Hadd Hi'].
  unfold on_world_heap, on_r, on_ps, on_heap, focus. simpl. rewrite Hadd. simpl.
  split_and!; try done.
  - split; simpl; try done.
    by rewrite is_pending_set_cell_ne by exact (inv_ne _ _ _ Hi).
  - unfold is_pending. simpl. by rewrite lookup_insert_eq.
Qed.


(** C13: How [run_service] wires the child (util.py:92-104). The spawn
    request names the executable, the arguments and the working directory
    it was given. Its environment is [os.environ] with [PYTHONUNBUFFERED]
    set to "1". Off Windows the descriptor table is
    [{0: 'w', 1: 'r', 2: 'r', 3: 'r'}] and descriptors 1, 2 and 3 are read.
    On Windows Twisted's default table is used, and only 1 and 2 are read.
    The transport has the new pid with the protocol attached, and the
    cleanup finalizer is registered for [exited]. *)
Theorem run_service_wiring w magic exe args cwd pl :
  world_ok w -> w_spawn_errno w = None ->
  let '(w', r) := run_service magic exe args cwd pl w in
  exists req,
    w_spawned w' = w_spawned w ++ [req] /\
    sr_executable req = exe /\ sr_args req = args /\ sr_path req = cwd /\
    sr_env req !! "PYTHONUNBUFFERED" = Some "1" /\
    (forall k, k <> "PYTHONUNBUFFERED" -> sr_env req !! k = w_environ w !! k) /\
    (w_platform w <> "win32" ->
       sr_childFDs req = Some [(0, FdWrite); (1, FdRead); (2, FdRead); (3, FdRead)]%Z /\
       pipes (rs_tr (w_r w')) = [1; 2; 3]%Z) /\
    (w_platform w = "win32" -> sr_childFDs req = None /\ pipes (rs_tr (w_r w')) = [1; 2]%Z) /\
    pid (rs_tr (w_r w')) = Some (w_next_pid w) /\ attached (rs_tr (w_r w')) = true /\
    w_finalizers w' = w_finalizers w ++ [Finalizer (exited (ps_proto (rs_ps (w_r w'))))].
Proof.
  intros Hok He. pose proof (run_service_spawned w magic exe args cwd pl Hok He) as Hrun.
  destruct (run_service magic exe args cwd pl w) as [w' r].
  destruct Hrun as (_ & _ & _ & Htr & _ & _ & _ & Hf & Hsp & _).
  eexists. split; [exact Hsp|]. rewrite Htr. cbn [pid pipes attached sr_executable sr_args
    sr_path sr_env sr_childFDs]. unfold child_env, child_fds.
  split_and!; try done.
  - apply lookup_insert_eq.
  - intros k Hk. by apply lookup_insert_ne.
  - intros Hp. by case_bool_decide.
  - intros Hp. case_bool_decide; [congruence|done].
Qed.

(** The examples' worlds are ones [run_service] can start from. *)
Lemma w_fresh_ok platform errno evs : world_ok (w_fresh platform errno evs).
Proof. split; [apply alloc_ok_empty|reflexivity..]. Qed.

(** ** Witnesses *)

Lemma run_service_spawn_error_witness :
  let w := w_fresh "linux" (Some 2%Z) [] in
  let '(w', r) := run_service (lit "READY") "service" ["service"] None true w in
  r = Raise (OSError 2) /\ w_finalizers w' = w_finalizers w /\
  attached (rs_tr (w_r w')) = false /\ rs_tr (w_r w') = rs_tr (w_r w).
Proof. apply run_service_spawn_error; [apply w_fresh_ok|reflexivity]. Defined.

Lemma run_service_wiring_witness :
  let w := w_fresh "win32" None [] in
  let '(w', r) := run_service (lit "READY") "service" ["service"] (Some "/tmp") true w in
  exists req,
    w_spawned w' = w_spawned w ++ [req] /\
    sr_executable req = "service" /\ sr_args req = ["service"] /\ sr_path req = Some "/tmp" /\
    sr_env req !! "PYTHONUNBUFFERED" = Some "1" /\
    (forall k, k <> "PYTHONUNBUFFERED" -> sr_env req !! k = w_environ w !! k) /\
    (w_platform w <> "win32" ->
       sr_childFDs req = Some [(0, FdWrite); (1, FdRead); (2, FdRead); (3, FdRead)]%Z /\
       pipes (rs_tr (w_r w')) = [1; 2; 3]%Z) /\
    (w_platform w = "win32" -> sr_childFDs req = None /\ pipes (rs_tr (w_r w')) = [1; 2]%Z) /\
    pid (rs_tr (w_r w')) = Some (w_next_pid w) /\ attached (rs_tr (w_r w')) = true /\
    w_finalizers w' = w_finalizers w ++ [Finalizer (exited (ps_proto (rs_ps (w_r w'))))].
Proof. apply run_service_wiring; [apply w_fresh_ok|reflexivity]. Defined.

End Launcher.
