(* ===== verification/Cleanup.v ===== *)
(** * [_cleanup_service_process]: the shutdown coordinator (util.py:108-126)

    The finalizer [run_service] registers. If the transport still has a pid,
    it prints, sends TERM with [signalProcess], prints again, and blocks on
    [exited] with [pytest_twisted.blockon]. In every case that gets this far
    it prints "exited, goodbye". [ProcessExitedAlready], raised anywhere in
    the body, is swallowed; any other exception propagates.

    The theorems cover its outcomes:
    - with no pid it signals nobody and returns at once;
    - with a live child it signals it and returns, provided the OS events
      that follow end the process;
    - it waits forever when they do not, since there is no escalation to
      SIGKILL;
    - it swallows [ESRCH] and propagates other errors;
    - a second call after a completed one signals nobody.
    Section [CPreserve] gives the one case analysis of its paths, for any
    property of the reactor's state that turns, prints, the signal and a
    heap update keep ([cleanup_ended] is an instance).

    pytest's teardown ([run_finalizers], [teardown]) calls every finalizer,
    last registered first, as [FixtureDef.finish] does. *)

From S2P Require Import Prelude Utf8 PyStr Deferred Protocol Reactor Launcher.
From stdpp Require Import base list gmap strings.
From Stdlib Require Import ZArith Lia.

Module Cleanup.
Import Deferred PyStr MagicTextProtocol Reactor Launcher.

(** [print(...)] from the reactor's side. *)
Definition print_line (o : out_item) : PyM rstate unit := on_ps (stdout_write o).

Definition is_ProcessExitedAlready (e : exn) : bool :=
  bool_decide (e = ProcessExitedAlready).

(** [_cleanup_service_process(process, exited)]. *)
Definition cleanup_service_process (exited : loc) : PyM rstate unit :=
  try_except
    (t <- get_tr ;;
     (match pid t with
      | Some p =>
          print_line (OutSignaling p) ;;
          signalProcess ;;
          print_line OutSignaled ;;
          _ <- blockon exited ;;
          ret tt
      | None => ret tt
      end) ;;
     print_line OutGoodbye)
    is_ProcessExitedAlready
    (ret tt).

(** pytest's teardown of the fixture ([FixtureDef.finish]): pop and call
    every finalizer, last registered first. An exception does not stop the
    others; the first one caught is raised once all have run. (pytest 8
    raises a [BaseExceptionGroup] when several fail; the worlds of the
    theorems hold one finalizer.) A finalizer that waits forever stops the
    teardown there. *)
Fixpoint run_finalizers (fs : list finalizer) : PyM world unit :=
  match fs with
  | [] => ret tt
  | f :: fs' =>
      fun w =>
        match on_r (cleanup_service_process (fin_exited f)) w with
        | (w1, Ok _) => run_finalizers fs' w1
        | (w1, Raise e) =>
            let '(w2, r) := run_finalizers fs' w1 in
            (w2, match r with Hang => Hang | _ => Raise e end)
        | (w1, Hang) => (w1, Hang)
        end
  end.

Definition teardown : PyM world unit :=
  fun w => run_finalizers (rev (w_finalizers w)) w.

(** The state in which cleanup calls [blockon]: two lines printed, and the
    child's pid passed to [os.kill]. *)
Definition signalled_state (s : rstate) (p : Z) : rstate :=
  RState (PState (ps_proto (rs_ps s)) (ps_heap (rs_ps s))
                 ((ps_stdout (rs_ps s) ++ [OutSignaling p]) ++ [OutSignaled]))
         (rs_tr s) (OS (os_events (rs_os s)) (os_kill (rs_os s)) (p :: os_signalled (rs_os s)))
         (rs_logged s).

(** The events of a child that ends on TERM. *)
Definition ex_exit_events : list event :=
  [EvFdClosed 1; EvFdClosed 2; EvFdClosed 3; EvExit (ProcessTerminated None (Some 15))]%Z.

(** ** Outcomes *)

Lemma rinv_print cbs0 ms0 s o :
  rinv cbs0 ms0 s -> is_saw o = false -> rinv cbs0 ms0 (fst (print_line o s)).
Proof.
  destruct s as [[p h out] tr os0 lg]. intros [Hi ? ? ?] Ho.
  unfold print_line, on_ps, stdout_write, focus. py_unfold. simpl in *.
  split; simpl; try done. apply inv_stdout_app; [done|]. unfold count_saw. simpl. destruct o; simpl in *; congruence.
Qed.

(** When the transport has no pid, cleanup signals nobody, does not wait,
    and prints "exited, goodbye". *)
Lemma cleanup_no_pid ex s :
  pid (rs_tr s) = None ->
  cleanup_service_process ex s =
    (RState (PState (ps_proto (rs_ps s)) (ps_heap (rs_ps s)) (ps_stdout (rs_ps s) ++ [OutGoodbye]))
            (rs_tr s) (rs_os s) (rs_logged s), Ok tt).
Proof.
  intros Hp. destruct s as [[p h o] tr os0 lg].
  unfold cleanup_service_process, print_line, on_ps, stdout_write, get_tr. py_unfold. simpl in *.
  by rewrite Hp.
Qed.


Lemma cleanup_signal_run ex s p :
  pid (rs_tr s) = Some p -> os_kill (rs_os s) = None ->
  cleanup_service_process ex s =
    match blockon ex (signalled_state s p) with
    | (s', Ok _) => print_line OutGoodbye s'
    | (s', Raise e) => if is_ProcessExitedAlready e then (s', Ok tt) else (s', Raise e)
    | (s', Hang) => (s', Hang)
    end.
Proof.
  intros Hp Hk. destruct s as [[pp h o] tr [evs k sg] lg]. simpl in *. subst k.
  unfold cleanup_service_process, print_line, on_ps, stdout_write, get_tr, signalProcess.
  py_unfold. do 3 (simpl; rewrite ?Hp).
  destruct (blockon ex _) as [s' [v|e|]]; simpl; try done.
Qed.

Lemma rinv_signalled_state cbs0 ms0 s p :
  rinv cbs0 ms0 s -> rinv cbs0 ms0 (signalled_state s p).
Proof.
  destruct s as [[pp h o] tr os0 lg]. intros [Hi ? ? ?]. unfold signalled_state.
  split; simpl; try done. rewrite <- app_assoc. by apply inv_stdout_app.
Qed.

(** *** A property of the reactor's state that reactor turns, cleanup's
    prints and its signal keep is kept by cleanup on every path *)

Section CPreserve.
Variable R : rstate -> Prop.
Hypothesis HR_turn : forall s, R s -> R (fst (run_one s)).
Hypothesis HR_print : forall ps tr o lg x, R (RState ps tr o lg) ->
  R (RState (PState (ps_proto ps) (ps_heap ps) (ps_stdout ps ++ [x])) tr o lg).
Hypothesis HR_signal : forall ps tr o lg p, pid tr = Some p -> R (RState ps tr o lg) ->
  R (RState ps tr (OS (os_events o) (os_kill o) (p :: os_signalled o)) lg).
Hypothesis HR_heap : forall ps tr o lg h, R (RState ps tr o lg) ->
  R (RState (PState (ps_proto ps) h (ps_stdout ps)) tr o lg).

Lemma R_on_heap {A} (m : PyM heap A) s : R s -> R (fst (on_ps (on_heap m) s)).
Proof.
  destruct s as [ps tr o lg]. unfold on_ps, on_heap, focus. cbn [rs_ps ps_heap].
  destruct (m (ps_heap ps)) as [h r]. apply HR_heap.
Qed.

Lemma cleanup_preserves ex s : R s -> R (fst (cleanup_service_process ex s)).
Proof.
  intros H. destruct s as [[pp h o] tr [evs k sg] lg].
  destruct (pid tr) as [p|] eqn:Hp; [|rewrite (cleanup_no_pid _ (RState (PState pp h o) tr (OS evs k sg) lg) Hp); by apply (HR_print (PState pp h o))].
  assert (H1 : R (RState (PState pp h (o ++ [OutSignaling p])) tr (OS evs k (p :: sg)) lg))
    by (apply (HR_signal _ _ (OS evs k sg)); [done|by apply (HR_print (PState pp h o))]).
  destruct k as [errno|].
  - unfold cleanup_service_process, print_line, on_ps, stdout_write, get_tr, signalProcess.
    py_unfold. do 3 (simpl; rewrite ?Hp). by destruct (errno =? ESRCH)%Z.
  - rewrite (cleanup_signal_run _ (RState (PState pp h o) tr (OS evs None sg) lg) _ Hp eq_refl). unfold blockon.
    assert (H2 : R (signalled_state (RState (PState pp h o) tr (OS evs None sg) lg) p))
      by (apply (HR_print (PState pp h (o ++ [OutSignaling p]))); done).
    pose proof (blockon_loop_keeps R HR_turn (length evs) ex _ H2) as H3.
    destruct (blockon_loop _ ex _) as [s' [v|e|]]; [| |done]; cbn beta iota; simpl in H3;
      pose proof (R_on_heap (drop_result ex) s' H3) as H4;
      destruct (fst (on_ps (on_heap (drop_result ex)) s')) as [ps2 tr2 os2 lg2];
      [|destruct (is_ProcessExitedAlready e)]; try done.
    by apply (HR_print ps2).
Qed.

End CPreserve.

(** Cleanup keeps the transport [ended_ok] on every path. *)
Lemma cleanup_ended ex s : ended_ok (rs_tr s) -> ended_ok (rs_tr (fst (cleanup_service_process ex s))).
Proof. by apply (cleanup_preserves (fun s => ended_ok (rs_tr s))); [apply run_one_ended| | |]. Qed.

(** With a live child and an [os.kill] that succeeds, cleanup sends TERM
    to the child's pid. If the OS's remaining events reap the child and
    close every pipe still read, it then returns normally, with [exited]
    fired, the protocol detached and the pid gone. *)
Lemma cleanup_returns cbs0 ms0 s p r0 :
  rinv cbs0 ms0 s -> ended_ok (rs_tr s) -> pid (rs_tr s) = Some p ->
  os_kill (rs_os s) = None -> EvExit r0 ∈ os_events (rs_os s) ->
  (forall fd, fd ∈ pipes (rs_tr s) -> EvFdClosed fd ∈ os_events (rs_os s)) ->
  let '(s', r) := cleanup_service_process (exited (ps_proto (rs_ps s))) s in
  r = Ok tt /\ p ∈ os_signalled (rs_os s') /\ attached (rs_tr s') = false /\
  is_pending (ps_heap (rs_ps s')) (exited (ps_proto (rs_ps s'))) = false /\
  pid (rs_tr s') = None /\ rinv cbs0 ms0 s' /\
  exited (ps_proto (rs_ps s')) = exited (ps_proto (rs_ps s)).
Proof.
  intros Hr Hend Hp Hk Hexit Hclosed.
  rewrite (cleanup_signal_run _ _ _ Hp Hk).
  pose proof (rinv_signalled_state cbs0 ms0 s p Hr) as Hr3.
  assert (Hdet : attached (rs_tr (fst (run_steps (length (os_events (rs_os (signalled_state s p))))
                   (signalled_state s p)))) = false).
  { apply (detached_after_all cbs0 ms0 _ _ eq_refl Hr3); [done|right; by exists r0|done]. }
  destruct (blockon_exited_returns cbs0 ms0 _ (signalled_state s p) Hr3 (le_n _) Hdet)
    as (s' & v & Hb & Hr' & Ha' & _ & Hs & Hx).
  pose proof (blockon_exited cbs0 ms0 (signalled_state s p) Hr3) as Hbe.
  change (exited (ps_proto (rs_ps (signalled_state s p)))) with (exited (ps_proto (rs_ps s))) in Hb, Hbe.
  rewrite Hbe, Hb.
  pose proof (rinv_print _ _ s' OutGoodbye Hr' eq_refl) as Hr''.
  unfold print_line, on_ps, stdout_write, focus in *. py_unfold.
  destruct s' as [[pp' h' o'] tr' os' lg']. simpl in *.
  pose proof (rinv_attached _ _ _ Hr') as Hatt. simpl in Hatt.
  split_and!; try done.
  - rewrite Hs. set_solver.
  - by rewrite Hatt.
  - by destruct ((rinv_detached _ _ _ Hr') Ha').
Qed.


(** C7: Shutdown has no escalation to SIGKILL. If the child never exits
    (no reap among the OS's remaining events), cleanup sends TERM and then
    waits forever. *)
Theorem cleanup_hangs cbs0 ms0 s p :
  rinv cbs0 ms0 s -> ended_ok (rs_tr s) -> pid (rs_tr s) = Some p ->
  os_kill (rs_os s) = None -> (forall r, EvExit r ∉ os_events (rs_os s)) ->
  snd (cleanup_service_process (exited (ps_proto (rs_ps s))) s) = Hang.
Proof.
  intros Hr Hend Hp Hk Hno.
  rewrite (cleanup_signal_run _ _ _ Hp Hk).
  pose proof (rinv_signalled_state cbs0 ms0 s p Hr) as Hr3.
  assert (Ha : attached (rs_tr s) = true).
  { destruct (attached (rs_tr s)) eqn:Ha; [done|]. by destruct (rinv_detached _ _ _ Hr Ha) as [Hn _]; rewrite Hn in Hp. }
  assert (Hl : lost (rs_tr s) = None).
  { destruct (lost (rs_tr s)) eqn:Hl; [|done]. by rewrite (rinv_lost _ _ _ Hr ltac:(by rewrite Hl)) in Hp. }
  pose proof (stays_attached cbs0 ms0 _ (signalled_state s p) eq_refl Hr3 Hend Hl Ha Hno) as Hatt.
  pose proof (blockon_exited_hangs cbs0 ms0 (length (os_events (rs_os s))) (signalled_state s p) Hr3 Hatt)
    as Hh.
  change (exited (ps_proto (rs_ps (signalled_state s p)))) with (exited (ps_proto (rs_ps s))) in Hh.
  unfold blockon. destruct (blockon_loop _ _ _) as [s' r]. simpl in *. subst r. reflexivity.
Qed.


(** C6: Liveness and idempotence of shutdown. With a live child whose
    remaining OS events reap it and close its pipes, the first cleanup sends
    TERM to its pid, waits for [exited] and returns normally. A second
    cleanup on the same process then signals nobody, waits for nothing and
    returns normally. *)
Theorem cleanup_terminates_once cbs0 ms0 s p r0 :
  rinv cbs0 ms0 s -> ended_ok (rs_tr s) -> pid (rs_tr s) = Some p ->
  os_kill (rs_os s) = None -> EvExit r0 ∈ os_events (rs_os s) ->
  (forall fd, fd ∈ pipes (rs_tr s) -> EvFdClosed fd ∈ os_events (rs_os s)) ->
  let '(s', r) := cleanup_service_process (exited (ps_proto (rs_ps s))) s in
  r = Ok tt /\ p ∈ os_signalled (rs_os s') /\
  is_pending (ps_heap (rs_ps s')) (exited (ps_proto (rs_ps s))) = false /\
  cleanup_service_process (exited (ps_proto (rs_ps s))) s' =
    (RState (PState (ps_proto (rs_ps s')) (ps_heap (rs_ps s')) (ps_stdout (rs_ps s') ++ [OutGoodbye]))
            (rs_tr s') (rs_os s') (rs_logged s'), Ok tt).
Proof.
  intros Hr Hend Hp Hk Hexit Hclosed.
  pose proof (cleanup_returns cbs0 ms0 s p r0 Hr Hend Hp Hk Hexit Hclosed) as Hret.
  destruct (cleanup_service_process _ s) as [s' r].
  destruct Hret as (-> & Hsig & _ & Hfired & Hnone & Hr' & Hx).
  rewrite <- Hx. split_and!; [done|done|done|by apply cleanup_no_pid].
Qed.

(** C20: [ProcessExitedAlready] from [os.kill] ([ESRCH]: the child is already
    gone) is swallowed. Cleanup returns normally without waiting, and skips
    the last print. *)
Theorem cleanup_esrch ex s p :
  pid (rs_tr s) = Some p -> os_kill (rs_os s) = Some ESRCH ->
  cleanup_service_process ex s =
    (RState (PState (ps_proto (rs_ps s)) (ps_heap (rs_ps s)) (ps_stdout (rs_ps s) ++ [OutSignaling p]))
            (rs_tr s) (OS (os_events (rs_os s)) (Some ESRCH) (p :: os_signalled (rs_os s)))
            (rs_logged s), Ok tt).
Proof.
  intros Hp Hk. destruct s as [[pp h o] tr [evs k sg] lg]. simpl in *. subst k.
  unfold cleanup_service_process, print_line, on_ps, stdout_write, get_tr, signalProcess.
  py_unfold. do 3 (simpl; rewrite ?Hp). done.
Qed.

(** C21: Any other error of [os.kill] propagates out of cleanup as
    [OSError]. *)
Theorem cleanup_other_oserror ex s p errno :
  pid (rs_tr s) = Some p -> os_kill (rs_os s) = Some errno -> errno <> ESRCH ->
  snd (cleanup_service_process ex s) = Raise (OSError errno).
Proof.
  intros Hp Hk Hne. destruct s as [[pp h o] tr [evs k sg] lg]. simpl in *. subst k.
  unfold cleanup_service_process, print_line, on_ps, stdout_write, get_tr, signalProcess.
  py_unfold. do 3 (simpl; rewrite ?Hp). by rewrite (proj2 (Z.eqb_neq _ _) Hne).
Qed.

(** C19: Shutdown of a child that has already exited on its own (the reactor
    has reaped it) sends no signal and does not wait. It prints "exited,
    goodbye" and returns normally. *)
Theorem cleanup_after_exit cbs0 ms0 ex s :
  rinv cbs0 ms0 s -> lost (rs_tr s) <> None ->
  let '(s', r) := cleanup_service_process ex s in
  r = Ok tt /\ rs_os s' = rs_os s /\ rs_ps s' = PState (ps_proto (rs_ps s)) (ps_heap (rs_ps s))
    (ps_stdout (rs_ps s) ++ [OutGoodbye]).
Proof.
  intros Hr Hl. by rewrite (cleanup_no_pid ex s (rinv_lost _ _ _ Hr Hl)).
Qed.

(** ** Witnesses *)

Lemma cleanup_terminates_once_witness :
  let s := ex_rstate (lit "READY") ex_exit_events in
  let '(s', r) := cleanup_service_process (exited (ps_proto (rs_ps s))) s in
  r = Ok tt /\ 4242%Z ∈ os_signalled (rs_os s') /\
  is_pending (ps_heap (rs_ps s')) (exited (ps_proto (rs_ps s))) = false /\
  cleanup_service_process (exited (ps_proto (rs_ps s))) s' =
    (RState (PState (ps_proto (rs_ps s')) (ps_heap (rs_ps s')) (ps_stdout (rs_ps s') ++ [OutGoodbye]))
            (rs_tr s') (rs_os s') (rs_logged s'), Ok tt).
Proof.
  apply (cleanup_terminates_once [] 0 _ 4242 (ProcessTerminated None (Some 15%Z))).
  - apply ex_rstate_rinv.
  - intros H. discriminate H.
  - reflexivity.
  - reflexivity.
  - repeat constructor.
  - apply Forall_forall. repeat constructor.
Defined.

Lemma cleanup_hangs_witness :
  let s := ex_rstate (lit "READY") [] in
  snd (cleanup_service_process (exited (ps_proto (rs_ps s))) s) = Hang.
Proof.
  apply (cleanup_hangs [] 0 _ 4242).
  - apply ex_rstate_rinv.
  - intros H. discriminate H.
  - reflexivity.
  - reflexivity.
  - intros r Hr. inversion Hr.
Defined.

Lemma cleanup_esrch_witness :
  let s := RState (ex_init (lit "READY")) (Transport (Some 4242) [1; 2; 3] None true)%Z
                  (OS [] (Some ESRCH) []) [] in
  cleanup_service_process 1 s =
    (RState (PState (ps_proto (rs_ps s)) (ps_heap (rs_ps s)) (ps_stdout (rs_ps s) ++ [OutSignaling 4242%Z]))
            (rs_tr s) (OS (os_events (rs_os s)) (Some ESRCH) (4242%Z :: os_signalled (rs_os s)))
            (rs_logged s), Ok tt).
Proof. apply cleanup_esrch; reflexivity. Defined.

Lemma cleanup_other_oserror_witness :
  let s := RState (ex_init (lit "READY")) (Transport (Some 4242) [1; 2; 3] None true)%Z
                  (OS [] (Some 1) [])%Z [] in
  snd (cleanup_service_process 1 s) = Raise (OSError 1).
Proof. apply (cleanup_other_oserror 1 _ 4242 1); [reflexivity|reflexivity|discriminate]. Defined.

Lemma cleanup_after_exit_witness :
  lost (rs_tr ex_after_exit) = Some ProcessDone /\
  let '(s', r) := cleanup_service_process 1 ex_after_exit in
  r = Ok tt /\ rs_os s' = rs_os ex_after_exit /\
  rs_ps s' = PState (ps_proto (rs_ps ex_after_exit)) (ps_heap (rs_ps ex_after_exit))
    (ps_stdout (rs_ps ex_after_exit) ++ [OutGoodbye]).
Proof.
  split; [vm_compute; reflexivity|].
  apply (cleanup_after_exit [] 0 1 ex_after_exit).
  - apply rinv_run_steps, ex_rstate_rinv.
  - vm_compute. discriminate.
Defined.

End Cleanup.
