(* ===== verification/Lifecycle.v ===== *)
(** * The managed process's lifecycle, and the runs of the whole program

    The spec describes one managed child by its two single-resolution
    futures: readiness ([magic_seen], as handed back by [run_service]) and
    exit ([exited]). This file gives that description as an abstract state
    machine, [phase] with [astep]. The abstraction [abs] reads a phase off a
    reactor state, and the lemmas that carry the reactor invariant along a
    reactor turn, a cleanup or a teardown also move the abstraction along
    [astep] or leave it still.

    It then closes the program over its environment. [reachable] collects
    every world that [run_service] followed by any interleaving can produce.
    The interleaving mixes reactor turns, the OS producing more events or
    changing what [os.kill] answers, and pytest's teardown. The safety
    theorem holds in every such world, and from every such world teardown
    returns once the OS reaps the child. *)

From S2P Require Import Prelude Utf8 PyStr Deferred Protocol Reactor Launcher Cleanup.
From stdpp Require Import base list gmap strings relations.
From Stdlib Require Import ZArith Lia.

Module Lifecycle.
Import Deferred PyStr MagicTextProtocol Reactor Launcher Cleanup.

(** ** The abstract lifecycle *)

(** The readiness future: pending, resolved, or rejected. *)
Inductive readiness : Type := RPending | RReady | RFailed.

#[export] Instance readiness_eq_dec : EqDecision readiness.
Proof. solve_decision. Defined.

(** A phase: the readiness future, and whether the exit future has fired. *)
Record phase := Phase { ph_readiness : readiness; ph_exited : bool }.

#[export] Instance phase_eq_dec : EqDecision phase.
Proof. solve_decision. Defined.

(** The transitions the spec allows (section 4.3, "No states beyond"). The
    service becomes ready. Or the child dies before the marker, so readiness
    is rejected and the exit is confirmed together. Or a ready child
    exits. *)
Inductive astep : phase -> phase -> Prop :=
| a_ready : astep (Phase RPending false) (Phase RReady false)
| a_fail : astep (Phase RPending false) (Phase RFailed true)
| a_exit : astep (Phase RReady false) (Phase RReady true).

Definition readiness_of (r : option outcome) : readiness :=
  match r with
  | None => RPending
  | Some (Success _) => RReady
  | Some (Failure _) => RFailed
  end.

(** The abstraction of a reactor state, for the readiness Deferred [ms0]. *)
Definition abs (ms0 : loc) (s : rstate) : phase :=
  let h := ps_heap (rs_ps s) in
  Phase (readiness_of (result_of h ms0)) (negb (is_pending h (exited (ps_proto (rs_ps s))))).

(** At most one abstract transition. *)
Definition astep_opt (p p' : phase) : Prop := p = p' \/ astep p p'.

Lemma astep_opt_rtc p p' : astep_opt p p' -> rtc astep p p'.
Proof. intros [->|H]; [done|by apply rtc_once]. Qed.

#[export] Hint Resolve astep_opt_rtc : fow.

(** ** The program in its environment *)

(** What the OS does between two turns of the reactor: the child produces
    more events, and [os.kill] starts answering with another errno. *)
Definition os_extend (evs : list event) (k : option Z) (w : world) : world :=
  let r := w_r w in
  World (RState (rs_ps r) (rs_tr r) (OS (os_events (rs_os r) ++ evs) k (os_signalled (rs_os r)))
                (rs_logged r))
        (w_finalizers w) (w_platform w) (w_environ w) (w_spawned w) (w_spawn_errno w) (w_next_pid w).

(** One move of the whole system: a reactor turn, the OS, or pytest's
    teardown of the test's [request]. *)
Inductive wstep : world -> world -> Prop :=
| w_turn w : wstep w (fst (on_r run_one w))
| w_env w evs k : wstep w (os_extend evs k w)
| w_teardown w : wstep w (fst (teardown w)).

(** The worlds a run of the program can reach from [w0]: [run_service]
    with the given arguments, then any interleaving of reactor turns, OS
    moves and teardowns. *)
Inductive reachable (w0 : world) (magic : list Z) (exe : string) (args : list string)
    (cwd : option string) (pl : bool) : world -> Prop :=
| reach_launch : reachable w0 magic exe args cwd pl (fst (run_service magic exe args cwd pl w0))
| reach_step w w' : reachable w0 magic exe args cwd pl w -> wstep w w' ->
    reachable w0 magic exe args cwd pl w'.

(** The readiness Deferred [run_service] hands back when called in [w0];
    [exited] is the next location. *)
Definition d0 (w0 : world) : loc := next_loc (ps_heap (rs_ps (w_r w0))).

(** The invariant of the worlds reachable from [w0]. *)
Record winv (w0 : world) (magic : list Z) (pl : bool) (w : world) : Prop := {
  winv_r : rinv [to_transport] (d0 w0) (w_r w);
  winv_exited : exited (ps_proto (rs_ps (w_r w))) = S (d0 w0);
  winv_magic : magic_text (ps_proto (rs_ps (w_r w))) = magic;
  winv_print_logs : print_logs (ps_proto (rs_ps (w_r w))) = pl;
  winv_finalizers : w_finalizers w = w_finalizers w0 ++ [Finalizer (S (d0 w0))];
  winv_ended : ended_ok (rs_tr (w_r w))
}.

(** ** The examples' run

    A child launched with the marker "READY" that prints it at once. After
    one reactor turn it is ready. *)
Definition ex_w0 : world := w_fresh "linux" None [EvData 1 (lit "READY")]%Z.

Definition ex_launch : world := fst (run_service (lit "READY") "service" ["service"] None true ex_w0).

Definition ex_turn : world := fst (on_r run_one ex_launch).

(** Then the OS queues the child's end: its pipes close and it is reaped. *)
Definition ex_end : list event := [EvFdClosed 1; EvFdClosed 2; EvFdClosed 3; EvExit ProcessDone]%Z.
Definition ex_ending : world := os_extend ex_end None ex_turn.

Section Refinement.
Variable cbs0 : list (pyval -> pyval).

(** A step that extends the heap, keeps [exited] and never takes readiness
    from pending to resolved together with the exit, is at most one
    abstract step. *)
Lemma abs_step ms0 s s' :
  rinv cbs0 ms0 s -> rinv cbs0 ms0 s' ->
  heap_le (ps_heap (rs_ps s)) (ps_heap (rs_ps s')) ->
  exited (ps_proto (rs_ps s')) = exited (ps_proto (rs_ps s)) ->
  (forall v, result_of (ps_heap (rs_ps s)) ms0 = None ->
     result_of (ps_heap (rs_ps s')) ms0 = Some (Success v) ->
     is_pending (ps_heap (rs_ps s')) (exited (ps_proto (rs_ps s'))) = true) ->
  astep_opt (abs ms0 s) (abs ms0 s').
Proof.
  intros Hr Hr' Hle Hx Hjump. pose proof (rinv_ps _ _ _ Hr) as Hi.
  pose proof (rinv_ps _ _ _ Hr') as Hi'. unfold abs, astep_opt.
  destruct (result_of (ps_heap (rs_ps s)) ms0) as [o|] eqn:E.
  - rewrite (heap_le_result _ _ _ _ Hle E). rewrite Hx.
    destruct (is_pending (ps_heap (rs_ps s)) (exited (ps_proto (rs_ps s)))) eqn:Ep.
    + destruct (is_pending (ps_heap (rs_ps s')) (exited (ps_proto (rs_ps s)))) eqn:Ep'; [by left|].
      destruct o as [v|e]; [right; constructor|].
      by destruct (inv_failure _ _ _ Hi e E) as (_ & _ & Hf); rewrite Hf in Ep.
    + rewrite (heap_le_not_pending _ _ _ Hle (inv_exited _ _ _ Hi) Ep). by left.
  - rewrite (result_None_exited cbs0 ms0 _ Hi E). simpl.
    destruct (result_of (ps_heap (rs_ps s')) ms0) as [[v|e]|] eqn:E'; simpl.
    + rewrite (Hjump v eq_refl eq_refl). right. constructor.
    + destruct (inv_failure _ _ _ Hi' e E') as (_ & _ & ->). right. constructor.
    + rewrite (result_None_exited cbs0 ms0 _ Hi' E'). by left.
Qed.

(** A step that touches neither the heap nor [exited] (a [print], a
    signal) keeps the phase. *)
Lemma abs_same ms0 s s' :
  ps_heap (rs_ps s') = ps_heap (rs_ps s) ->
  exited (ps_proto (rs_ps s')) = exited (ps_proto (rs_ps s)) -> abs ms0 s' = abs ms0 s.
Proof. unfold abs. by intros -> ->. Qed.

(** One reactor turn is at most one step of the lifecycle. *)
Lemma run_one_refines ms0 s :
  rinv cbs0 ms0 s -> astep_opt (abs ms0 s) (abs ms0 (fst (run_one s))).
Proof.
  intros Hr. apply abs_step; [done|by apply rinv_run_one|apply run_one_heap_le| |].
  - exact (proj1 (proj2 (run_one_ok cbs0 ms0 s Hr))).
  - intros v. by apply (run_one_no_jump cbs0).
Qed.

(** [blockon] runs reactor turns: it keeps the invariant and the frame,
    and moves along the lifecycle. *)
Lemma blockon_loop_refines ms0 l fuel : forall s,
  rinv cbs0 ms0 s ->
  rinv cbs0 ms0 (fst (blockon_loop fuel l s)) /\
  rtc astep (abs ms0 s) (abs ms0 (fst (blockon_loop fuel l s))) /\
  proto_frame (ps_proto (rs_ps s)) (ps_proto (rs_ps (fst (blockon_loop fuel l s)))) /\
  heap_le (ps_heap (rs_ps s)) (ps_heap (rs_ps (fst (blockon_loop fuel l s)))).
Proof.
  induction fuel as [|fuel IH]; intros s Hr; simpl;
    destruct (result_of (ps_heap (rs_ps s)) l) as [[v|e]|]; try done;
    destruct (os_events (rs_os s)); try done.
  unfold mbind, pym_bind, bind.
  pose proof (rinv_run_one cbs0 ms0 s Hr) as Hr1.
  pose proof (astep_opt_rtc _ _ (run_one_refines ms0 s Hr)) as Hs1.
  pose proof (run_one_frame cbs0 ms0 s Hr) as Hf1.
  pose proof (run_one_heap_le s) as Hh1.
  destruct (run_one s) as [s1 [b|e'|]]; simpl in *; try done.
  destruct (IH s1 Hr1) as (Hr2 & Hs2 & Hf2 & Hh2). split_and!; [done|by etrans..].
Qed.

(** Cleanup keeps the invariant and the frame, and moves along the
    lifecycle, on every path: no pid, a failed [os.kill], and [blockon]. *)
Lemma cleanup_refines ms0 ex s :
  ex = exited (ps_proto (rs_ps s)) -> rinv cbs0 ms0 s ->
  rinv cbs0 ms0 (fst (cleanup_service_process ex s)) /\
  rtc astep (abs ms0 s) (abs ms0 (fst (cleanup_service_process ex s))) /\
  proto_frame (ps_proto (rs_ps s)) (ps_proto (rs_ps (fst (cleanup_service_process ex s)))) /\
  heap_le (ps_heap (rs_ps s)) (ps_heap (rs_ps (fst (cleanup_service_process ex s)))).
Proof.
  intros -> Hr. destruct (pid (rs_tr s)) as [p|] eqn:Hp.
  - destruct (os_kill (rs_os s)) as [errno|] eqn:Hk.
    + destruct s as [[pp h o] tr [evs k sg] lg]. simpl in *. subst k.
      unfold cleanup_service_process, print_line, on_ps, stdout_write, get_tr, signalProcess.
      py_unfold. do 3 (simpl; rewrite ?Hp).
      assert (Hr' : rinv cbs0 ms0 (RState (PState pp h (o ++ [OutSignaling p])) tr
                                          (OS evs (Some errno) (p :: sg)) lg)).
      { destruct Hr as [Hi ? ? ?]. split; try done. by apply inv_stdout_app. }
      destruct (errno =? ESRCH)%Z; simpl; (split_and!; [done| |done|done]); by erewrite abs_same.
    + rewrite (cleanup_signal_run _ _ _ Hp Hk).
      pose proof (rinv_signalled_state cbs0 ms0 s p Hr) as Hr3.
      pose proof (blockon_exited cbs0 ms0 (signalled_state s p) Hr3) as Hbe.
      change (exited (ps_proto (rs_ps (signalled_state s p)))) with (exited (ps_proto (rs_ps s))) in Hbe.
      rewrite Hbe.
      assert (Ha : abs ms0 (signalled_state s p) = abs ms0 s) by by apply abs_same.
      destruct (blockon_loop_refines ms0 (exited (ps_proto (rs_ps s))) (length (os_events (rs_os (signalled_state s p))))
                  _ Hr3) as (Hr4 & Hs4 & Hf4 & Hh4).
      rewrite Ha in Hs4.
      destruct (blockon_loop _ _ (signalled_state s p)) as [s' [v|e|]]; simpl in *;
        [|destruct (is_ProcessExitedAlready e)|]; simpl; try done.
      split_and!; [by apply rinv_print| |done|done].
      by rewrite (abs_same ms0 s' (RState _ _ _ _)).
  - rewrite (cleanup_no_pid _ _ Hp). split_and!; [|by erewrite abs_same|done|done].
    destruct s as [[pp h o] tr os0 lg], Hr as [Hi ? ? ?]. split; try done.
    by apply inv_stdout_app.
Qed.

End Refinement.

(** ** Runs of the program in its environment *)

Lemma on_r_fst {A} (m : PyM rstate A) w :
  fst (on_r m w) = World (fst (m (w_r w))) (w_finalizers w) (w_platform w) (w_environ w)
                         (w_spawned w) (w_spawn_errno w) (w_next_pid w).
Proof. unfold on_r, focus. by destruct (m (w_r w)). Qed.

(** pytest's teardown runs cleanups, each of which keeps the invariant and
    the frame, moves along the lifecycle and extends the heap. *)
Lemma run_finalizers_refines cbs0 ms0 fs : forall w,
  rinv cbs0 ms0 (w_r w) -> Forall (fun f => fin_exited f = exited (ps_proto (rs_ps (w_r w)))) fs ->
  let w' := fst (run_finalizers fs w) in
  rinv cbs0 ms0 (w_r w') /\ rtc astep (abs ms0 (w_r w)) (abs ms0 (w_r w')) /\
  proto_frame (ps_proto (rs_ps (w_r w))) (ps_proto (rs_ps (w_r w'))) /\
  heap_le (ps_heap (rs_ps (w_r w))) (ps_heap (rs_ps (w_r w'))) /\
  w_finalizers w' = w_finalizers w.
Proof.
  induction fs as [|f fs IH]; intros w Hr Hfs; [done|]. apply Forall_cons in Hfs as [Hx Hfs].
  simpl. pose proof (on_r_fst (cleanup_service_process (fin_exited f)) w) as Hw.
  destruct (cleanup_refines cbs0 ms0 (fin_exited f) (w_r w) Hx Hr) as (Hr1 & Hs1 & Hf1 & Hh1).
  set (w1 := World (fst (cleanup_service_process (fin_exited f) (w_r w))) (w_finalizers w)
    (w_platform w) (w_environ w) (w_spawned w) (w_spawn_errno w) (w_next_pid w)).
  assert (Hfs1 : Forall (fun f => fin_exited f = exited (ps_proto (rs_ps (w_r w1)))) fs)
    by (unfold w1; cbn [w_r]; rewrite (proj1 Hf1); exact Hfs).
  destruct (IH w1 Hr1 Hfs1) as (Hr2 & Hs2 & Hf2 & Hh2 & Hfs2). simpl in *.
  destruct (on_r (cleanup_service_process (fin_exited f)) w) as [w1' [[]|e|]]; simpl in *;
    subst w1'; [| |done].
  - split_and!; [done|by etrans..|exact Hfs2].
  - unfold w1 in *. destruct (run_finalizers fs _) as [w2 r2]. simpl in *.
    split_and!; [done|by etrans..|exact Hfs2].
Qed.

Lemma wstep_refines cbs0 ms0 w w' :
  rinv cbs0 ms0 (w_r w) -> Forall (fun f => fin_exited f = exited (ps_proto (rs_ps (w_r w)))) (w_finalizers w) ->
  wstep w w' ->
  rinv cbs0 ms0 (w_r w') /\ rtc astep (abs ms0 (w_r w)) (abs ms0 (w_r w')) /\
  proto_frame (ps_proto (rs_ps (w_r w))) (ps_proto (rs_ps (w_r w'))) /\
  heap_le (ps_heap (rs_ps (w_r w))) (ps_heap (rs_ps (w_r w'))) /\
  w_finalizers w' = w_finalizers w.
Proof.
  intros Hr Hfs Hs. inversion Hs as [w1|w1 evs k|w1]; subst; clear Hs.
  - rewrite on_r_fst. simpl. split_and!; [by apply rinv_run_one| | |apply run_one_heap_le|done].
    + apply astep_opt_rtc, (run_one_refines cbs0), Hr.
    + apply (run_one_frame cbs0 ms0), Hr.
  - destruct w as [[ps tr o lg] ? ? ? ? ? ?]. simpl in *. split_and!; try done.
    by apply (rinv_os _ _ _ _ o _ lg).
  - apply run_finalizers_refines; [exact Hr|]. by apply Forall_rev.
Qed.

(** *** A property of the reactor's state that reactor turns, the OS and
    cleanup keep is kept by every move of the system *)

Section WPreserve.
Variable R : rstate -> Prop.
Hypothesis HR_turn : forall s, R s -> R (fst (run_one s)).
Hypothesis HR_os : forall ps tr o evs k lg, R (RState ps tr o lg) ->
  R (RState ps tr (OS (os_events o ++ evs) k (os_signalled o)) lg).
Hypothesis HR_cleanup : forall ex s, R s -> R (fst (cleanup_service_process ex s)).

Lemma run_finalizers_preserves fs : forall w, R (w_r w) -> R (w_r (fst (run_finalizers fs w))).
Proof.
  induction fs as [|f fs IH]; intros w H; [done|]. simpl.
  pose proof (on_r_fst (cleanup_service_process (fin_exited f)) w) as Hw.
  pose proof (HR_cleanup (fin_exited f) (w_r w) H) as H1.
  destruct (on_r (cleanup_service_process (fin_exited f)) w) as [w1 [[]|e|]]; simpl in *;
    subst w1; [by apply IH| |done].
  match goal with |- context [run_finalizers fs ?w1] => pose proof (IH w1 H1) as H2 end.
  destruct (run_finalizers fs _) as [w2 r2]. exact H2.
Qed.

Lemma wstep_preserves w w' : R (w_r w) -> wstep w w' -> R (w_r w').
Proof.
  intros H Hs. inversion Hs as [w1|w1 evs k|w1]; subst; clear Hs.
  - rewrite on_r_fst. by apply HR_turn.
  - destruct w as [[ps tr o lg] ? ? ? ? ? ?]. by apply (HR_os ps tr o evs k lg).
  - by apply run_finalizers_preserves.
Qed.

End WPreserve.

(** Every move of the system keeps the transport [ended_ok]. *)
Lemma wstep_ended w w' : ended_ok (rs_tr (w_r w)) -> wstep w w' -> ended_ok (rs_tr (w_r w')).
Proof. apply (wstep_preserves (fun s => ended_ok (rs_tr s))); [apply run_one_ended|done|apply cleanup_ended]. Qed.

(** Once the pid is gone, pytest's teardown only prints: each cleanup
    prints "exited, goodbye" and returns. *)
Lemma run_finalizers_no_pid fs : forall w,
  pid (rs_tr (w_r w)) = None ->
  let '(w', r) := run_finalizers fs w in
  r = Ok tt /\ rs_tr (w_r w') = rs_tr (w_r w) /\ rs_os (w_r w') = rs_os (w_r w) /\
  rs_ps (w_r w') = PState (ps_proto (rs_ps (w_r w))) (ps_heap (rs_ps (w_r w)))
                          (ps_stdout (rs_ps (w_r w)) ++ repeat OutGoodbye (length fs)).
Proof.
  induction fs as [|f fs IH]; intros w Hp.
  - simpl. rewrite app_nil_r. by destruct (rs_ps (w_r w)).
  - simpl. unfold on_r, focus. rewrite (cleanup_no_pid _ _ Hp).
    match goal with |- context [run_finalizers fs ?w1] => specialize (IH w1 Hp) end.
    destruct (run_finalizers fs _) as [w' r]. simpl in IH.
    destruct IH as (-> & -> & -> & ->). split_and!; try done. by rewrite <- app_assoc.
Qed.

(** pytest's teardown with the process's finalizer registered last: it
    runs first, signals the live child and waits for [exited]; the pid is
    then gone, so every earlier finalizer only prints. Teardown returns
    normally, with [exited] fired and the readiness Deferred settled. *)
Lemma teardown_returns cbs0 ms0 w fs p r0 :
  rinv cbs0 ms0 (w_r w) -> ended_ok (rs_tr (w_r w)) ->
  w_finalizers w = fs ++ [Finalizer (exited (ps_proto (rs_ps (w_r w))))] ->
  pid (rs_tr (w_r w)) = Some p -> os_kill (rs_os (w_r w)) = None ->
  EvExit r0 ∈ os_events (rs_os (w_r w)) ->
  (forall fd, fd ∈ pipes (rs_tr (w_r w)) -> EvFdClosed fd ∈ os_events (rs_os (w_r w))) ->
  let '(w', r) := teardown w in
  r = Ok tt /\ p ∈ os_signalled (rs_os (w_r w')) /\
  is_pending (ps_heap (rs_ps (w_r w'))) (exited (ps_proto (rs_ps (w_r w)))) = false /\
  result_of (ps_heap (rs_ps (w_r w'))) ms0 <> None /\
  heap_le (ps_heap (rs_ps (w_r w))) (ps_heap (rs_ps (w_r w'))).
Proof.
  intros Hr He Hf Hp Hk Hexit Hclosed.
  unfold teardown. rewrite Hf, rev_app_distr. simpl. unfold on_r, focus.
  pose proof (cleanup_returns _ _ _ p r0 Hr He Hp Hk Hexit Hclosed) as Hret.
  destruct (cleanup_refines cbs0 ms0 (exited (ps_proto (rs_ps (w_r w)))) (w_r w) eq_refl Hr)
    as (_ & _ & _ & Hle).
  destruct (cleanup_service_process _ (w_r w)) as [s1 r1].
  destruct Hret as (-> & Hsig & _ & Hfired & Hnone & Hr1 & Hx1).
  match goal with |- context [run_finalizers ?fs ?w1] =>
    pose proof (run_finalizers_no_pid fs w1 Hnone) as Hrest end.
  destruct (run_finalizers _ _) as [w' r]. simpl in Hrest, Hle.
  destruct Hrest as (-> & _ & -> & ->). simpl. rewrite <- Hx1.
  split_and!; [done|done|done| |done]. intros Hn.
  by rewrite (result_None_exited _ _ _ (rinv_ps _ _ _ Hr1) Hn) in Hfired.
Qed.

Section Launch.
(** The world [run_service] is called in, and its arguments. *)
Variables (w0 : world) (magic : list Z) (exe : string) (args : list string)
  (cwd : option string) (pl : bool).

Hypothesis Hok : world_ok w0.
Hypothesis Hspawn : w_spawn_errno w0 = None.

Lemma winv_launch : winv w0 magic pl (fst (run_service magic exe args cwd pl w0)).
Proof.
  pose proof (run_service_spawned w0 magic exe args cwd pl Hok Hspawn) as Hrun.
  destruct (run_service magic exe args cwd pl w0) as [w r]. simpl.
  destruct Hrun as (_ & Hr & _ & Htr & Hx & Hm & Hp & Hf & _). rewrite Hx in Hf.
  split; try done. rewrite Htr. intros _ Hl. by exfalso; apply Hl.
Qed.

Lemma winv_step w w' : winv w0 magic pl w -> wstep w w' -> winv w0 magic pl w'.
Proof.
  intros [Hr Hx Hm Hp Hf He] Hs.
  assert (Hfs : Forall (fun f => fin_exited f = exited (ps_proto (rs_ps (w_r w)))) (w_finalizers w))
    by (rewrite Hf, (wo_fins _ Hok), Hx; by repeat constructor).
  destruct (wstep_refines _ _ _ _ Hr Hfs Hs) as (Hr' & _ & (Hx' & Hm' & Hp') & _ & Hf').
  split; try congruence. by apply (wstep_ended w).
Qed.

Lemma reachable_winv w : reachable w0 magic exe args cwd pl w -> winv w0 magic pl w.
Proof.
  induction 1 as [|w w' _ IH Hs]; [apply winv_launch|by apply (winv_step w)].
Qed.

(** Reactor turns from a reachable world reach worlds. *)
Lemma reachable_run_steps m : forall w, reachable w0 magic exe args cwd pl w ->
  reachable w0 magic exe args cwd pl
    (World (fst (run_steps m (w_r w))) (w_finalizers w) (w_platform w) (w_environ w)
           (w_spawned w) (w_spawn_errno w) (w_next_pid w)).
Proof.
  induction m as [|m IH]; intros w Hreach; [by destruct w|].
  destruct (run_one_ok _ _ (w_r w) (winv_r _ _ _ _ (reachable_winv w Hreach))) as ([b Hb] & _).
  pose proof (reach_step _ _ _ _ _ _ _ _ Hreach (w_turn w)) as H1. rewrite on_r_fst in H1.
  destruct (run_one (w_r w)) as [s1 r1] eqn:E. simpl in Hb, H1. subst r1.
  rewrite (run_steps_S _ _ _ _ E). exact (IH _ H1).
Qed.

(** C1: Safety of every run. In every world the program can reach, the
    Deferred [run_service] returned is pending with the child still
    running; or it has fired with the process transport, the marker is in
    the accumulated stdout and "Saw" was printed once; or it has failed
    with "Service failed.", [exited] has fired and "Saw" was never
    printed. *)
Theorem reachable_safe w :
  reachable w0 magic exe args cwd pl w ->
  let ps := rs_ps (w_r w) in
  (result_of (ps_heap ps) (d0 w0) = None /\ is_pending (ps_heap ps) (S (d0 w0)) = true /\
     count_saw (ps_stdout ps) = 0) \/
  (result_of (ps_heap ps) (d0 w0) = Some (Success PyTransport) /\
     contains magic (getvalue (output (ps_proto ps))) = true /\ count_saw (ps_stdout ps) = 1) \/
  (result_of (ps_heap ps) (d0 w0) = Some (Failure service_failed) /\
     is_pending (ps_heap ps) (S (d0 w0)) = false /\ count_saw (ps_stdout ps) = 0).
Proof.
  intros Hreach. destruct (reachable_winv w Hreach) as [Hr Hx Hm _ _ _]. simpl.
  pose proof (rinv_ps _ _ _ Hr) as Hi. rewrite <- Hx, <- Hm.
  destruct (result_of (ps_heap (rs_ps (w_r w))) (d0 w0)) as [[v|e]|] eqn:E.
  - right; left. rewrite (inv_success_value _ _ _ Hi v E).
    by destruct (inv_success _ _ _ Hi v E).
  - right; right. by destruct (inv_failure _ _ _ Hi e E) as (-> & ? & ?).
  - left. split_and!; [done|by apply (result_None_exited [to_transport] (d0 w0))|].
    destruct (inv_pending _ _ _ Hi) as [(_ & _ & _ & ?)|(_ & Hp)]; [done|].
    by rewrite (result_None_pending [to_transport] (d0 w0) _ Hi E) in Hp.
Qed.

(** C2: Liveness of teardown. From any world the program can reach, with
    the child alive and an OS whose remaining events reap it and close the
    pipes still read, pytest's teardown returns normally. It has sent TERM
    to the child, [exited] has fired and the returned Deferred holds a
    result: no cleanup waits forever and none raises. *)
Theorem teardown_terminates w p r0 :
  reachable w0 magic exe args cwd pl w ->
  pid (rs_tr (w_r w)) = Some p -> os_kill (rs_os (w_r w)) = None ->
  EvExit r0 ∈ os_events (rs_os (w_r w)) ->
  (forall fd, fd ∈ pipes (rs_tr (w_r w)) -> EvFdClosed fd ∈ os_events (rs_os (w_r w))) ->
  let '(w', r) := teardown w in
  r = Ok tt /\ p ∈ os_signalled (rs_os (w_r w')) /\
  is_pending (ps_heap (rs_ps (w_r w'))) (S (d0 w0)) = false /\
  result_of (ps_heap (rs_ps (w_r w'))) (d0 w0) <> None.
Proof.
  intros Hreach Hp Hk Hexit Hclosed. destruct (reachable_winv w Hreach) as [Hr Hx _ _ Hf He].
  rewrite <- Hx in Hf |- *.
  pose proof (teardown_returns _ _ w _ p r0 Hr He Hf Hp Hk Hexit Hclosed) as H.
  destruct (teardown w). tauto.
Qed.

End Launch.

(** ** Witnesses *)

Lemma ex_turn_reachable : reachable ex_w0 (lit "READY") "service" ["service"] None true ex_turn.
Proof. eapply reach_step; [apply reach_launch|apply w_turn]. Qed.

Lemma ex_ending_reachable : reachable ex_w0 (lit "READY") "service" ["service"] None true ex_ending.
Proof. eapply reach_step; [apply ex_turn_reachable|apply w_env]. Qed.

Lemma teardown_terminates_witness :
  let '(w', r) := teardown ex_ending in
  r = Ok tt /\ 4242%Z ∈ os_signalled (rs_os (w_r w')) /\
  is_pending (ps_heap (rs_ps (w_r w'))) (S (d0 ex_w0)) = false /\
  result_of (ps_heap (rs_ps (w_r w'))) (d0 ex_w0) <> None.
Proof.
  apply (teardown_terminates ex_w0 _ _ _ _ _ (w_fresh_ok _ _ _) eq_refl ex_ending 4242%Z ProcessDone
           ex_ending_reachable).
  - reflexivity.
  - reflexivity.
  - vm_compute. set_solver.
  - intros fd Hfd. vm_compute in Hfd |- *. set_solver.
Defined.

Lemma reachable_safe_witness :
  result_of (ps_heap (rs_ps (w_r ex_turn))) (d0 ex_w0) = Some (Success PyTransport) /\
  let ps := rs_ps (w_r ex_turn) in
  (result_of (ps_heap ps) (d0 ex_w0) = None /\ is_pending (ps_heap ps) (S (d0 ex_w0)) = true /\
     count_saw (ps_stdout ps) = 0) \/
  (result_of (ps_heap ps) (d0 ex_w0) = Some (Success PyTransport) /\
     contains (lit "READY") (getvalue (output (ps_proto ps))) = true /\ count_saw (ps_stdout ps) = 1) \/
  (result_of (ps_heap ps) (d0 ex_w0) = Some (Failure service_failed) /\
     is_pending (ps_heap ps) (S (d0 ex_w0)) = false /\ count_saw (ps_stdout ps) = 0).
Proof.
  split; [vm_compute; reflexivity|].
  apply (reachable_safe ex_w0 _ _ _ _ _ (w_fresh_ok _ _ _) eq_refl ex_turn ex_turn_reachable).
Defined.

End Lifecycle.
