(* ===== verification/Mailbox.v ===== *)
(** * [WormholeMailboxServer.create]: the caller of [run_service] (util.py:129-160)

    [create] launches [python -m twisted wormhole-mailbox] on port 4000 with
    the marker "Starting reactor..." and [print_logs=False]. It awaits the
    Deferred [run_service] returns and builds the server record. The
    coroutine's [await] ([Deferred.__await__] under Twisted's inline
    callbacks) reads a fired Deferred as it is; on a pending one the reactor
    runs until it fires, and the callback [await] added leaves [None] in
    it. The model takes [sys.executable] as
    a parameter and leaves out the [reactor] attribute, the one global
    reactor, which [create] only stores.

    The theorems give the three outcomes. When the child's stdout brings
    the marker, [create] returns a server whose transport is the process
    and whose url is the one the port is tied to. When the child exits
    without writing anything to stdout, [create] raises "Service
    failed.". When the spawn fails, [create] raises the [OSError]. From
    start to finish, the session's teardown after [create] stops the
    mailbox and returns. *)

From S2P Require Import Prelude Utf8 PyStr Deferred Protocol Reactor Launcher Cleanup Lifecycle.
From stdpp Require Import base list gmap strings.
From Stdlib Require Import ZArith Lia.

Module Mailbox.
Import Deferred PyStr MagicTextProtocol Reactor Launcher Cleanup Lifecycle.

(** The attributes of [@attr.s class WormholeMailboxServer] but the
    reactor. *)
Record WormholeMailboxServer := MailboxServer {
  process_transport : pyval;
  url : string
}.

(** [args] (util.py:140-147). *)
Definition mailbox_args (executable : string) : list string :=
  [executable; "-m"; "twisted"; "wormhole-mailbox"; "--port"; "tcp:4000:interface=localhost"].

Definition mailbox_magic : list Z := lit "Starting reactor...".
Definition mailbox_url : string := "ws://localhost:4000/v1".

(** [await d] in the coroutine [create], which Twisted's inline callbacks
    drive ([Deferred.__await__]). A Deferred that has fired gives its
    result at once and keeps it. A pending one gets the callback
    [_gotResultInlineCallbacks] through [addBoth]: the reactor runs until
    [d] fires, the coroutine resumes with [d]'s result, and the callback
    has left [None] in [d], as [blockon]'s does. *)
Definition await (d : loc) : PyM world pyval :=
  fun w =>
    match result_of (ps_heap (rs_ps (w_r w))) d with
    | Some (Success v) => (w, Ok v)
    | Some (Failure e) => (w, Raise e)
    | None => on_r (blockon d) w
    end.

(** [WormholeMailboxServer.create(reactor, request)], with
    [sys.executable] as [executable]. *)
Definition create (executable : string) : PyM world WormholeMailboxServer :=
  d <- run_service mailbox_magic executable (mailbox_args executable) None false ;;
  transport <- await d ;;
  ret (MailboxServer transport mailbox_url).

(** The banner, as the examples' child prints it. *)
Definition ex_banner : list Z := lit "Starting reactor...".

(** A session: the banner, then the child's end ([ex_end] of Lifecycle). *)
Definition ex_session : world := w_fresh "linux" None (EvData 1 ex_banner :: ex_end).

(** ** What the readiness Deferred holds *)

Section Outcome.
Variable cbs0 : list (pyval -> pyval).

(** A readiness Deferred that is no longer pending holds a result. *)
Lemma not_pending_result ms0 s :
  inv cbs0 ms0 s -> is_pending (ps_heap s) ms0 = false ->
  exists o, result_of (ps_heap s) ms0 = Some o.
Proof.
  intros Hi Hp. destruct (inv_ms0 _ _ _ Hi) as [[cbs|o] Hc];
  unfold is_pending, result_of in *; rewrite Hc in *; [done|eauto].
Qed.

(** Once [exited] has fired, readiness is no longer pending. *)
Lemma exited_not_pending ms0 s :
  inv cbs0 ms0 s -> is_pending (ps_heap s) (exited (ps_proto s)) = false ->
  is_pending (ps_heap s) ms0 = false.
Proof.
  intros Hi He. pose proof (inv_exited_fired _ _ _ Hi He) as Hm.
  by destruct (inv_pending _ _ _ Hi) as [(Hm' & _)|(_ & ?)]; [congruence|].
Qed.

(** The state after [await] has resumed: the readiness Deferred holds
    [None], and the invariant holds for the chain with the await's callback
    appended. *)
Lemma rinv_drop_result ms0 s v :
  rinv cbs0 ms0 s -> result_of (ps_heap (rs_ps s)) ms0 = Some (Success v) ->
  rinv (cbs0 ++ [fun _ => PyNone]) ms0 (fst (on_ps (on_heap (drop_result ms0)) s)).
Proof.
  destruct s as [[p h o] tr os lg]. intros [Hi Ha Hd Hl] Hv. simpl in *.
  pose proof (inv_drop_result _ _ _ _ _ _ Hi Hv) as Hi'.
  unfold on_ps, on_heap, focus. simpl. destruct (drop_result ms0 h) as [h' r] eqn:E. simpl in *.
  split; simpl; [done| |done|done]. rewrite <- Ha. unfold is_pending.
  replace h' with (fst (drop_result ms0 h)) by (by rewrite E).
  by rewrite cells_drop_result_ne by exact (inv_ne _ _ _ Hi).
Qed.

End Outcome.

(** The state [run_service] leaves for [await]. *)
Lemma create_run w exe :
  world_ok w -> w_spawn_errno w = None ->
  let d := next_loc (ps_heap (rs_ps (w_r w))) in
  exists w1, run_service mailbox_magic exe (mailbox_args exe) None false w = (w1, Ok d) /\
    create exe w = (let '(w2, r) := on_r (blockon d) w1 in
                    (w2, res_map (fun t => MailboxServer t mailbox_url) r)) /\
    rinv [to_transport] d (w_r w1) /\ is_pending (ps_heap (rs_ps (w_r w1))) d = true /\
    rs_os (w_r w1) = rs_os (w_r w) /\
    rs_tr (w_r w1) = Transport (Some (w_next_pid w)) (read_fds (child_fds (w_platform w))) None true /\
    magic_text (ps_proto (rs_ps (w_r w1))) = mailbox_magic /\
    getvalue (output (ps_proto (rs_ps (w_r w1)))) = [].
Proof.
  intros Hok He. pose proof (run_service_spawned w mailbox_magic exe (mailbox_args exe) None false Hok He)
    as Hrun.
  destruct (run_service mailbox_magic exe (mailbox_args exe) None false w) as [w1 r] eqn:E.
  destruct Hrun as (-> & Hr & Hp & Htr & _ & Hm & _ & _ & _ & Ho & Hout & _).
  exists w1. split_and!; try done.
  assert (Hn : result_of (ps_heap (rs_ps (w_r w1))) (next_loc (ps_heap (rs_ps (w_r w)))) = None)
    by (unfold is_pending, result_of in *; by destruct (cells _ !! _) as [[]|]).
  unfold create. unfold mbind, pym_bind, bind. rewrite E. py_unfold. unfold await. rewrite Hn.
  by destruct (on_r (blockon _) w1) as [w2 [t|e|]].
Qed.

(** The child's stdout is read on every platform. *)
Lemma stdout_read plat : 1%Z ∈ read_fds (child_fds plat).
Proof. unfold child_fds. case_bool_decide; simpl; set_solver. Qed.

(** Once the banner has arrived on stdout, the Deferred [run_service]
    returned holds the process transport. *)
Lemma banner_fires d s chunks ts rest :
  rinv [to_transport] d s -> attached (rs_tr s) = true -> 1%Z ∈ pipes (rs_tr s) ->
  magic_text (ps_proto (rs_ps s)) = mailbox_magic -> getvalue (output (ps_proto (rs_ps s))) = [] ->
  os_events (rs_os s) = map (EvData 1) chunks ++ rest ->
  Forall2 (fun c t => Utf8.decode c = Ok t) chunks ts ->
  contains mailbox_magic (concat ts) = true ->
  result_of (ps_heap (rs_ps (fst (run_steps (length chunks) s)))) d = Some (Success PyTransport).
Proof.
  intros Hr Ha H1 Hm Hout Hev Hdec Hin.
  pose proof (stdout_chunks_run [to_transport] d chunks ts s rest Hr Ha H1 Hev Hdec) as Hch.
  destruct (run_steps (length chunks) s) as [s' r'].
  destruct Hch as (_ & _ & Hr' & Htr' & Hm' & Hout'). simpl.
  pose proof (rinv_ps _ _ _ Hr') as Hi'.
  assert (Hx : is_pending (ps_heap (rs_ps s')) (exited (ps_proto (rs_ps s'))) = true)
    by (rewrite (rinv_attached _ _ _ Hr'), Htr'; done).
  assert (Hp : is_pending (ps_heap (rs_ps s')) d = false).
  { rewrite (readiness_iff_marker _ _ _ Hi' Hx).
    - by rewrite Hm', Hm, Hout', Hout, app_nil_l, Hin.
    - left. by rewrite Hm', Hm. }
  destruct (not_pending_result _ _ _ Hi' Hp) as [[v|e] Ho].
  - by rewrite (inv_success_value _ _ _ Hi' v Ho) in Ho.
  - destruct (inv_failure _ _ _ Hi' e Ho) as (_ & _ & Hf). by rewrite Hf in Hx.
Qed.

(** C9: [create] returns the server once the mailbox prints its banner.
    If the child's first stdout chunks decode and together contain
    "Starting reactor...", [create] returns the record with the process
    transport and the url "ws://localhost:4000/v1". It has spawned
    [sys.executable -m twisted wormhole-mailbox --port
    tcp:4000:interface=localhost]. *)
Theorem create_ready w exe chunks ts rest :
  world_ok w -> w_spawn_errno w = None ->
  os_events (rs_os (w_r w)) = map (EvData 1) chunks ++ rest ->
  Forall2 (fun c t => Utf8.decode c = Ok t) chunks ts ->
  contains mailbox_magic (concat ts) = true ->
  exists w', create exe w = (w', Ok (MailboxServer PyTransport mailbox_url)) /\
    last (w_spawned w') =
      Some (SpawnRequest exe (mailbox_args exe) None (child_fds (w_platform w)) (child_env (w_environ w))).
Proof.
  intros Hok He Hev Hdec Hin.
  destruct (create_run w exe Hok He) as (w1 & Hrun & -> & Hr & _ & Hos & Htr & Hm & Hout).
  set (d := next_loc (ps_heap (rs_ps (w_r w)))) in *.
  assert (H1 : 1%Z ∈ pipes (rs_tr (w_r w1))) by (rewrite Htr; apply stdout_read).
  rewrite <- Hos in Hev.
  pose proof (banner_fires d (w_r w1) chunks ts rest Hr ltac:(by rewrite Htr) H1 Hm Hout Hev Hdec Hin) as Hres.
  destruct (blockon_loop_settles [to_transport] d d (length chunks)
    (length (os_events (rs_os (w_r w1)))) (w_r w1) (Success PyTransport) Hr)
    as (m & _ & Hb); [rewrite Hev, length_app, length_map; lia|done|].
  unfold blockon, on_r, focus. rewrite Hb. simpl. eexists; split; [done|].
  pose proof (run_service_spawned w mailbox_magic exe (mailbox_args exe) None false Hok He) as Hs.
  rewrite Hrun in Hs. destruct Hs as (_ & _ & _ & _ & _ & _ & _ & _ & Hsp & _).
  rewrite Hsp. simpl. apply last_snoc.
Qed.

(** C11: [create] raises "Service failed." when the mailbox exits without
    printing. If the child never writes to stdout, is reaped, and closes
    every pipe the transport reads, the awaited Deferred fails and [create]
    raises the failure. *)
Theorem create_fails w exe r0 :
  world_ok w -> w_spawn_errno w = None ->
  (forall data, EvData 1 data ∉ os_events (rs_os (w_r w))) ->
  EvExit r0 ∈ os_events (rs_os (w_r w)) ->
  (forall fd, fd ∈ read_fds (child_fds (w_platform w)) -> EvFdClosed fd ∈ os_events (rs_os (w_r w))) ->
  snd (create exe w) = Raise service_failed.
Proof.
  intros Hok He Hno Hexit Hclosed.
  destruct (create_run w exe Hok He) as (w1 & _ & -> & Hr & Hp0 & Hos & Htr & _ & _).
  set (d := next_loc (ps_heap (rs_ps (w_r w)))) in *.
  rewrite <- Hos in Hno, Hexit, Hclosed.
  set (n := length (os_events (rs_os (w_r w1)))).
  assert (Hend : ended_ok (rs_tr (w_r w1))).
  { rewrite Htr. unfold ended_ok, child_fds. simpl. by case_bool_decide. }
  assert (Hdet := detached_after_all [to_transport] d _ (w_r w1) eq_refl Hr Hend
                    (or_intror (ex_intro _ r0 Hexit)) ltac:(rewrite Htr; exact Hclosed)).
  pose proof (rinv_run_steps [to_transport] d n (w_r w1) Hr) as Hr'.
  pose proof (rinv_ps _ _ _ Hr') as Hi'.
  assert (Hx : is_pending (ps_heap (rs_ps (fst (run_steps n (w_r w1)))))
                 (exited (ps_proto (rs_ps (fst (run_steps n (w_r w1)))))) = false)
    by (rewrite (rinv_attached _ _ _ Hr'); exact Hdet).
  assert (Hn : result_of (ps_heap (rs_ps (w_r w1))) d = None)
    by (unfold is_pending, result_of in *; by destruct (cells _ !! d) as [[]|]).
  destruct (not_pending_result _ _ _ Hi' (exited_not_pending _ _ _ Hi' Hx)) as [[v|e] Ho].
  - by destruct (run_steps_not_stdout [to_transport] d v n (w_r w1) Hr Hno Hn).
  - destruct (inv_failure _ _ _ Hi' e Ho) as (-> & _).
    destruct (blockon_loop_settles [to_transport] d d n n (w_r w1) (Failure service_failed) Hr
      (le_n _) Ho) as (m & _ & Hb).
    unfold blockon, on_r, focus. fold n. by rewrite Hb.
Qed.

(** C12: [create] when the mailbox cannot be spawned. The spawn of
    [sys.executable -m twisted wormhole-mailbox ...] is attempted,
    [spawnProcess] raises [OSError], and [run_service] and the coroutine
    propagate it: no finalizer is registered and nothing is awaited. *)
Theorem create_spawn_error w exe errno :
  world_ok w -> w_spawn_errno w = Some errno ->
  let '(w', r) := create exe w in
  r = Raise (OSError errno) /\ w_finalizers w' = w_finalizers w /\
  w_spawned w' = w_spawned w ++
    [SpawnRequest exe (mailbox_args exe) None (child_fds (w_platform w)) (child_env (w_environ w))].
Proof.
  intros Hok He. destruct w as [[[p0 h o] tr os0 lg] fins plat env sp errno' npid].
  simpl in *. subst errno'.
  destruct (init_inv mailbox_magic false h o (wo_alloc _ Hok) (wo_saw _ Hok)) as (p & h' & Hinit & _).
  unfold create. launcher_unfold. by split_and!.
Qed.

(** C10: The mailbox fixture from start to finish. The banner arrives on
    stdout, then the OS will reap the child and close its pipes. [create]
    returns the server with the process transport; the Deferred it awaited
    was pending, so the await's callback has left [None] in it. The
    teardown pytest runs at the end of the session then sends TERM to the
    mailbox's pid, waits until [exited] has fired and returns normally. *)
Theorem create_then_teardown w exe chunks ts rest r0 :
  world_ok w -> w_spawn_errno w = None -> os_kill (rs_os (w_r w)) = None ->
  os_events (rs_os (w_r w)) = map (EvData 1) chunks ++ rest ->
  Forall2 (fun c t => Utf8.decode c = Ok t) chunks ts ->
  contains mailbox_magic (concat ts) = true ->
  EvExit r0 ∈ rest ->
  (forall fd, fd ∈ read_fds (child_fds (w_platform w)) -> EvFdClosed fd ∈ rest) ->
  let d := next_loc (ps_heap (rs_ps (w_r w))) in
  exists w1, create exe w = (w1, Ok (MailboxServer PyTransport mailbox_url)) /\
    result_of (ps_heap (rs_ps (w_r w1))) d = Some (Success PyNone) /\
    let '(w2, r) := teardown w1 in
    r = Ok tt /\ w_next_pid w ∈ os_signalled (rs_os (w_r w2)) /\
    is_pending (ps_heap (rs_ps (w_r w2))) (S d) = false.
Proof.
  intros Hok He Hk Hev Hdec Hin Hexit Hclosed d.
  destruct (create_run w exe Hok He) as (w1 & Hrun & -> & Hr & _ & Hos & Htr & Hm & Hout).
  fold d in Hrun, Hr |- *.
  assert (H1 : 1%Z ∈ pipes (rs_tr (w_r w1))) by (rewrite Htr; apply stdout_read).
  rewrite <- Hos in Hev, Hk.
  pose proof (banner_fires d (w_r w1) chunks ts rest Hr ltac:(by rewrite Htr) H1 Hm Hout Hev Hdec Hin) as Hres.
  destruct (blockon_loop_settles [to_transport] d d (length chunks)
    (length (os_events (rs_os (w_r w1)))) (w_r w1) (Success PyTransport) Hr)
    as (m & Hmle & Hb); [rewrite Hev, length_app, length_map; lia|done|].
  pose proof (blockon_loop_Ok _ _ _ _ _ Hb) as Hres2.
  (* the world after [run_service] and [m] turns is reachable *)
  assert (Hr1 : reachable w mailbox_magic exe (mailbox_args exe) None false w1)
    by (pose proof (reach_launch w mailbox_magic exe (mailbox_args exe) None false) as H; by rewrite Hrun in H).
  destruct (reachable_winv w _ _ _ _ _ Hok He _ (reachable_run_steps w _ _ _ _ _ Hok He m w1 Hr1))
    as [Hr2 Hx2 _ _ Hf2 He2]. simpl in Hr2, Hx2, Hf2, He2. rewrite (wo_fins _ Hok) in Hf2.
  change (d0 w) with d in Hr2, Hx2, Hf2.
  (* the [m] turns deliver stdout chunks only *)
  assert (Hev' : os_events (rs_os (w_r w1)) =
                 map (EvData 1) (take m chunks) ++ (map (EvData 1) (drop m chunks) ++ rest))
    by (rewrite Hev, app_assoc, <- map_app, take_drop; done).
  pose proof (stdout_chunks_run [to_transport] d (take m chunks) (take m ts) (w_r w1) _ Hr
    ltac:(by rewrite Htr) H1 Hev' (Forall2_take _ _ _ m Hdec)) as Hch.
  rewrite length_take, Nat.min_l in Hch by lia.
  pose proof (run_steps_os [to_transport] d m (w_r w1) Hr) as Hos2.
  unfold blockon, on_r, focus. rewrite Hb. cbn [fst snd res_map]. eexists; split; [done|].
  destruct (run_steps m (w_r w1)) as [s2 r2]. cbn [fst] in *.
  destruct Hch as (_ & Hevs & _ & Htr2 & _).
  (* the await's callback: [d] holds [None], the rest of the state is unchanged *)
  pose proof (rinv_drop_result _ _ _ _ Hr2 Hres2) as Hr3.
  pose proof (result_of_drop_result _ _ _ Hres2) as Hd3.
  destruct s2 as [[p2 h2 o2] tr2 os2 lg2]. cbn [rs_ps rs_tr rs_os ps_heap ps_proto] in Hr3, Hd3, Hx2, He2, Htr2, Hos2, Hevs |- *.
  unfold on_ps, on_heap, focus in Hr3, Hd3 |- *. cbn [rs_ps rs_tr rs_os ps_heap ps_proto fst snd] in Hr3, Hd3 |- *.
  destruct (drop_result d h2) as [h3 r3] eqn:E3. cbn [rs_ps rs_tr rs_os ps_heap ps_proto fst snd w_r] in Hr3, Hd3 |- *.
  split; [done|].
  set (w3 := World (RState (PState p2 h3 o2) tr2 os2 lg2) (w_finalizers w1) (w_platform w1)
                   (w_environ w1) (w_spawned w1) (w_spawn_errno w1) (w_next_pid w1)).
  pose proof (teardown_returns _ d w3 [] (w_next_pid w) r0 Hr3 He2
    ltac:(cbn; by rewrite Hx2, Hf2) ltac:(cbn; by rewrite Htr2, Htr) ltac:(cbn; by rewrite Hos2)
    ltac:(cbn; rewrite Hevs; set_solver)
    ltac:(cbn; rewrite Htr2, Htr, Hevs; intros fd Hfd; apply elem_of_app; right; by apply Hclosed))
    as Ht.
  match goal with |- context [teardown ?x] => change x with w3 end.
  destruct (teardown w3) as [w4 r]. destruct Ht as (-> & Hsig & Hfired & _ & _).
  cbn in Hfired. rewrite Hx2 in Hfired. by split_and!.
Qed.

(** ** Witnesses *)

Lemma create_spawn_error_witness :
  let '(w', r) := create "python3" (w_fresh "linux" (Some 2%Z) []) in
  r = Raise (OSError 2) /\ w_finalizers w' = [] /\
  w_spawned w' = [SpawnRequest "python3" (mailbox_args "python3") None (child_fds "linux") (child_env ∅)].
Proof. apply (create_spawn_error (w_fresh "linux" (Some 2%Z) []) "python3" 2%Z (w_fresh_ok _ _ _) eq_refl). Defined.

Lemma create_ready_witness :
  exists w', create "python3" (w_fresh "linux" None [EvData 1 ex_banner]%Z) =
               (w', Ok (MailboxServer PyTransport mailbox_url)) /\
    last (w_spawned w') =
      Some (SpawnRequest "python3" (mailbox_args "python3") None (child_fds "linux")
              (child_env ∅)).
Proof.
  apply (create_ready (w_fresh "linux" None [EvData 1 ex_banner]%Z) "python3" [ex_banner] [ex_banner] []).
  - apply w_fresh_ok.
  - reflexivity.
  - reflexivity.
  - repeat constructor.
  - vm_compute. reflexivity.
Defined.

Lemma create_then_teardown_witness :
  exists w1, create "python3" ex_session = (w1, Ok (MailboxServer PyTransport mailbox_url)) /\
    result_of (ps_heap (rs_ps (w_r w1))) 0 = Some (Success PyNone) /\
    let '(w2, r) := teardown w1 in
    r = Ok tt /\ 4242%Z ∈ os_signalled (rs_os (w_r w2)) /\
    is_pending (ps_heap (rs_ps (w_r w2))) 1 = false.
Proof.
  apply (create_then_teardown ex_session "python3" [ex_banner] [ex_banner] ex_end ProcessDone).
  - apply w_fresh_ok.
  - reflexivity.
  - reflexivity.
  - reflexivity.
  - repeat constructor.
  - vm_compute. reflexivity.
  - unfold ex_end. set_solver.
  - intros fd Hfd. vm_compute in Hfd |- *. set_solver.
Defined.

Lemma create_fails_witness :
  snd (create "python3" (w_fresh "linux" None
         [EvFdClosed 1; EvFdClosed 2; EvFdClosed 3; EvExit ProcessDone]%Z)) = Raise service_failed.
Proof.
  apply (create_fails _ "python3" ProcessDone).
  - apply w_fresh_ok.
  - reflexivity.
  - intros data Hd. cbn in Hd.
    repeat (apply elem_of_cons in Hd as [Hd|Hd]; [discriminate Hd|]). by apply elem_of_nil in Hd.
  - repeat constructor.
  - apply Forall_forall. vm_compute. repeat constructor.
Defined.

End Mailbox.
